(** * Echo: the compensation-and-review ledger as the [EchoAPI] class runs it

    Shallow embedding of the [EchoAPI] class (source: [src/dapp/providers.ts])
    and of the types it uses ([src/contract/types.ts]).

    [EchoAPI] has two modes.  While [deployment] is [null] every operation
    runs the _local simulation_: the three ledgers are plain objects held by
    the instance ([_localOrg], [_localSalary], [_localReview]).  With a
    deployment the operation is a circuit call on a contract compiled from
    [contracts/*.compact]; those contracts are not among the sources, so the
    embedding follows a deployed call up to its first interaction with a
    contract (a circuit call or a ledger read) and ends there ([OnChain]),
    with the instance as it is at that point.  Two deployed calls write to
    the instance after that point, and nowhere else: [submitReview] takes a
    number from [_nextAnonId] and puts the review in front of
    [_publishedReviews], [advancePeriod] records a trend from the ledgers it
    has read.  These writes are embedded apart, as functions of what the
    contract answered ([submitReviewPublish], [advancePeriodSnapshot]); [call]
    and [run] do not include them.  No deployed call touches the three local
    ledgers.

    Conventions.
    - A JavaScript [number] that only counts (the counters of the local
      ledgers, [_nextAnonId]) is an integer or [NaN] ([Js.number]) and is
      kept in [Z]: it only ever sees [++] and [--], and below [2^53] a double
      holds every integer exactly.  A [bigint] is a [Z].
    - A [number] that takes part in other arithmetic is a double
      ([Double.t]): the band of a payment, which is any number the caller
      passes; [totalPayrollAmount], which receives [+= Number(amount)]; the
      averages.
    - The five ratings of a review are integers: the deployed branch passes
      each through [BigInt(...)], which accepts nothing else.
    - An array is the object JavaScript makes of it: its integer-keyed
      properties, its [length], and the properties named by a number that is
      no integer ([Js.Array]); a write past the end extends it, a write at
      any other key adds a property and touches no element.
    - [Date.now()] and [new Date()] are inputs: every operation takes the
      [Clock] reading it was called at.
    - [_persistLocal()] copies the state to the browser's [localStorage] and
      changes nothing the instance holds; it has no counterpart here, and an
      instance starts from the field initialisers ([newEchoAPI]), as it does
      when nothing was persisted.

    Beside the class the file embeds the helpers of the same module
    ([computeAverageRatings], [bytesToHex], [hexToBytes]) and three pieces of
    the pages that use it: the band the salary page sends with a payment
    ([salaryBandOf]), the median band of the analytics page ([medianBand],
    [app/analytics/page.tsx]) and the sign-in check ([authenticate],
    [app/lib/auth.ts]). *)

From stdpp Require Import gmap strings list pretty.
From Stdlib Require Import ZArith Lia Ascii.
From Stdlib Require Floats.SpecFloat.

Open Scope Z_scope.

(** ** Results of a call *)

(** The circuit calls the deployed branches issue through
    [callTx] and the ledger reads behind the state queries.  Byte arguments
    are named by the hex text [hexToBytes] decodes them from. *)
Inductive CircuitCall :=
| TxAddHrOperator (hrPublicKey : string)
| TxOnboardEmployee (employeeCommitment : string)
| TxOffboardEmployee (employeeNullifier : string)
| TxProveEmployment
| TxProcessSalaryPayment (employeePublicKey : string) (salaryBand : Z)
| TxConfirmSalaryReceipt
| TxProveSalaryRange (lowerBound upperBound : Z)
| TxAdvancePeriod
| TxSubmitReview (contentHash : string)
    (culture compensation management workLifeBalance careerGrowth : Z)
| ReadOrgLedger
| ReadSalaryLedger
| ReadReviewLedger.

(** A call returns a value, throws, or (deployed mode) hands over to a
    contract. *)
Inductive result (A : Type) :=
| Ok (a : A)
| Throw (error : string)
| OnChain (call : CircuitCall).
Arguments Ok {A} a.
Arguments Throw {A} error.
Arguments OnChain {A} call.

#[export] Instance result_ret : MRet result := @Ok.
#[export] Instance result_bind : MBind result := fun A B k r =>
  match r with
  | Ok a => k a
  | Throw e => Throw e
  | OnChain c => OnChain c
  end.

#[export] Instance result_fmap : FMap result := fun A B f r =>
  match r with
  | Ok a => Ok (f a)
  | Throw e => Throw e
  | OnChain c => OnChain c
  end.

(** ** Doubles

    The binary64 values and their arithmetic are those of the Standard
    Library's [SpecFloat] (precision 53, exponents up to 1024, rounding to
    nearest with ties to even). *)
Module Double.
Import SpecFloat.

Definition t : Type := spec_float.

#[global] Instance eq_dec : EqDecision t.
Proof. solve_decision. Defined.

Definition prec : Z := 53.
Definition emax : Z := 1024.

(** [Number(z)] for a bigint [z]; also the value of an integer literal. *)
Definition ofZ (z : Z) : t := binary_normalize prec emax z 0 false.

Definition add : t -> t -> t := SFadd prec emax.
Definition sub : t -> t -> t := SFsub prec emax.
Definition mul : t -> t -> t := SFmul prec emax.
Definition div : t -> t -> t := SFdiv prec emax.

(** [Math.min(a, b)] and [Math.max(a, b)]: [NaN] if either is; of the two
    zeros, [-0] is the smaller. *)
Definition min (a b : t) : t :=
  match SFcompare a b with
  | None => S754_nan
  | Some Lt => a
  | Some Gt => b
  | Some Eq => match a with S754_zero true => a | _ => b end
  end.

Definition max (a b : t) : t :=
  match SFcompare a b with
  | None => S754_nan
  | Some Lt => b
  | Some Gt => a
  | Some Eq => match a with S754_zero false => a | _ => b end
  end.

(** [Math.round(x)]: the integer nearest to [x], a half going upwards:
    [floor(x + 1/2)], computed exactly; a zero keeps the sign of [x]. *)
Definition round (x : t) : t :=
  match x with
  | S754_finite s m e =>
      if 0 <=? e then x
      else binary_normalize prec emax
             ((cond_Zopp s (Zpos m) * 2 + 2 ^ (- e)) / 2 ^ (- e + 1)) 0 s
  | _ => x
  end.

(** The integer a double is, if it is one. *)
Definition toZ (x : t) : option Z :=
  match x with
  | S754_zero _ => Some 0
  | S754_finite s m e =>
      if 0 <=? e then Some (cond_Zopp s (Zpos m * 2 ^ e))
      else if Zpos m mod 2 ^ (- e) =? 0
           then Some (cond_Zopp s (Zpos m / 2 ^ (- e)))
           else None
  | _ => None
  end.

(** The double nearest to [s * 10^p], for a positive integer [s]. *)
Definition ofDecimal (s : positive) (p : Z) : t :=
  if 0 <=? p then ofZ (Zpos s * 10 ^ p)
  else div (S754_finite false s 0) (S754_finite false (Z.to_pos (10 ^ (- p))) 0).

(** The least [n'] from [n] on with [num / den < 10^n']. *)
Fixpoint decimalExponent (fuel : nat) (num den : Z) (n : Z) : Z :=
  match fuel with
  | O => n
  | S fuel' =>
      if (if 0 <=? n then num <? den * 10 ^ n else num * 10 ^ (- n) <? den)
      then n else decimalExponent fuel' num den (n + 1)
  end.

(** The shortest decimal that reads back as [x = num / den], where
    [10^(n-1) <= x < 10^n]: its digits [s] and the exponent [p] of the last
    one, trying [k] digits and then more; of two decimals of the same length
    the one nearer to [x]. *)
Fixpoint shortest (fuel : nat) (x : t) (num den : Z) (n : Z) (k : Z)
    : Z * Z :=
  let p := n - k in
  let lo := if 0 <=? p then num / (den * 10 ^ p) else (num * 10 ^ (- p)) / den in
  let hi := lo + 1 in
  let reads s := bool_decide (ofDecimal (Z.to_pos s) p = x) in
  let gap s := if 0 <=? p then Z.abs (s * 10 ^ p * den - num)
               else Z.abs (s * den - num * 10 ^ (- p)) in
  match fuel with
  | O => (lo, p)
  | S fuel' =>
      match reads lo && bool_decide (0 < lo), reads hi with
      | true, true =>
          if gap lo <? gap hi then (lo, p)
          else if gap hi <? gap lo then (hi, p)
          else if Z.even lo then (lo, p) else (hi, p)
      | true, false => (lo, p)
      | false, true => (hi, p)
      | false, false => shortest fuel' x num den n (k + 1)
      end
  end.

(** Trailing zeros of the digits go into the exponent. *)
Fixpoint stripZeros (fuel : nat) (sp : Z * Z) : Z * Z :=
  match fuel with
  | O => sp
  | S fuel' =>
      if (fst sp mod 10 =? 0) && negb (fst sp =? 0)
      then stripZeros fuel' (fst sp / 10, snd sp + 1) else sp
  end.

Fixpoint zeros (n : nat) : string :=
  match n with O => "" | S n' => String "0" (zeros n') end.

(** [String(x)], the text of a number ([Number::toString] in radix 10). *)
Definition toString (x : t) : string :=
  match x with
  | S754_nan => "NaN"
  | S754_infinity false => "Infinity"
  | S754_infinity true => "-Infinity"
  | S754_zero _ => "0"
  | S754_finite sg m e =>
      let num := if 0 <=? e then Zpos m * 2 ^ e else Zpos m in
      let den := if 0 <=? e then 1 else 2 ^ (- e) in
      (* [2^(b-1) <= x < 2^b] puts the decimal exponent above
         [(b - 1) * log10 2] *)
      let b := Zpos (digits2_pos m) + e in
      let start := if 0 <=? b - 1 then (b - 1) * 30102 / 100000
                   else (b - 1) * 30103 / 100000 in
      let n0 := decimalExponent 8 num den start in
      let '(s, p) := stripZeros 20 (shortest 17 (S754_finite false m e) num den n0 1) in
      let ds : string := pretty s in
      let k := Z.of_nat (String.length ds) in
      let n := p + k in
      let body :=
        if (k <=? n) && (n <=? 21) then ds +:+ zeros (Z.to_nat (n - k))
        else if (0 <? n) && (n <=? 21)
        then String.substring 0 (Z.to_nat n) ds +:+ "." +:+
             String.substring (Z.to_nat n) (Z.to_nat (k - n)) ds
        else if (-6 <? n) && (n <=? 0)
        then "0." +:+ zeros (Z.to_nat (- n)) +:+ ds
        else
          let ex := n - 1 in
          let mant := if k =? 1 then ds
                      else String.substring 0 1 ds +:+ "." +:+
                           String.substring 1 (Z.to_nat (k - 1)) ds in
          mant +:+ "e" +:+ (if 0 <=? ex then "+" else "-") +:+ pretty (Z.abs ex) in
      if sg then "-" +:+ body else body
  end.

(** [BigInt(x)]: a [RangeError] unless [x] is an integer. *)
Definition BigInt (x : t) : result Z :=
  match toZ x with
  | Some z => Ok z
  | None =>
      Throw ("RangeError: The number " +:+ toString x
             +:+ " cannot be converted to a BigInt because it is not an integer")
  end.

(** The integers a double holds together with all their neighbours:
    [Number.MIN_SAFE_INTEGER .. Number.MAX_SAFE_INTEGER]. *)
Definition safe (z : Z) : Prop := - 2 ^ 53 < z < 2 ^ 53.

(** [c * 2^n] *)
Definition shl (c : positive) (n : Z) : positive :=
  match n with
  | Zpos p => Pos.iter xO c p
  | _ => c
  end.

(** The number of binary digits of [c]. *)
Definition D (c : positive) : Z := Zpos (digits2_pos c).

(** The double [+-c] for [c] of at most 53 digits: the mantissa is [c]
    shifted up to 53 digits. *)
Definition canon (s : bool) (c : positive) : t :=
  S754_finite s (shl c (53 - D c)) (D c - 53).

Definition absPos (z : Z) : positive := Z.to_pos (Z.abs z).


End Double.

(** ** JavaScript counters and arrays *)
Module Js.

Inductive number := Num (z : Z) | NaN.

#[export] Instance number_eq_dec : EqDecision number.
Proof. solve_decision. Defined.

(** [undefined] (a missing property) converts to [NaN]. *)
Definition ToNumber (v : option number) : number := default NaN v.

Definition add (a b : number) : number :=
  match a, b with
  | Num x, Num y => Num (x + y)
  | _, _ => NaN
  end.

Definition mul (a b : number) : number :=
  match a, b with
  | Num x, Num y => Num (x * y)
  | _, _ => NaN
  end.

(** [a > 0]; every comparison with [NaN] is false. *)
Definition positive (a : number) : bool :=
  match a with
  | Num x => bool_decide (0 < x)
  | NaN => false
  end.

(** [BigInt(v)]: a [RangeError] for [NaN], a [TypeError] for [undefined]. *)
Definition BigInt (v : option number) : result Z :=
  match v with
  | Some (Num z) => Ok z
  | Some NaN => Throw "RangeError: The number NaN cannot be converted to a BigInt because it is not an integer"
  | None => Throw "TypeError: Cannot convert undefined to a BigInt"
  end.

(** An array object: its integer-keyed properties, its [length], and its
    properties named by a number that is no integer, in the order they
    were added. *)
Record Array := mkArray {
  items : gmap Z number;
  length : Z;
  named : list (Double.t * number);
}.

(** Keys that are array indices; only a write at one of them can move
    [length]. *)
Definition isArrayIndex (i : Z) : Prop := 0 <= i < 2 ^ 32 - 1.

(** [a[i]] *)
Definition get (a : Array) (i : Z) : option number := items a !! i.

(** [a[i] = v] *)
Definition set (a : Array) (i : Z) (v : number) : Array :=
  {| items := <[i := v]> (items a);
     length := if decide (isArrayIndex i /\ length a <= i)
               then i + 1 else length a;
     named := named a |}.

(** [a[i]++] *)
Definition postIncrement (a : Array) (i : Z) : Array :=
  set a i (add (ToNumber (get a i)) (Num 1)).

(** A counter as an operand of double arithmetic. *)
Definition toDouble (a : number) : Double.t :=
  match a with
  | Num z => Double.ofZ z
  | NaN => SpecFloat.S754_nan
  end.

(** The array literal [[x0, x1, ...]]. *)
Definition ofList (l : list number) : Array :=
  {| items := list_to_map (zip (seqZ 0 (Z.of_nat (List.length l))) l);
     length := Z.of_nat (List.length l);
     named := [] |}.

(** [a.reduce((acc, v, idx) => f(acc, v, idx), init)]: the elements in
    index order, holes skipped. *)
Definition reduce {A : Type} (f : A -> number -> Z -> A) (init : A)
    (a : Array) : A :=
  foldl (fun acc i => match get a i with
                      | Some v => f acc v i
                      | None => acc
                      end)
        init (seqZ 0 (length a)).

(** The value of a named property, and the list after an assignment to it:
    in place if the property is there, at the end if not. *)
Fixpoint lookupNamed (k : Double.t) (l : list (Double.t * number))
    : option number :=
  match l with
  | [] => None
  | (k', v) :: l' => if decide (k' = k) then Some v else lookupNamed k l'
  end.

Fixpoint assignNamed (k : Double.t) (v : number) (l : list (Double.t * number))
    : list (Double.t * number) :=
  match l with
  | [] => [(k, v)]
  | (k', v') :: l' =>
      if decide (k' = k) then (k, v) :: l' else (k', v') :: assignNamed k v l'
  end.

(** [a[k]], [a[k] = v] and [a[k]++] for a double [k]: the property is named
    by the text of [k], which is an integer key exactly when [k] is an
    integer. *)
Definition getAt (a : Array) (k : Double.t) : option number :=
  match Double.toZ k with
  | Some i => get a i
  | None => lookupNamed k (named a)
  end.

Definition setAt (a : Array) (k : Double.t) (v : number) : Array :=
  match Double.toZ k with
  | Some i => set a i v
  | None => {| items := items a; length := length a;
               named := assignNamed k v (named a) |}
  end.

Definition postIncrementAt (a : Array) (k : Double.t) : Array :=
  setAt a k (add (ToNumber (getAt a k)) (Num 1)).

(** The digits of [n.toString(16)]. *)
Definition hexDigit (d : N) : Ascii.ascii :=
  match d with
  | 0 => "0" | 1 => "1" | 2 => "2" | 3 => "3" | 4 => "4" | 5 => "5"
  | 6 => "6" | 7 => "7" | 8 => "8" | 9 => "9" | 10 => "a" | 11 => "b"
  | 12 => "c" | 13 => "d" | 14 => "e" | _ => "f"
  end%N%char.

Fixpoint hexGo (fuel : nat) (n : N) (acc : string) : string :=
  let acc' := String (hexDigit (n mod 16)%N) acc in
  match fuel with
  | O => acc'
  | S fuel' => if (n / 16 =? 0)%N then acc' else hexGo fuel' (n / 16)%N acc'
  end.

Definition toString16 (n : N) : string := hexGo (N.size_nat n) n "".

End Js.

(** ** Types of [src/contract/types.ts] *)

Inductive Network := testnet | mainnet | local.

Record EchoDeployment := {
  organizationContractAddress : string;
  salaryContractAddress : string;
  reviewContractAddress : string;
  deployedAt : string;
  network : Network;
  orgName : string;
}.

Record ReviewRatings := {
  culture : Z;
  compensation : Z;
  management : Z;
  workLifeBalance : Z;
  careerGrowth : Z;
}.

Record RatingDistribution := {
  rating1 : Z;
  rating2 : Z;
  rating3 : Z;
  rating4 : Z;
  rating5 : Z;
}.

Record SalaryBands := {
  band1 : Z;
  band2 : Z;
  band3 : Z;
  band4 : Z;
  band5 : Z;
}.

Module OrganizationLedgerState.
(** [OrganizationLedgerState & { hrOperatorCount; auditorCount }], the
    value of [getOrganizationState]. *)
Record t := mk {
  orgAdmin : string;
  orgMetadataCommitment : string;
  status : string;
  employeeCount : Z;
  round : Z;
  hrOperatorCount : Z;
  auditorCount : Z;
}.
End OrganizationLedgerState.

Module SalaryLedgerState.
Record t := mk {
  orgAdmin : string;
  totalPaymentsProcessed : Z;
  totalPayrollAmount : Z;
  currentPeriod : Z;
  activeDisputes : Z;
  salaryBands : SalaryBands;
  round : Z;
}.
End SalaryLedgerState.

Module RatingAggregates.
Record t := mk {
  culture : RatingDistribution;
  compensation : RatingDistribution;
  management : RatingDistribution;
  workLifeBalance : RatingDistribution;
  careerGrowth : RatingDistribution;
}.
End RatingAggregates.

Module ReviewLedgerState.
Record t := mk {
  orgAdmin : string;
  totalReviews : Z;
  currentReviewPeriod : Z;
  round : Z;
  ratingAggregates : RatingAggregates.t;
}.
End ReviewLedgerState.

(** ** The state an [EchoAPI] instance holds ([src/dapp/providers.ts]) *)

Module PublishedReview.
Record t := mk {
  id : string;
  anonId : string;
  date : string;
  period : Z;
  ratings : ReviewRatings;
  content : string;
  verified : bool;
}.
End PublishedReview.

Module PeriodTrend.
Record t := mk {
  period : Z;
  payments : Z;
  reviews : Z;
  avgRating : Double.t;
}.
End PeriodTrend.

Module LocalOrgState.
Record t := mk {
  employeeCount : Z;
  hrOperatorCount : Z;
  auditorCount : Z;
  round : Z;
  status : string;
  employees : list string;
  hrOperators : list string;
}.
End LocalOrgState.

Module LocalSalaryState.
Record t := mk {
  totalPaymentsProcessed : Z;
  totalPayrollAmount : Double.t;
  currentPeriod : Z;
  activeDisputes : Z;
  bands : Js.Array;
  round : Z;
}.
End LocalSalaryState.

Module RatingCounters.
Record t := mk {
  culture : Js.Array;
  compensation : Js.Array;
  management : Js.Array;
  workLifeBalance : Js.Array;
  careerGrowth : Js.Array;
}.
End RatingCounters.

Module LocalReviewState.
Record t := mk {
  totalReviews : Z;
  currentReviewPeriod : Z;
  round : Z;
  ratingCounters : RatingCounters.t;
}.
End LocalReviewState.

Definition zeros5 : Js.Array :=
  Js.ofList [Js.Num 0; Js.Num 0; Js.Num 0; Js.Num 0; Js.Num 0].

Definition makeDefaultLocalOrg : LocalOrgState.t :=
  {| LocalOrgState.employeeCount := 0;
     LocalOrgState.hrOperatorCount := 0;
     LocalOrgState.auditorCount := 0;
     LocalOrgState.round := 0;
     LocalOrgState.status := "ACTIVE";
     LocalOrgState.employees := [];
     LocalOrgState.hrOperators := [] |}.

Definition makeDefaultLocalSalary : LocalSalaryState.t :=
  {| LocalSalaryState.totalPaymentsProcessed := 0;
     LocalSalaryState.totalPayrollAmount := Double.ofZ 0;
     LocalSalaryState.currentPeriod := 1;
     LocalSalaryState.activeDisputes := 0;
     LocalSalaryState.bands := zeros5;
     LocalSalaryState.round := 0 |}.

Definition makeDefaultLocalReview : LocalReviewState.t :=
  {| LocalReviewState.totalReviews := 0;
     LocalReviewState.currentReviewPeriod := 1;
     LocalReviewState.round := 0;
     LocalReviewState.ratingCounters :=
       {| RatingCounters.culture := zeros5;
          RatingCounters.compensation := zeros5;
          RatingCounters.management := zeros5;
          RatingCounters.workLifeBalance := zeros5;
          RatingCounters.careerGrowth := zeros5 |} |}.

(** The fields of the instance that the operations read or write.  (The
    wallet, the contract handles, modules and providers serve the deployed
    branches only.) *)
Record EchoAPI := mkEchoAPI {
  deployment : option EchoDeployment;
  _publishedReviews : list PublishedReview.t;
  _nextAnonId : Z;
  _periodTrends : list PeriodTrend.t;
  _localOrg : LocalOrgState.t;
  _localSalary : LocalSalaryState.t;
  _localReview : LocalReviewState.t;
}.

(** [new EchoAPI(config)] when nothing was persisted: the field
    initialisers. *)
Definition newEchoAPI : EchoAPI :=
  {| deployment := None;
     _publishedReviews := [];
     _nextAnonId := 1;
     _periodTrends := [];
     _localOrg := makeDefaultLocalOrg;
     _localSalary := makeDefaultLocalSalary;
     _localReview := makeDefaultLocalReview |}.

(** What a call reads off the clock: [Date.now()] and the date part of
    [new Date().toISOString()]. *)
Record Clock := { now : N; today : string }.

(** ["local_tx_" + Date.now().toString(16)] *)
Definition localTxId (clk : Clock) : string :=
  "local_tx_" +:+ Js.toString16 (now clk).

(** ["0".repeat(64)] *)
Definition zeros64 : string :=
  "0000000000000000000000000000000000000000000000000000000000000000".

(** An operation: the value it resolves to (or the way it does not), and the
    instance afterwards. *)
Definition Method (A : Type) : Type := EchoAPI -> result A * EchoAPI.

Definition withLocalOrg (api : EchoAPI) (o : LocalOrgState.t) : EchoAPI :=
  {| deployment := deployment api;
     _publishedReviews := _publishedReviews api;
     _nextAnonId := _nextAnonId api;
     _periodTrends := _periodTrends api;
     _localOrg := o;
     _localSalary := _localSalary api;
     _localReview := _localReview api |}.

Definition withLocalSalary (api : EchoAPI) (s : LocalSalaryState.t) : EchoAPI :=
  {| deployment := deployment api;
     _publishedReviews := _publishedReviews api;
     _nextAnonId := _nextAnonId api;
     _periodTrends := _periodTrends api;
     _localOrg := _localOrg api;
     _localSalary := s;
     _localReview := _localReview api |}.

(** ** Organization operations *)

Definition addHrOperator (hrPublicKey : string) (clk : Clock) : Method string :=
  fun api =>
  match deployment api with
  | None =>
      let o := _localOrg api in
      (Ok (localTxId clk),
       withLocalOrg api
         {| LocalOrgState.employeeCount := LocalOrgState.employeeCount o;
            LocalOrgState.hrOperatorCount := LocalOrgState.hrOperatorCount o + 1;
            LocalOrgState.auditorCount := LocalOrgState.auditorCount o;
            LocalOrgState.round := LocalOrgState.round o + 1;
            LocalOrgState.status := LocalOrgState.status o;
            LocalOrgState.employees := LocalOrgState.employees o;
            LocalOrgState.hrOperators := LocalOrgState.hrOperators o ++ [hrPublicKey] |})
  | Some _ => (OnChain (TxAddHrOperator hrPublicKey), api)
  end.

Definition onboardEmployee (employeeCommitment : string) (clk : Clock)
    : Method string :=
  fun api =>
  match deployment api with
  | None =>
      let o := _localOrg api in
      (Ok (localTxId clk),
       withLocalOrg api
         {| LocalOrgState.employeeCount := LocalOrgState.employeeCount o + 1;
            LocalOrgState.hrOperatorCount := LocalOrgState.hrOperatorCount o;
            LocalOrgState.auditorCount := LocalOrgState.auditorCount o;
            LocalOrgState.round := LocalOrgState.round o + 1;
            LocalOrgState.status := LocalOrgState.status o;
            LocalOrgState.employees := LocalOrgState.employees o ++ [employeeCommitment];
            LocalOrgState.hrOperators := LocalOrgState.hrOperators o |})
  | Some _ => (OnChain (TxOnboardEmployee employeeCommitment), api)
  end.

Definition offboardEmployee (employeeNullifier : string) (clk : Clock)
    : Method string :=
  fun api =>
  match deployment api with
  | None =>
      let o := _localOrg api in
      (Ok (localTxId clk),
       withLocalOrg api
         {| LocalOrgState.employeeCount :=
              if bool_decide (LocalOrgState.employeeCount o > 0)
              then LocalOrgState.employeeCount o - 1
              else LocalOrgState.employeeCount o;
            LocalOrgState.hrOperatorCount := LocalOrgState.hrOperatorCount o;
            LocalOrgState.auditorCount := LocalOrgState.auditorCount o;
            LocalOrgState.round := LocalOrgState.round o + 1;
            LocalOrgState.status := LocalOrgState.status o;
            LocalOrgState.employees := LocalOrgState.employees o;
            LocalOrgState.hrOperators := LocalOrgState.hrOperators o |})
  | Some _ => (OnChain (TxOffboardEmployee employeeNullifier), api)
  end.

Definition proveEmployment : Method bool :=
  fun api =>
  match deployment api with
  | None => (Ok true, api)
  | Some _ => (OnChain TxProveEmployment, api)
  end.

Definition getOrganizationState : Method OrganizationLedgerState.t :=
  fun api =>
  match deployment api with
  | None =>
      let o := _localOrg api in
      (Ok {| OrganizationLedgerState.orgAdmin := zeros64;
             OrganizationLedgerState.orgMetadataCommitment := zeros64;
             OrganizationLedgerState.status := LocalOrgState.status o;
             OrganizationLedgerState.employeeCount := LocalOrgState.employeeCount o;
             OrganizationLedgerState.round := LocalOrgState.round o;
             OrganizationLedgerState.hrOperatorCount := LocalOrgState.hrOperatorCount o;
             OrganizationLedgerState.auditorCount := LocalOrgState.auditorCount o |},
       api)
  | Some _ => (OnChain ReadOrgLedger, api)
  end.

(** ** Salary operations *)

Record SalaryPaymentParams := {
  employeePublicKey : string;
  amount : Z;
  period : Z;
  salaryBand : Double.t;
}.

Record ReceiptConfirmation := {
  txId : string;
  reviewTokenIssued : bool;
}.

(** [Math.max(0, Math.min(4, params.salaryBand - 1))] *)
Definition bandIdx (salaryBand : Double.t) : Double.t :=
  Double.max (Double.ofZ 0)
             (Double.min (Double.ofZ 4) (Double.sub salaryBand (Double.ofZ 1))).

Definition processSalaryPayment (params : SalaryPaymentParams) (clk : Clock)
    : Method string :=
  fun api =>
  match deployment api with
  | None =>
      let s := _localSalary api in
      (Ok (localTxId clk),
       withLocalSalary api
         {| LocalSalaryState.totalPaymentsProcessed :=
              LocalSalaryState.totalPaymentsProcessed s + 1;
            LocalSalaryState.totalPayrollAmount :=
              Double.add (LocalSalaryState.totalPayrollAmount s)
                         (Double.ofZ (amount params));
            LocalSalaryState.currentPeriod := LocalSalaryState.currentPeriod s;
            LocalSalaryState.activeDisputes := LocalSalaryState.activeDisputes s;
            LocalSalaryState.bands :=
              Js.postIncrementAt (LocalSalaryState.bands s)
                                 (bandIdx (salaryBand params));
            LocalSalaryState.round := LocalSalaryState.round s + 1 |})
  | Some _ =>
      (salaryBand ← Double.BigInt (salaryBand params);
       OnChain (TxProcessSalaryPayment (employeePublicKey params) salaryBand),
       api)
  end.

Definition confirmSalaryReceipt (clk : Clock) : Method ReceiptConfirmation :=
  fun api =>
  match deployment api with
  | None =>
      (Ok {| txId := localTxId clk; reviewTokenIssued := true |}, api)
  | Some _ => (OnChain TxConfirmSalaryReceipt, api)
  end.

Definition proveSalaryRange (lowerBound upperBound : Z) : Method bool :=
  fun api =>
  match deployment api with
  | None => (Ok true, api)
  | Some _ => (OnChain (TxProveSalaryRange lowerBound upperBound), api)
  end.

(** The average score of one category, when it has any review:
    [weighted / total] inside the loop of [computeLocalAvgRating]. *)
Definition categoryAverage (counters : Js.Array) : option Double.t :=
  let total := Js.reduce (fun a b _ => Js.add a b) (Js.Num 0) counters in
  if Js.positive total then
    let weighted :=
      Js.reduce (fun sum count idx =>
                   Js.add sum (Js.mul count (Js.Num (idx + 1))))
                (Js.Num 0) counters in
    Some (Double.div (Js.toDouble weighted) (Js.toDouble total))
  else None.

Definition computeLocalAvgRating (api : EchoAPI) : Double.t :=
  let r := LocalReviewState.ratingCounters (_localReview api) in
  let categories :=
    [RatingCounters.culture r; RatingCounters.compensation r;
     RatingCounters.management r; RatingCounters.workLifeBalance r;
     RatingCounters.careerGrowth r] in
  let '(totalAvg, catCount) :=
    foldl (fun '(totalAvg, catCount) counters =>
             match categoryAverage counters with
             | Some avg => (Double.add totalAvg avg, catCount + 1)
             | None => (totalAvg, catCount)
             end)
          (Double.ofZ 0, 0) categories in
  if bool_decide (catCount > 0)
  then Double.div totalAvg (Double.ofZ catCount)
  else Double.ofZ 0.

(** [Math.round(x * 10) / 10] *)
Definition roundToTenth (x : Double.t) : Double.t :=
  Double.div (Double.round (Double.mul x (Double.ofZ 10))) (Double.ofZ 10).

(** [l.findIndex(p)], counting from [i]. *)
Fixpoint findIndexFrom {A : Type} (p : A -> bool) (l : list A) (i : Z) : Z :=
  match l with
  | [] => -1
  | x :: l' => if p x then i else findIndexFrom p l' (i + 1)
  end.

Definition findIndex {A : Type} (p : A -> bool) (l : list A) : Z :=
  findIndexFrom p l 0.

Definition advancePeriod (clk : Clock) : Method string :=
  fun api =>
  match deployment api with
  | None =>
      let s := _localSalary api in
      let r := _localReview api in
      let currentPeriodNum := LocalSalaryState.currentPeriod s in
      let avgRating := computeLocalAvgRating api in
      let existingIdx :=
        findIndex (fun t => bool_decide (PeriodTrend.period t = currentPeriodNum))
                  (_periodTrends api) in
      let trendEntry :=
        {| PeriodTrend.period := currentPeriodNum;
           PeriodTrend.payments := LocalSalaryState.totalPaymentsProcessed s;
           PeriodTrend.reviews := LocalReviewState.totalReviews r;
           PeriodTrend.avgRating := roundToTenth avgRating |} in
      (Ok (localTxId clk),
       {| deployment := deployment api;
          _publishedReviews := _publishedReviews api;
          _nextAnonId := _nextAnonId api;
          _periodTrends :=
            if bool_decide (existingIdx >= 0)
            then <[Z.to_nat existingIdx := trendEntry]> (_periodTrends api)
            else _periodTrends api ++ [trendEntry];
          _localOrg := _localOrg api;
          _localSalary :=
            {| LocalSalaryState.totalPaymentsProcessed :=
                 LocalSalaryState.totalPaymentsProcessed s;
               LocalSalaryState.totalPayrollAmount :=
                 LocalSalaryState.totalPayrollAmount s;
               LocalSalaryState.currentPeriod := LocalSalaryState.currentPeriod s + 1;
               LocalSalaryState.activeDisputes := LocalSalaryState.activeDisputes s;
               LocalSalaryState.bands := LocalSalaryState.bands s;
               LocalSalaryState.round := LocalSalaryState.round s + 1 |};
          _localReview := _localReview api |})
  | Some _ => (OnChain ReadSalaryLedger, api)
  end.

Definition getSalaryState : Method SalaryLedgerState.t :=
  fun api =>
  match deployment api with
  | None =>
      let s := _localSalary api in
      let b := LocalSalaryState.bands s in
      (totalPayrollAmount ← Double.BigInt (LocalSalaryState.totalPayrollAmount s);
       b1 ← Js.BigInt (Js.get b 0);
       b2 ← Js.BigInt (Js.get b 1);
       b3 ← Js.BigInt (Js.get b 2);
       b4 ← Js.BigInt (Js.get b 3);
       b5 ← Js.BigInt (Js.get b 4);
       Ok {| SalaryLedgerState.orgAdmin := zeros64;
             SalaryLedgerState.totalPaymentsProcessed :=
               LocalSalaryState.totalPaymentsProcessed s;
             SalaryLedgerState.totalPayrollAmount := totalPayrollAmount;
             SalaryLedgerState.currentPeriod := LocalSalaryState.currentPeriod s;
             SalaryLedgerState.activeDisputes := LocalSalaryState.activeDisputes s;
             SalaryLedgerState.salaryBands :=
               {| band1 := b1; band2 := b2; band3 := b3;
                  band4 := b4; band5 := b5 |};
             SalaryLedgerState.round := LocalSalaryState.round s |},
       api)
  | Some _ => (OnChain ReadSalaryLedger, api)
  end.

(** ** Review operations *)

Record ReviewParams := {
  ratings : ReviewRatings;
  content : string;
  contentHash : string;
}.

Definition submitReview (params : ReviewParams) (clk : Clock) : Method string :=
  fun api =>
  match deployment api with
  | None =>
      let r := _localReview api in
      let c := LocalReviewState.ratingCounters r in
      let ratings := ratings params in
      let review :=
        {| PublishedReview.id := "rev_" +:+ Js.toString16 (now clk);
           PublishedReview.anonId :=
             "Anonymous Employee #" +:+ pretty (_nextAnonId api);
           PublishedReview.date := today clk;
           PublishedReview.period := LocalReviewState.currentReviewPeriod r;
           PublishedReview.ratings := ratings;
           PublishedReview.content := content params;
           PublishedReview.verified := true |} in
      (Ok (localTxId clk),
       {| deployment := deployment api;
          _publishedReviews := review :: _publishedReviews api;
          _nextAnonId := _nextAnonId api + 1;
          _periodTrends := _periodTrends api;
          _localOrg := _localOrg api;
          _localSalary := _localSalary api;
          _localReview :=
            {| LocalReviewState.totalReviews := LocalReviewState.totalReviews r + 1;
               LocalReviewState.currentReviewPeriod :=
                 LocalReviewState.currentReviewPeriod r;
               LocalReviewState.round := LocalReviewState.round r + 1;
               LocalReviewState.ratingCounters :=
                 {| RatingCounters.culture :=
                      Js.postIncrement (RatingCounters.culture c)
                                       (culture ratings - 1);
                    RatingCounters.compensation :=
                      Js.postIncrement (RatingCounters.compensation c)
                                       (compensation ratings - 1);
                    RatingCounters.management :=
                      Js.postIncrement (RatingCounters.management c)
                                       (management ratings - 1);
                    RatingCounters.workLifeBalance :=
                      Js.postIncrement (RatingCounters.workLifeBalance c)
                                       (workLifeBalance ratings - 1);
                    RatingCounters.careerGrowth :=
                      Js.postIncrement (RatingCounters.careerGrowth c)
                                       (careerGrowth ratings - 1) |} |} |})
  | Some _ =>
      (OnChain (TxSubmitReview (contentHash params)
                  (culture (ratings params)) (compensation (ratings params))
                  (management (ratings params))
                  (workLifeBalance (ratings params))
                  (careerGrowth (ratings params))),
       api)
  end.

(** [toRatingDist] inside [getReviewState] *)
Definition toRatingDist (arr : Js.Array) : result RatingDistribution :=
  r1 ← Js.BigInt (Js.get arr 0);
  r2 ← Js.BigInt (Js.get arr 1);
  r3 ← Js.BigInt (Js.get arr 2);
  r4 ← Js.BigInt (Js.get arr 3);
  r5 ← Js.BigInt (Js.get arr 4);
  Ok {| rating1 := r1; rating2 := r2; rating3 := r3;
        rating4 := r4; rating5 := r5 |}.

Definition getReviewState : Method ReviewLedgerState.t :=
  fun api =>
  match deployment api with
  | None =>
      let r := _localReview api in
      let c := LocalReviewState.ratingCounters r in
      (cu ← toRatingDist (RatingCounters.culture c);
       co ← toRatingDist (RatingCounters.compensation c);
       ma ← toRatingDist (RatingCounters.management c);
       wl ← toRatingDist (RatingCounters.workLifeBalance c);
       cg ← toRatingDist (RatingCounters.careerGrowth c);
       Ok {| ReviewLedgerState.orgAdmin := zeros64;
             ReviewLedgerState.totalReviews := LocalReviewState.totalReviews r;
             ReviewLedgerState.currentReviewPeriod :=
               LocalReviewState.currentReviewPeriod r;
             ReviewLedgerState.round := LocalReviewState.round r;
             ReviewLedgerState.ratingAggregates :=
               {| RatingAggregates.culture := cu;
                  RatingAggregates.compensation := co;
                  RatingAggregates.management := ma;
                  RatingAggregates.workLifeBalance := wl;
                  RatingAggregates.careerGrowth := cg |} |},
       api)
  | Some _ => (OnChain ReadReviewLedger, api)
  end.

(** ** The deployed calls once the contract has answered

    With a deployment a call is embedded up to its first interaction with a
    contract.  Two calls write to the instance after that point:
    [advancePeriod] records a trend from the two ledgers it has read, before
    it issues its circuit call, and [submitReview] publishes the review after
    its circuit call has resolved.  These writes are embedded here as
    functions of what the contract answered. *)

(** The outcome of an awaited contract interaction. *)
Inductive Answer (A : Type) :=
| Resolved (value : A)
| Rejected (error : string).
Arguments Resolved {A} value.
Arguments Rejected {A} error.

(** What the two calls read of the salary and the review ledger
    ([salaryModule.ledger], [reviewModule.ledger]): [bigint]s, the 25 rating
    counters by category. *)
Module OnChainSalary.
Record t := mk {
  currentPeriod : Z;
  totalPaymentsProcessed : Z;
}.
End OnChainSalary.

Module OnChainReview.
Record t := mk {
  totalReviews : Z;
  currentReviewPeriod : Z;
  ratingCounters : RatingAggregates.t;
}.
End OnChainReview.

(** The average score of one category inside the loop of
    [computeOverallAvgFromLedger], when it has any review. *)
Definition ledgerCategoryAverage (counters : RatingDistribution)
    : option Double.t :=
  let total := rating1 counters + rating2 counters + rating3 counters
               + rating4 counters + rating5 counters in
  if bool_decide (total > 0) then
    let weighted := rating1 counters * 1 + rating2 counters * 2
                    + rating3 counters * 3 + rating4 counters * 4
                    + rating5 counters * 5 in
    Some (Double.div (Double.ofZ weighted) (Double.ofZ total))
  else None.

Definition computeOverallAvgFromLedger (ledger : OnChainReview.t) : Double.t :=
  let c := OnChainReview.ratingCounters ledger in
  let categories :=
    [RatingAggregates.culture c; RatingAggregates.compensation c;
     RatingAggregates.management c; RatingAggregates.workLifeBalance c;
     RatingAggregates.careerGrowth c] in
  let '(totalAvg, catCount) :=
    foldl (fun '(totalAvg, catCount) counters =>
             match ledgerCategoryAverage counters with
             | Some avg => (Double.add totalAvg avg, catCount + 1)
             | None => (totalAvg, catCount)
             end)
          (Double.ofZ 0, 0) categories in
  if bool_decide (catCount > 0)
  then Double.div totalAvg (Double.ofZ catCount)
  else Double.ofZ 0.

(** The [try] block of the deployed [advancePeriod]: the instance when
    [callTx.advancePeriod] is issued, from the answers of [readSalaryLedger]
    and [readReviewLedger].  If a read is rejected the [catch] leaves the
    trends as they are.  Nothing is written after the circuit call. *)
Definition advancePeriodSnapshot (salaryLedger : Answer OnChainSalary.t)
    (reviewLedger : Answer OnChainReview.t) (api : EchoAPI) : EchoAPI :=
  match salaryLedger, reviewLedger with
  | Resolved salaryLedger, Resolved reviewLedger =>
      let currentPeriodNum := OnChainSalary.currentPeriod salaryLedger in
      let avgRating := computeOverallAvgFromLedger reviewLedger in
      let existingIdx :=
        findIndex (fun t => bool_decide (PeriodTrend.period t = currentPeriodNum))
                  (_periodTrends api) in
      let trendEntry :=
        {| PeriodTrend.period := currentPeriodNum;
           PeriodTrend.payments :=
             OnChainSalary.totalPaymentsProcessed salaryLedger;
           PeriodTrend.reviews := OnChainReview.totalReviews reviewLedger;
           PeriodTrend.avgRating := roundToTenth avgRating |} in
      {| deployment := deployment api;
         _publishedReviews := _publishedReviews api;
         _nextAnonId := _nextAnonId api;
         _periodTrends :=
           if bool_decide (existingIdx >= 0)
           then <[Z.to_nat existingIdx := trendEntry]> (_periodTrends api)
           else _periodTrends api ++ [trendEntry];
         _localOrg := _localOrg api;
         _localSalary := _localSalary api;
         _localReview := _localReview api |}
  | _, _ => api
  end.

(** The deployed [submitReview] after [callTx.submitReview] has resolved
    with [txId] ([None]: a result without [public.txId]): the value it
    resolves to and the instance afterwards, from the answer of
    [readReviewLedger].  The label takes its number before the ledger is
    read, so a rejected read costs a number and publishes nothing. *)
Definition submitReviewPublish (params : ReviewParams) (clk : Clock)
    (txId : option string) (reviewLedger : Answer OnChainReview.t)
    : Method string :=
  fun api =>
  let id := "rev_" +:+ Js.toString16 (now clk) in
  let anonId := "Anonymous Employee #" +:+ pretty (_nextAnonId api) in
  let date := today clk in
  match reviewLedger with
  | Resolved reviewLedger =>
      let review :=
        {| PublishedReview.id := id;
           PublishedReview.anonId := anonId;
           PublishedReview.date := date;
           PublishedReview.period := OnChainReview.currentReviewPeriod reviewLedger;
           PublishedReview.ratings := ratings params;
           PublishedReview.content := content params;
           PublishedReview.verified := true |} in
      (Ok (default ("tx_" +:+ Js.toString16 (now clk)) txId),
       {| deployment := deployment api;
          _publishedReviews := review :: _publishedReviews api;
          _nextAnonId := _nextAnonId api + 1;
          _periodTrends := _periodTrends api;
          _localOrg := _localOrg api;
          _localSalary := _localSalary api;
          _localReview := _localReview api |})
  | Rejected error =>
      (Throw error,
       {| deployment := deployment api;
          _publishedReviews := _publishedReviews api;
          _nextAnonId := _nextAnonId api + 1;
          _periodTrends := _periodTrends api;
          _localOrg := _localOrg api;
          _localSalary := _localSalary api;
          _localReview := _localReview api |})
  end.

(** ** Runs of the API *)

(** The state-changing public methods, with their arguments. *)
Inductive Call :=
| AddHrOperator (hrPublicKey : string)
| OnboardEmployee (employeeCommitment : string)
| OffboardEmployee (employeeNullifier : string)
| ProveEmployment
| ProcessSalaryPayment (params : SalaryPaymentParams)
| ConfirmSalaryReceipt
| ProveSalaryRange (lowerBound upperBound : Z)
| AdvancePeriod
| SubmitReview (params : ReviewParams).

Inductive Reply :=
| TxHash (txId : string)
| Proved (accepted : bool)
| Receipt (confirmation : ReceiptConfirmation).

Definition reply {A : Type} (f : A -> Reply) (m : result A * EchoAPI)
    : result Reply * EchoAPI :=
  (f <$> fst m, snd m).

Definition call (c : Call) (clk : Clock) (api : EchoAPI)
    : result Reply * EchoAPI :=
  match c with
  | AddHrOperator k => reply TxHash (addHrOperator k clk api)
  | OnboardEmployee k => reply TxHash (onboardEmployee k clk api)
  | OffboardEmployee n => reply TxHash (offboardEmployee n clk api)
  | ProveEmployment => reply Proved (proveEmployment api)
  | ProcessSalaryPayment p => reply TxHash (processSalaryPayment p clk api)
  | ConfirmSalaryReceipt => reply Receipt (confirmSalaryReceipt clk api)
  | ProveSalaryRange lo hi => reply Proved (proveSalaryRange lo hi api)
  | AdvancePeriod => reply TxHash (advancePeriod clk api)
  | SubmitReview p => reply TxHash (submitReview p clk api)
  end.

(** The instance after one call, and after a sequence of calls. *)
Definition step (c : Call * Clock) (api : EchoAPI) : EchoAPI :=
  snd (call (fst c) (snd c) api).

Definition run (cs : list (Call * Clock)) (api : EchoAPI) : EchoAPI :=
  foldl (fun api c => step c api) api cs.

(** The replies of a sequence of calls, in order. *)
Fixpoint replies (cs : list (Call * Clock)) (api : EchoAPI)
    : list (result Reply) :=
  match cs with
  | [] => []
  | c :: cs' => fst (call (fst c) (snd c) api) :: replies cs' (step c api)
  end.

(** States the local simulation can be in: those a fresh instance reaches. *)
Definition reachable (api : EchoAPI) : Prop :=
  exists cs, api = run cs newEchoAPI.

(** ** What the state queries show *)

(** The counter of band [k] (1..5) in a salary state. *)
Definition bandAt (b : SalaryBands) (k : Z) : Z :=
  if decide (k = 1) then band1 b
  else if decide (k = 2) then band2 b
  else if decide (k = 3) then band3 b
  else if decide (k = 4) then band4 b
  else band5 b.

(** The counter of score [j] (1..5) in a rating distribution. *)
Definition ratingAt (d : RatingDistribution) (j : Z) : Z :=
  if decide (j = 1) then rating1 d
  else if decide (j = 2) then rating2 d
  else if decide (j = 3) then rating3 d
  else if decide (j = 4) then rating4 d
  else rating5 d.

Inductive Category :=
  Culture | Compensation | Management | WorkLifeBalance | CareerGrowth.

(** The score a review gives to a category. *)
Definition scoreOf (c : Category) (r : ReviewRatings) : Z :=
  match c with
  | Culture => culture r
  | Compensation => compensation r
  | Management => management r
  | WorkLifeBalance => workLifeBalance r
  | CareerGrowth => careerGrowth r
  end.

(** The five counters of a category in the review state. *)
Definition distOf (c : Category) (a : RatingAggregates.t) : RatingDistribution :=
  match c with
  | Culture => RatingAggregates.culture a
  | Compensation => RatingAggregates.compensation a
  | Management => RatingAggregates.management a
  | WorkLifeBalance => RatingAggregates.workLifeBalance a
  | CareerGrowth => RatingAggregates.careerGrowth a
  end.

Definition bandSum (b : SalaryBands) : Z :=
  band1 b + band2 b + band3 b + band4 b + band5 b.

Definition ratingSum (d : RatingDistribution) : Z :=
  rating1 d + rating2 d + rating3 d + rating4 d + rating5 d.

(** [1] at the counter that is hit, [0] elsewhere. *)
Definition hit (k target : Z) : Z := if decide (k = target) then 1 else 0.

(** The number of payments of a list that name band [k]. *)
Definition paymentsInBand (k : Z) (ps : list (SalaryPaymentParams * Clock)) : Z :=
  Z.of_nat (List.length (filter (fun p => salaryBand (fst p) = Double.ofZ k) ps)).

(** The distribution read off a counter array after [arr[score - 1]++]. *)
Definition bumped (d : RatingDistribution) (score : Z) : RatingDistribution :=
  {| rating1 := rating1 d + hit 1 score;
     rating2 := rating2 d + hit 2 score;
     rating3 := rating3 d + hit 3 score;
     rating4 := rating4 d + hit 4 score;
     rating5 := rating5 d + hit 5 score |}.

(** The band counters after [bands[k - 1]++]. *)
Definition bumpedBands (b : SalaryBands) (k : Z) : SalaryBands :=
  {| band1 := band1 b + hit 1 k;
     band2 := band2 b + hit 2 k;
     band3 := band3 b + hit 3 k;
     band4 := band4 b + hit 4 k;
     band5 := band5 b + hit 5 k |}.

(** Two salary states that differ at most in [totalPayrollAmount]. *)
Definition sameButPayroll (s1 s2 : SalaryLedgerState.t) : Prop :=
  SalaryLedgerState.orgAdmin s1 = SalaryLedgerState.orgAdmin s2 /\
  SalaryLedgerState.totalPaymentsProcessed s1
    = SalaryLedgerState.totalPaymentsProcessed s2 /\
  SalaryLedgerState.currentPeriod s1 = SalaryLedgerState.currentPeriod s2 /\
  SalaryLedgerState.activeDisputes s1 = SalaryLedgerState.activeDisputes s2 /\
  SalaryLedgerState.salaryBands s1 = SalaryLedgerState.salaryBands s2 /\
  SalaryLedgerState.round s1 = SalaryLedgerState.round s2.

(** No band counter of [s'] is below its value in [s]. *)
Definition bandsLe (s s' : SalaryLedgerState.t) : Prop :=
  forall k, 1 <= k <= 5 ->
    bandAt (SalaryLedgerState.salaryBands s) k
    <= bandAt (SalaryLedgerState.salaryBands s') k.

(** No rating counter of [r'] is below its value in [r]. *)
Definition ratingsLe (r r' : ReviewLedgerState.t) : Prop :=
  forall c j, 1 <= j <= 5 ->
    ratingAt (distOf c (ReviewLedgerState.ratingAggregates r)) j
    <= ratingAt (distOf c (ReviewLedgerState.ratingAggregates r')) j.

(** The band (1..5, when the key is one of the five indices) whose counter
    a payment moves: [bandIdx + 1] if [bandIdx] is an integer, none if it is
    not. *)
Definition bandCounted (salaryBand : Double.t) : option Z :=
  Z.succ <$> Double.toZ (bandIdx salaryBand).

(** The band counters after a payment with that band. *)
Definition bandsAfter (b : SalaryBands) (salaryBand : Double.t) : SalaryBands :=
  match bandCounted salaryBand with
  | Some k => bumpedBands b k
  | None => b
  end.

(** What [getSalaryState] shows after a call, from what it showed before;
    for a payment, when the total takes the amount exactly. *)
Definition salaryAfter (c : Call) (s : SalaryLedgerState.t) : SalaryLedgerState.t :=
  match c with
  | ProcessSalaryPayment p =>
      {| SalaryLedgerState.orgAdmin := SalaryLedgerState.orgAdmin s;
         SalaryLedgerState.totalPaymentsProcessed :=
           SalaryLedgerState.totalPaymentsProcessed s + 1;
         SalaryLedgerState.totalPayrollAmount :=
           SalaryLedgerState.totalPayrollAmount s + amount p;
         SalaryLedgerState.currentPeriod := SalaryLedgerState.currentPeriod s;
         SalaryLedgerState.activeDisputes := SalaryLedgerState.activeDisputes s;
         SalaryLedgerState.salaryBands :=
           bandsAfter (SalaryLedgerState.salaryBands s) (salaryBand p);
         SalaryLedgerState.round := SalaryLedgerState.round s + 1 |}
  | AdvancePeriod =>
      {| SalaryLedgerState.orgAdmin := SalaryLedgerState.orgAdmin s;
         SalaryLedgerState.totalPaymentsProcessed :=
           SalaryLedgerState.totalPaymentsProcessed s;
         SalaryLedgerState.totalPayrollAmount :=
           SalaryLedgerState.totalPayrollAmount s;
         SalaryLedgerState.currentPeriod := SalaryLedgerState.currentPeriod s + 1;
         SalaryLedgerState.activeDisputes := SalaryLedgerState.activeDisputes s;
         SalaryLedgerState.salaryBands := SalaryLedgerState.salaryBands s;
         SalaryLedgerState.round := SalaryLedgerState.round s + 1 |}
  | _ => s
  end.

(** What [getReviewState] shows after a call, from what it showed before. *)
Definition reviewAfter (c : Call) (r : ReviewLedgerState.t) : ReviewLedgerState.t :=
  match c with
  | SubmitReview p =>
      let a := ReviewLedgerState.ratingAggregates r in
      {| ReviewLedgerState.orgAdmin := ReviewLedgerState.orgAdmin r;
         ReviewLedgerState.totalReviews := ReviewLedgerState.totalReviews r + 1;
         ReviewLedgerState.currentReviewPeriod :=
           ReviewLedgerState.currentReviewPeriod r;
         ReviewLedgerState.round := ReviewLedgerState.round r + 1;
         ReviewLedgerState.ratingAggregates :=
           {| RatingAggregates.culture :=
                bumped (RatingAggregates.culture a) (culture (ratings p));
              RatingAggregates.compensation :=
                bumped (RatingAggregates.compensation a) (compensation (ratings p));
              RatingAggregates.management :=
                bumped (RatingAggregates.management a) (management (ratings p));
              RatingAggregates.workLifeBalance :=
                bumped (RatingAggregates.workLifeBalance a)
                       (workLifeBalance (ratings p));
              RatingAggregates.careerGrowth :=
                bumped (RatingAggregates.careerGrowth a)
                       (careerGrowth (ratings p)) |} |}
  | _ => r
  end.

(** The band a payment is counted in, in the words of the specification:
    the supplied band, with anything below 1 taken as 1 and anything above 5
    as 5. *)
Definition clampBand (salaryBand : Z) : Z :=
  if decide (salaryBand < 1) then 1
  else if decide (5 < salaryBand) then 5
  else salaryBand.

(** A sequence of [processSalaryPayment] calls, each with the clock reading
    it is made at. *)
Definition paymentCalls (ps : list (SalaryPaymentParams * Clock))
    : list (Call * Clock) :=
  map (fun p => (ProcessSalaryPayment (fst p), snd p)) ps.

(** A call that resolved to a transaction id. *)
Definition successful (r : result Reply) : Prop := exists tx, r = Ok (TxHash tx).

(** The counter array of a category. *)
Definition countersOf (c : Category) (rc : RatingCounters.t) : Js.Array :=
  match c with
  | Culture => RatingCounters.culture rc
  | Compensation => RatingCounters.compensation rc
  | Management => RatingCounters.management rc
  | WorkLifeBalance => RatingCounters.workLifeBalance rc
  | CareerGrowth => RatingCounters.careerGrowth rc
  end.

(** What holds of the review state of every instance the local simulation
    can reach: the state query answers, no category has more scores counted
    than there are reviews, and whatever a counter array holds outside its
    five elements is [NaN]. *)
Definition reviewInvariant (api : EchoAPI) : Prop :=
  exists r,
    fst (getReviewState api) = Ok r /\
    (forall c, ratingSum (distOf c (ReviewLedgerState.ratingAggregates r))
               <= ReviewLedgerState.totalReviews r) /\
    (forall c i, ~ 0 <= i <= 4 ->
       let arr := countersOf c (LocalReviewState.ratingCounters (_localReview api)) in
       Js.get arr i = None \/ Js.get arr i = Some Js.NaN).

(** ** Sample inputs *)

Definition clock0 : Clock := {| now := 1700000000000%N; today := "2026-01-01" |}.
Definition clock1 : Clock := {| now := 1700000060000%N; today := "2026-01-01" |}.

(** A payment of 1,200,000 in band 3, and the same payment with another
    amount. *)
Definition payment0 : SalaryPaymentParams :=
  {| employeePublicKey := "h1"; amount := 1200000; period := 1;
     salaryBand := Double.ofZ 3 |}.
Definition payment1 : SalaryPaymentParams :=
  {| employeePublicKey := "h1"; amount := 1300000; period := 1;
     salaryBand := Double.ofZ 3 |}.

(** Payments whose band lies outside 1..5, and a run that pays in bands
    0, 7 and 3. *)
Definition paymentBand0 : SalaryPaymentParams :=
  {| employeePublicKey := "h1"; amount := 400000; period := 1;
     salaryBand := Double.ofZ 0 |}.
Definition paymentBand7 : SalaryPaymentParams :=
  {| employeePublicKey := "h2"; amount := 6000000; period := 1;
     salaryBand := Double.ofZ 7 |}.
Definition clampedRun : list (Call * Clock) :=
  [(ProcessSalaryPayment paymentBand0, clock0);
   (ProcessSalaryPayment paymentBand7, clock0);
   (AdvancePeriod, clock1);
   (ProcessSalaryPayment payment0, clock1)].

(** The review [[5,4,3,4,5]]. *)
Definition review0 : ReviewParams :=
  {| ratings := {| culture := 5; compensation := 4; management := 3;
                   workLifeBalance := 4; careerGrowth := 5 |};
     content := "good";
     contentHash := "0x00" |}.

(** A review whose culture score is 6 and whose compensation score is 0. *)
Definition review6 : ReviewParams :=
  {| ratings := {| culture := 6; compensation := 0; management := 3;
                   workLifeBalance := 4; careerGrowth := 5 |};
     content := "odd";
     contentHash := "0x01" |}.

(** ** Further operations of [EchoAPI] *)

(** [getPublishedReviews]: a copy of the list, in either mode. *)
Definition getPublishedReviews : Method (list PublishedReview.t) :=
  fun api => (Ok (_publishedReviews api), api).


Module AverageRatings.
Record t := mk {
  culture : Double.t;
  compensation : Double.t;
  management : Double.t;
  workLifeBalance : Double.t;
  careerGrowth : Double.t;
  overall : Double.t;
}.
End AverageRatings.

Module ReviewTrendEntry.
Record t := mk {
  period : Z;
  count : Z;
  averageRating : Double.t;
}.
End ReviewTrendEntry.

Module OrgAnalytics.
Record t := mk {
  totalEmployees : Z;
  totalPaymentsProcessed : Z;
  totalReviews : Z;
  averageRatings : AverageRatings.t;
  salaryDistribution : SalaryBands;
  reviewTrend : list ReviewTrendEntry.t;
}.
End OrgAnalytics.

(** [computeAvg] inside [computeAverageRatings] *)
Definition computeAvg (dist : RatingDistribution) : Double.t :=
  let total := rating1 dist + rating2 dist + rating3 dist + rating4 dist
               + rating5 dist in
  if bool_decide (total = 0) then Double.ofZ 0
  else
    let weighted := rating1 dist * 1 + rating2 dist * 2 + rating3 dist * 3
                    + rating4 dist * 4 + rating5 dist * 5 in
    Double.div (Double.ofZ weighted) (Double.ofZ total).

Definition computeAverageRatings (state : ReviewLedgerState.t) : AverageRatings.t :=
  let agg := ReviewLedgerState.ratingAggregates state in
  let culture := computeAvg (RatingAggregates.culture agg) in
  let compensation := computeAvg (RatingAggregates.compensation agg) in
  let management := computeAvg (RatingAggregates.management agg) in
  let workLifeBalance := computeAvg (RatingAggregates.workLifeBalance agg) in
  let careerGrowth := computeAvg (RatingAggregates.careerGrowth agg) in
  {| AverageRatings.culture := culture;
     AverageRatings.compensation := compensation;
     AverageRatings.management := management;
     AverageRatings.workLifeBalance := workLifeBalance;
     AverageRatings.careerGrowth := careerGrowth;
     AverageRatings.overall :=
       Double.div
         (Double.add
            (Double.add
               (Double.add (Double.add culture compensation) management)
               workLifeBalance)
            careerGrowth)
         (Double.ofZ 5) |}.

(** [getAnalytics]: the three state queries, one after the other. *)
Definition getAnalytics : Method OrgAnalytics.t :=
  fun api =>
  (orgState ← fst (getOrganizationState api);
   salaryState ← fst (getSalaryState api);
   reviewState ← fst (getReviewState api);
   Ok {| OrgAnalytics.totalEmployees := OrganizationLedgerState.employeeCount orgState;
         OrgAnalytics.totalPaymentsProcessed :=
           SalaryLedgerState.totalPaymentsProcessed salaryState;
         OrgAnalytics.totalReviews := ReviewLedgerState.totalReviews reviewState;
         OrgAnalytics.averageRatings := computeAverageRatings reviewState;
         OrgAnalytics.salaryDistribution := SalaryLedgerState.salaryBands salaryState;
         OrgAnalytics.reviewTrend := [] |},
   api).

(** ** Counting the calls of a run *)

(** The ledger a call writes: none for the proofs and the confirmation. *)
Inductive Ledger := OrgLedger | SalaryLedger | ReviewLedger.

Definition ledgerOf (c : Call) : option Ledger :=
  match c with
  | AddHrOperator _ | OnboardEmployee _ | OffboardEmployee _ => Some OrgLedger
  | ProcessSalaryPayment _ | AdvancePeriod => Some SalaryLedger
  | SubmitReview _ => Some ReviewLedger
  | ProveEmployment | ConfirmSalaryReceipt | ProveSalaryRange _ _ => None
  end.

(** The payments of a run, in order. *)
Definition paymentsOf (cs : list (Call * Clock)) : list SalaryPaymentParams :=
  omap (fun c => match fst c with
                 | ProcessSalaryPayment p => Some p
                 | _ => None
                 end) cs.

(** The number of [advancePeriod] calls of a run. *)
Definition advancesIn (cs : list (Call * Clock)) : Z :=
  Z.of_nat (List.length (omap (fun c => match fst c with
                                        | AdvancePeriod => Some tt
                                        | _ => None
                                        end) cs)).

(** The reviews of a run, in order, each with the clock reading of its call. *)
Definition reviewsOf (cs : list (Call * Clock)) : list (ReviewParams * Clock) :=
  omap (fun c => match fst c with
                 | SubmitReview p => Some (p, snd c)
                 | _ => None
                 end) cs.

(** The sum of the amounts of a list of payments. *)
Definition totalAmount (ps : list SalaryPaymentParams) : Z :=
  foldr (fun p acc => amount p + acc) 0 ps.

(** The double an instance holds as [totalPayrollAmount]. *)
Definition payrollOf (api : EchoAPI) : Double.t :=
  LocalSalaryState.totalPayrollAmount (_localSalary api).

(** Amounts, none of them negative, that a total of [start] takes without
    leaving the safe integers. *)
Definition safeAmounts (start : Z) (ps : list SalaryPaymentParams) : Prop :=
  0 <= start /\ Forall (fun p => 0 <= amount p) ps /\
  start + totalAmount ps < 2 ^ 53.

(** A payment whose band is an integer, and a run all of whose payments
    are such. *)
Definition integerBand (p : SalaryPaymentParams) : Prop :=
  exists b, Double.safe (b - 1) /\ Double.safe b /\ salaryBand p = Double.ofZ b.

Definition integerBands (cs : list (Call * Clock)) : Prop :=
  Forall integerBand (paymentsOf cs).

(** The number of payments of a list that are counted in band [k]. *)
Definition countedIn (k : Z) (ps : list SalaryPaymentParams) : Z :=
  Z.of_nat (List.length
              (filter (fun p => bandCounted (salaryBand p) = Some k) ps)).

(** The band 2.5, and a payment in it. *)
Definition band2_5 : Double.t := Double.div (Double.ofZ 5) (Double.ofZ 2).


(** The record [submitReview] stores for the [k]-th review of an instance. *)
Definition publishedAs (k : Z) (period : Z) (p : ReviewParams * Clock)
    : PublishedReview.t :=
  {| PublishedReview.id := "rev_" +:+ Js.toString16 (now (snd p));
     PublishedReview.anonId := "Anonymous Employee #" +:+ pretty k;
     PublishedReview.date := today (snd p);
     PublishedReview.period := period;
     PublishedReview.ratings := ratings (fst p);
     PublishedReview.content := content (fst p);
     PublishedReview.verified := true |}.

(** The reviews numbered from [k] on, the last one first. *)
Fixpoint publishedFrom (k : Z) (period : Z) (ps : list (ReviewParams * Clock))
    : list PublishedReview.t :=
  match ps with
  | [] => []
  | p :: ps' => publishedFrom (k + 1) period ps' ++ [publishedAs k period p]
  end.

(** The commitments a run onboards and the keys it registers, in order. *)
Definition onboardedIn (cs : list (Call * Clock)) : list string :=
  omap (fun c => match fst c with
                 | OnboardEmployee k => Some k
                 | _ => None
                 end) cs.

Definition hrOperatorsIn (cs : list (Call * Clock)) : list string :=
  omap (fun c => match fst c with
                 | AddHrOperator k => Some k
                 | _ => None
                 end) cs.

(** Two calls neither of which writes what the other reads or writes:
    calls on different ledgers, except that [advancePeriod] also reads the
    review ledger for its snapshot; a call that writes nothing goes with any
    other. *)
Definition independent (c1 c2 : Call) : bool :=
  match ledgerOf c1, ledgerOf c2 with
  | None, _ | _, None => true
  | Some OrgLedger, Some OrgLedger => false
  | Some OrgLedger, Some _ | Some _, Some OrgLedger => true
  | Some SalaryLedger, Some ReviewLedger =>
      match c1 with AdvancePeriod => false | _ => true end
  | Some ReviewLedger, Some SalaryLedger =>
      match c2 with AdvancePeriod => false | _ => true end
  | Some SalaryLedger, Some SalaryLedger => false
  | Some ReviewLedger, Some ReviewLedger => false
  end.

(** An instance connected to a deployment, with the local state of a fresh
    one. *)
Definition deployment0 : EchoDeployment :=
  {| organizationContractAddress := "a6bbbe6b";
     salaryContractAddress := "d9f77776";
     reviewContractAddress := "c4443230";
     deployedAt := "2026-01-01T00:00:00.000Z";
     network := testnet;
     orgName := "Echo" |}.

Definition connectedEchoAPI : EchoAPI :=
  {| deployment := Some deployment0;
     _publishedReviews := [];
     _nextAnonId := 1;
     _periodTrends := [];
     _localOrg := makeDefaultLocalOrg;
     _localSalary := makeDefaultLocalSalary;
     _localReview := makeDefaultLocalReview |}.

(** A run that touches all three ledgers. *)
Definition sampleRun : list (Call * Clock) :=
  [(AddHrOperator "k1", clock0); (OnboardEmployee "h1", clock0);
   (OnboardEmployee "h2", clock0); (OffboardEmployee "n1", clock0);
   (ProcessSalaryPayment payment0, clock0); (ConfirmSalaryReceipt, clock0);
   (SubmitReview review0, clock0); (AdvancePeriod, clock1);
   (ProcessSalaryPayment payment1, clock1); (SubmitReview review6, clock1);
   (AdvancePeriod, clock1)].




(** ** Hex text ([bytesToHex], [hexToBytes])

    Strings are read as ASCII text, one character per code unit. *)
Module JsString.

(** [s.startsWith(prefix)] *)
Definition startsWith (prefix s : string) : bool := String.prefix prefix s.

(** [s.slice(start)] *)
Definition slice (start : nat) (s : string) : string :=
  String.substring start (String.length s - start) s.

(** [s.substr(start, len)] *)
Definition substr (start len : nat) (s : string) : string :=
  String.substring start len s.

(** [s.padStart(n, c)] for a one-character filler. *)
Fixpoint padStart (n : nat) (c : Ascii.ascii) (s : string) : string :=
  match n with
  | O => s
  | S n' => if (n' <? String.length s)%nat then s
            else String c (padStart n' c s)
  end.

(** The ASCII white space [parseInt] skips: TAB, LF, VT, FF, CR, space. *)
Definition isWhiteSpace (c : Ascii.ascii) : bool :=
  let n := Ascii.N_of_ascii c in
  ((9 <=? n) && (n <=? 13) || (n =? 32))%N.

Fixpoint trimStart (s : string) : string :=
  match s with
  | String c s' => if isWhiteSpace c then trimStart s' else s
  | EmptyString => s
  end.

(** The value of a digit in base 16, in either case. *)
Definition hexValue (c : Ascii.ascii) : option Z :=
  let n := Z.of_N (Ascii.N_of_ascii c) in
  if (48 <=? n) && (n <=? 57) then Some (n - 48)
  else if (97 <=? n) && (n <=? 102) then Some (n - 87)
  else if (65 <=? n) && (n <=? 70) then Some (n - 55)
  else None.

(** The value of the longest prefix of base-16 digits, after the digits
    read so far ([acc]); [None] when there is no digit at all. *)
Fixpoint hexDigits (s : string) (acc : option Z) : option Z :=
  match s with
  | String c s' =>
      match hexValue c with
      | Some d => hexDigits s' (Some (16 * default 0 acc + d))
      | None => acc
      end
  | EmptyString => acc
  end.

(** [parseInt(s, 16)]: white space, a sign, an optional [0x], then digits;
    [NaN] when no digit follows. *)
Definition parseInt16 (s : string) : Js.number :=
  let s1 := trimStart s in
  let '(sign, s2) :=
    match s1 with
    | String "-" r => (-1, r)
    | String "+" r => (1, r)
    | _ => (1, s1)
    end in
  let s3 :=
    match s2 with
    | String "0" (String "x" r) => r
    | String "0" (String "X" r) => r
    | _ => s2
    end in
  match hexDigits s3 None with
  | Some n => Js.Num (sign * n)
  | None => Js.NaN
  end.

(** The byte a [Uint8Array] keeps of a number stored into it. *)
Definition toUint8 (v : Js.number) : Byte.byte :=
  match v with
  | Js.Num z => default Byte.x00 (Byte.of_N (Z.to_N (z mod 256)))
  | Js.NaN => Byte.x00
  end.

End JsString.

Definition bytesToHex (bytes : list Byte.byte) : string :=
  String.concat ""
    (map (fun b => JsString.padStart 2 "0" (Js.toString16 (Byte.to_N b))) bytes).

Definition hexToBytes (hex : string) : list Byte.byte :=
  let cleanHex :=
    if JsString.startsWith "0x" hex then JsString.slice 2 hex else hex in
  map (fun i => JsString.toUint8
                  (JsString.parseInt16 (JsString.substr (i * 2) 2 cleanHex)))
      (seq 0 (String.length cleanHex / 2)).

(** Text made of the digits [0-9a-f] only. *)
Definition isLowerHexDigit (c : Ascii.ascii) : bool :=
  let n := Ascii.N_of_ascii c in
  ((48 <=? n) && (n <=? 57) || (97 <=? n) && (n <=? 102))%N.

Fixpoint isLowerHex (s : string) : bool :=
  match s with
  | String c s' => isLowerHexDigit c && isLowerHex s'
  | EmptyString => true
  end.

(** The bytes of a text taken two characters at a time, a trailing single
    character left out: what the loop of [hexToBytes] computes. *)
Fixpoint decodePairs (s : string) : list Byte.byte :=
  match s with
  | String a (String b r) =>
      JsString.toUint8 (JsString.parseInt16 (String a (String b EmptyString)))
      :: decodePairs r
  | _ => []
  end.

(** A character no number starts with: no base-16 digit, no white space,
    no sign. *)
Definition startsNoNumber (c : Ascii.ascii) : bool :=
  match JsString.hexValue c with
  | Some _ => false
  | None =>
      negb (JsString.isWhiteSpace c) && negb (Ascii.eqb c "+")
      && negb (Ascii.eqb c "-")
  end.

(** Text each of whose pairs starts with such a character. *)
Fixpoint noNumberInPairs (s : string) : bool :=
  match s with
  | String a (String b r) => startsNoNumber a && noNumberInPairs r
  | _ => true
  end.

(** ** The salary page ([SalaryPage], caller of [processSalaryPayment]) *)



(** ** The analytics page ([medianBand]) *)

Definition bandLabels : list string :=
  ["0 - 5 LPA"; "5 - 15 LPA"; "15 - 30 LPA"; "30 - 50 LPA"; "50+ LPA"].

(** [counts.reduce((a, b) => a + b, 0)] *)
Definition sumOf (counts : list Z) : Z := foldl Z.add 0 counts.

(** [Math.ceil(total / 2)] for an integer [total]. *)
Definition ceilHalf (total : Z) : Z := - ((- total) / 2).

(** The loop of [medianBand] from index [i] on, [cum] being the sum of the
    counts before it; [None] is [undefined], the value of [bandLabels[i]]
    for an index past the five labels. *)
Fixpoint medianBandFrom (half cum : Z) (i : nat) (counts : list Z)
    : option string :=
  match counts with
  | [] => Some "--"
  | c :: rest =>
      let cum := cum + c in
      if bool_decide (half <= cum) then bandLabels !! i
      else medianBandFrom half cum (S i) rest
  end.

Definition medianBand (counts : list Z) : option string :=
  let total := sumOf counts in
  if bool_decide (total = 0) then Some "--"
  else medianBandFrom (ceilHalf total) 0 0 counts.

(** The array the page builds from the salary state. *)
Definition bandCounts (s : SalaryLedgerState.t) : list Z :=
  let b := SalaryLedgerState.salaryBands s in
  [band1 b; band2 b; band3 b; band4 b; band5 b].

(** ** Sign-in ([authenticate]) *)

Inductive Role := ADMIN | HR | EMPLOYEE | AUDITOR.

Module AuthUser.
Record t := mk {
  username : string;
  role : Role;
  displayName : string;
}.
End AuthUser.

Module Credential.
Record t := mk {
  password : string;
  role : Role;
  displayName : string;
}.
End Credential.

Definition CREDENTIALS : gmap string Credential.t :=
  <["admin" := Credential.mk "admin123" ADMIN "Admin"]>
  (<["hr" := Credential.mk "hr123" HR "HR Operator"]>
  (<["employee" := Credential.mk "employee123" EMPLOYEE "Employee"]>
  (<["auditor" := Credential.mk "auditor123" AUDITOR "Auditor"]> ∅))).

(** [username.toLowerCase()] on ASCII text. *)
Definition toLowerCaseChar (c : Ascii.ascii) : Ascii.ascii :=
  let n := Ascii.N_of_ascii c in
  if ((65 <=? n) && (n <=? 90))%N then Ascii.ascii_of_N (n + 32) else c.

Fixpoint toLowerCase (s : string) : string :=
  match s with
  | String c r => String (toLowerCaseChar c) (toLowerCase r)
  | EmptyString => EmptyString
  end.

(** [authenticate]: [None] is [null].  A name that is no key of the table
    yields no credential, or one of [Object.prototype]'s members, which has
    no [password]: [null] either way. *)
Definition authenticate (username password : string) : option AuthUser.t :=
  match CREDENTIALS !! toLowerCase username with
  | Some cred =>
      if bool_decide (Credential.password cred = password)
      then Some {| AuthUser.username := toLowerCase username;
                   AuthUser.role := Credential.role cred;
                   AuthUser.displayName := Credential.displayName cred |}
      else None
  | None => None
  end.

(** * Properties *)

(** ** The model on sample inputs *)

Example toString16_samples :
  Js.toString16 0 = "0" /\ Js.toString16 255 = "ff" /\ Js.toString16 4096 = "1000".
Proof. repeat split. Qed.

(** Doubles: [Number(2n ** 53n + 1n)] is [2^53], [Number(10n ** 400n)] is
    [Infinity]; [0.1 + 0.2] is not [0.3]; [Math.round] takes a half
    upwards. *)
Example double_samples :
  Double.ofZ (2 ^ 53 + 1) = Double.ofZ (2 ^ 53) /\
  Double.ofZ (10 ^ 400) = SpecFloat.S754_infinity false /\
  Double.add (Double.ofDecimal 1 (-1)) (Double.ofDecimal 2 (-1))
    <> Double.ofDecimal 3 (-1) /\
  Double.round (Double.ofDecimal 25 (-1)) = Double.ofZ 3 /\
  Double.round (Double.ofDecimal 24 (-1)) = Double.ofZ 2 /\
  Double.round (SpecFloat.SFopp (Double.ofDecimal 25 (-1))) = Double.ofZ (-2) /\
  Double.toZ (Double.ofDecimal 25 (-1)) = None /\
  Double.toZ (Double.ofZ (-7)) = Some (-7).
Proof. repeat split; vm_compute; congruence. Qed.

Example toString_samples :
  Double.toString band2_5 = "2.5" /\
  Double.toString (Double.ofDecimal 1 (-1)) = "0.1" /\
  Double.toString (Double.div (Double.ofZ 1) (Double.ofZ 3)) = "0.3333333333333333" /\
  Double.toString (Double.add (Double.ofDecimal 1 (-1)) (Double.ofDecimal 2 (-1)))
    = "0.30000000000000004" /\
  Double.toString (Double.ofZ (-1200000)) = "-1200000" /\
  Double.toString (Double.ofZ (10 ^ 21)) = "1e+21" /\
  Double.toString (Double.ofDecimal 1 (-7)) = "1e-7" /\
  Double.toString (Double.ofZ (10 ^ 400)) = "Infinity".
Proof. repeat split; vm_compute; reflexivity. Qed.

(** The clamp of the band: integers below 1 go to index 0, above 5 to
    index 4; 2.5 goes to 1.5, [NaN] to [NaN], which are no index. *)
Example bandIdx_samples :
  Double.toZ <$> (bandIdx <$> (Double.ofZ <$> [-3; 0; 1; 3; 5; 6; 100]))
    = [Some 0; Some 0; Some 0; Some 2; Some 4; Some 4; Some 4] /\
  bandIdx band2_5 = Double.div (Double.ofZ 3) (Double.ofZ 2) /\
  bandIdx SpecFloat.S754_nan = SpecFloat.S754_nan /\
  bandCounted (Double.ofDecimal 1 (-20)) = Some 1 /\
  bandCounted (Double.ofDecimal 55 (-1)) = Some 5 /\
  bandCounted band2_5 = None /\
  bandCounted SpecFloat.S754_nan = None /\
  bandCounted (SpecFloat.S754_infinity true) = Some 1.
Proof. repeat split. Qed.

(** Writes outside an array of five: index 5 extends it, index -1 does not;
    both leave [NaN] behind and the five elements alone.  So does a write
    at 1.5, which adds a property of that name. *)
Example postIncrement_outside :
  Js.length (Js.postIncrement zeros5 5) = 6 /\
  Js.get (Js.postIncrement zeros5 5) 5 = Some Js.NaN /\
  Js.length (Js.postIncrement zeros5 (-1)) = 5 /\
  Js.get (Js.postIncrement zeros5 (-1)) (-1) = Some Js.NaN /\
  toRatingDist (Js.postIncrement zeros5 5) = toRatingDist zeros5 /\
  toRatingDist (Js.postIncrement zeros5 (-1)) = toRatingDist zeros5 /\
  Js.postIncrementAt zeros5 (bandIdx band2_5)
    = {| Js.items := Js.items zeros5; Js.length := 5;
         Js.named := [(Double.div (Double.ofZ 3) (Double.ofZ 2), Js.NaN)] |} /\
  Js.postIncrementAt (Js.postIncrementAt zeros5 (bandIdx band2_5)) (bandIdx band2_5)
    = Js.postIncrementAt zeros5 (bandIdx band2_5).
Proof. repeat split. Qed.

(** The end-to-end scenario of the specification, on a fresh instance:
    onboard [h1], pay in band 3, confirm the receipt, submit the review
    [[5,4,3,4,5]]. *)
Example scenario :
  let api :=
    run [(OnboardEmployee "h1", clock0);
         (ProcessSalaryPayment payment0, clock0);
         (ConfirmSalaryReceipt, clock0);
         (SubmitReview review0, clock0)] newEchoAPI in
  (SalaryLedgerState.salaryBands <$> fst (getSalaryState api))
    = Ok {| band1 := 0; band2 := 0; band3 := 1; band4 := 0; band5 := 0 |} /\
  (SalaryLedgerState.totalPaymentsProcessed <$> fst (getSalaryState api)) = Ok 1 /\
  (ReviewLedgerState.totalReviews <$> fst (getReviewState api)) = Ok 1 /\
  (ReviewLedgerState.ratingAggregates <$> fst (getReviewState api))
    = Ok {| RatingAggregates.culture :=
              {| rating1 := 0; rating2 := 0; rating3 := 0; rating4 := 0; rating5 := 1 |};
            RatingAggregates.compensation :=
              {| rating1 := 0; rating2 := 0; rating3 := 0; rating4 := 1; rating5 := 0 |};
            RatingAggregates.management :=
              {| rating1 := 0; rating2 := 0; rating3 := 1; rating4 := 0; rating5 := 0 |};
            RatingAggregates.workLifeBalance :=
              {| rating1 := 0; rating2 := 0; rating3 := 0; rating4 := 1; rating5 := 0 |};
            RatingAggregates.careerGrowth :=
              {| rating1 := 0; rating2 := 0; rating3 := 0; rating4 := 0; rating5 := 1 |} |} /\
  PeriodTrend.avgRating <$> _periodTrends (snd (advancePeriod clock1 api))
    = [Double.ofDecimal 42 (-1)].
Proof. repeat split. Qed.

(** Payments the total does not take exactly.  After a payment of
    [2^53 + 1] the state query shows [2^53]; after one of [10^400] the total
    is [Infinity] and the query throws; after that and one of [-10^400] the
    total is [NaN]. *)
Example payroll_samples :
  let pay (a : Z) :=
    (ProcessSalaryPayment
       {| employeePublicKey := "h1"; amount := a; period := 1;
          salaryBand := Double.ofZ 3 |}, clock0) in
  SalaryLedgerState.totalPayrollAmount
    <$> fst (getSalaryState (run [pay (2 ^ 53 + 1)] newEchoAPI)) = Ok (2 ^ 53) /\
  fst (getSalaryState (run [pay (10 ^ 400)] newEchoAPI))
    = Throw "RangeError: The number Infinity cannot be converted to a BigInt because it is not an integer" /\
  fst (getSalaryState (run [pay (10 ^ 400); pay (- 10 ^ 400)] newEchoAPI))
    = Throw "RangeError: The number NaN cannot be converted to a BigInt because it is not an integer" /\
  fst (getAnalytics (run [pay (10 ^ 400)] newEchoAPI))
    = Throw "RangeError: The number Infinity cannot be converted to a BigInt because it is not an integer".
Proof. repeat split. Qed.

(** The average of a trend is rounded as a double: after seven reviews
    [[2,2,3,3,3]] and five reviews [[3,5,4,1,3]] the five category averages
    add up to 14.25 in exact arithmetic, the overall average would be 2.85
    and its rounding 2.9; the doubles give 2.8499999999999996 and 2.8. *)
Example avgRating_sample :
  let review (a b c d e : Z) :=
    (SubmitReview {| ratings := {| culture := a; compensation := b;
                                   management := c; workLifeBalance := d;
                                   careerGrowth := e |};
                     content := "-"; contentHash := "0x00" |}, clock0) in
  let api := run (replicate 7 (review 2 2 3 3 3) ++ replicate 5 (review 3 5 4 1 3))
                 newEchoAPI in
  Double.toString (computeLocalAvgRating api) = "2.8499999999999996" /\
  PeriodTrend.avgRating <$> _periodTrends (snd (advancePeriod clock1 api))
    = [Double.ofDecimal 28 (-1)].
Proof. split; vm_compute; reflexivity. Qed.


(** The writes of the deployed calls.  On an instance connected to a
    deployment, with a review ledger that holds the review [[5,4,3,4,5]] in
    period 4: the published review takes label 1 and period 4, and the call
    resolves to the transaction id (or to a substitute made of the time); a
    rejected ledger read costs the label and publishes nothing; the trend
    recorded before a period advance is the one of the ledgers read. *)
Example deployed_writes_sample :
  let one (k : Z) :=
    {| rating1 := hit 1 k; rating2 := hit 2 k; rating3 := hit 3 k;
       rating4 := hit 4 k; rating5 := hit 5 k |} in
  let reviewLedger :=
    {| OnChainReview.totalReviews := 1;
       OnChainReview.currentReviewPeriod := 4;
       OnChainReview.ratingCounters :=
         {| RatingAggregates.culture := one 5;
            RatingAggregates.compensation := one 4;
            RatingAggregates.management := one 3;
            RatingAggregates.workLifeBalance := one 4;
            RatingAggregates.careerGrowth := one 5 |} |} in
  let salaryLedger :=
    {| OnChainSalary.currentPeriod := 7;
       OnChainSalary.totalPaymentsProcessed := 3 |} in
  let published :=
    submitReviewPublish review0 clock0 (Some "tx1") (Resolved reviewLedger)
      connectedEchoAPI in
  let failed :=
    submitReviewPublish review0 clock0 (Some "tx1") (Rejected "no state")
      connectedEchoAPI in
  fst published = Ok "tx1" /\
  (PublishedReview.anonId <$> _publishedReviews (snd published))
    = ["Anonymous Employee #1"] /\
  (PublishedReview.period <$> _publishedReviews (snd published)) = [4] /\
  _nextAnonId (snd published) = 2 /\
  fst (submitReviewPublish review0 clock0 None (Resolved reviewLedger)
         connectedEchoAPI) = Ok "tx_18bcfe56800" /\
  fst failed = Throw "no state" /\
  _publishedReviews (snd failed) = [] /\
  _nextAnonId (snd failed) = 2 /\
  _periodTrends (advancePeriodSnapshot (Resolved salaryLedger)
                   (Resolved reviewLedger) connectedEchoAPI)
    = [{| PeriodTrend.period := 7; PeriodTrend.payments := 3;
          PeriodTrend.reviews := 1;
          PeriodTrend.avgRating := Double.ofDecimal 42 (-1) |}] /\
  advancePeriodSnapshot (Rejected "no state") (Resolved reviewLedger)
    connectedEchoAPI = connectedEchoAPI.
Proof. repeat split; vm_compute; reflexivity. Qed.
(** ** Doubles

    What the proofs use of the arithmetic: it is exact on the safe
    integers. *)
Module DoubleFacts.
Import SpecFloat.
Import Double.

Lemma iter_pos_iter {A : Type} (f : A -> A) (p : positive) (x : A) :
  iter_pos f p x = Pos.iter f x p.
Proof.
  revert x. induction p as [p IH|p IH|]; intros x; simpl.
  - rewrite !IH. by rewrite !Pos.iter_swap.
  - by rewrite !IH.
  - reflexivity.
Qed.

Lemma Zpos_shl (c : positive) (n : Z) :
  0 <= n -> Zpos (shl c n) = Zpos c * 2 ^ n.
Proof.
  intros Hn. destruct n as [|p|p]; [simpl; lia| |lia].
  clear Hn. unfold shl. induction p using Pos.peano_ind.
  - simpl. lia.
  - rewrite Pos.iter_succ, Pos2Z.inj_xO, IHp.
    rewrite Pos2Z.inj_succ, Z.pow_succ_r by lia. lia.
Qed.

Lemma D_pos (c : positive) : 0 < D c.
Proof. unfold D. lia. Qed.

Lemma D_shl (c : positive) (n : Z) : 0 <= n -> D (shl c n) = D c + n.
Proof.
  intros Hn. destruct n as [|p|p]; [simpl; lia| |lia].
  clear Hn. unfold shl, D. induction p using Pos.peano_ind.
  - simpl. lia.
  - rewrite Pos.iter_succ. cbn [digits2_pos].
    rewrite Pos2Z.inj_succ, IHp. lia.
Qed.

Lemma shl_shl (c : positive) (a b : Z) :
  0 <= a -> 0 <= b -> shl (shl c a) b = shl c (a + b).
Proof.
  intros Ha Hb. apply Pos2Z.inj. rewrite !Zpos_shl by lia.
  rewrite Z.pow_add_r by lia. lia.
Qed.

Lemma D_bounds (c : positive) : 2 ^ (D c - 1) <= Zpos c < 2 ^ D c.
Proof.
  unfold D. induction c as [c IH|c IH|]; cbn [digits2_pos].
  - rewrite Pos2Z.inj_succ, (Pos2Z.inj_xI c).
    replace (Z.succ (Z.pos (digits2_pos c)) - 1) with (Z.succ (Z.pos (digits2_pos c) - 1)) by lia.
    rewrite !Z.pow_succ_r; lia.
  - rewrite Pos2Z.inj_succ, (Pos2Z.inj_xO c).
    replace (Z.succ (Z.pos (digits2_pos c)) - 1) with (Z.succ (Z.pos (digits2_pos c) - 1)) by lia.
    rewrite !Z.pow_succ_r; lia.
  - simpl. lia.
Qed.

Lemma D_safe (c : positive) : Zpos c < 2 ^ 53 <-> D c <= 53.
Proof.
  pose proof (D_bounds c) as [Hl Hu]. pose proof (D_pos c) as Hd. split; intros H.
  - destruct (Z_le_gt_dec (D c) 53) as [|Hgt]; [done|].
    assert (2 ^ 53 <= 2 ^ (D c - 1)) by (apply Z.pow_le_mono_r; lia). lia.
  - assert (2 ^ D c <= 2 ^ 53) by (apply Z.pow_le_mono_r; lia). lia.
Qed.

Lemma shr_iter (q p : positive) :
  Pos.iter shr_1 {| shr_m := Zpos (Pos.iter xO q p); shr_r := false; shr_s := false |} p
  = {| shr_m := Zpos q; shr_r := false; shr_s := false |}.
Proof.
  revert q. induction p using Pos.peano_ind; intros q.
  - reflexivity.
  - rewrite Pos.iter_succ_r. rewrite Pos.iter_succ. cbn [shr_1 orb].
    apply IHp.
Qed.

Lemma round_aux_canon (s : bool) (q : positive) (e : Z) :
  D q = 53 -> -1074 <= e <= 971 ->
  binary_round_aux prec emax s (Zpos q) e loc_Exact = S754_finite s q e.
Proof.
  intros Hq He. unfold binary_round_aux, shr_fexp.
  cbn [Zdigits2 shr_record_of_loc]. fold (D q). rewrite Hq.
  assert (Hf : fexp prec emax (53 + e) - e = 0).
  { unfold fexp, emin, prec, emax. lia. }
  rewrite Hf. cbn [shr shr_m loc_of_shr_record round_nearest_even Zdigits2].
  fold (D q). rewrite Hq, Hf. cbn [shr shr_m].
  replace (e <=? emax - prec) with true; [done|].
  symmetry. apply Z.leb_le. unfold emax, prec. lia.
Qed.

Lemma normalize (s : bool) (c : positive) (k : Z) :
  D c <= 53 -> 0 <= k ->
  binary_round prec emax s (shl c k) (- k) = canon s c.
Proof.
  intros Hc Hk. pose proof (D_pos c) as Hd. unfold binary_round.
  fold (D (shl c k)). rewrite D_shl by done.
  replace (D c + k + - k) with (D c) by lia.
  assert (Hf : fexp prec emax (D c) = D c - 53).
  { unfold fexp, emin, prec, emax. lia. }
  rewrite Hf. unfold shl_align.
  assert (HD : D (shl c (53 - D c)) = 53) by (rewrite D_shl; lia).
  destruct (D c - 53 - - k) as [|p|p] eqn:Ht.
  - replace k with (53 - D c) by lia. replace (- (53 - D c)) with (D c - 53) by lia.
    apply round_aux_canon; [done|lia].
  - unfold binary_round_aux, shr_fexp. cbn [Zdigits2 shr_record_of_loc].
    fold (D (shl c k)). rewrite D_shl by done.
    replace (D c + k + - k) with (D c) by lia. rewrite Hf, Ht.
    cbn [shr]. rewrite iter_pos_iter.
    replace (shl c k) with (Pos.iter xO (shl c (53 - D c)) p).
    2:{ change (Pos.iter xO (shl c (53 - D c)) p) with (shl (shl c (53 - D c)) (Zpos p)).
        rewrite shl_shl by lia. f_equal. lia. }
    rewrite shr_iter. cbn [shr_m loc_of_shr_record round_nearest_even].
    replace (- k + Z.pos p) with (D c - 53) by lia.
    cbn [Zdigits2]. fold (D (shl c (53 - D c))). rewrite HD.
    replace (fexp prec emax (53 + (D c - 53)) - (D c - 53)) with 0
      by (unfold fexp, emin, prec, emax; lia).
    cbn [shr shr_m]. unfold canon.
    replace (D c - 53 <=? emax - prec) with true; [done|].
    symmetry. apply Z.leb_le. unfold emax, prec. lia.
  - replace (Pos.iter xO (shl c k) p) with (shl c (53 - D c)).
    2:{ change (Pos.iter xO (shl c k) p) with (shl (shl c k) (Zpos p)).
        rewrite shl_shl by lia. f_equal. lia. }
    apply round_aux_canon; [done|lia].
Qed.

Lemma ofZ_pos (c : positive) : D c <= 53 -> ofZ (Zpos c) = canon false c.
Proof. intros Hc. exact (normalize false c 0 Hc ltac:(lia)). Qed.

Lemma ofZ_neg (c : positive) : D c <= 53 -> ofZ (Zneg c) = canon true c.
Proof. intros Hc. exact (normalize true c 0 Hc ltac:(lia)). Qed.

Lemma ofZ_safe (z : Z) :
  safe z -> z <> 0 -> ofZ z = canon (z <? 0) (absPos z) /\ D (absPos z) <= 53.
Proof.
  intros Hs Hz. unfold safe in Hs. destruct z as [|c|c]; [done| |].
  - assert (D c <= 53) by (apply D_safe; lia). split; [by apply ofZ_pos|done].
  - assert (D c <= 53) by (apply D_safe; lia). split; [by apply ofZ_neg|done].
Qed.

Lemma shl_align_canon (c : positive) (ez : Z) :
  D c <= 53 -> ez <= D c - 53 ->
  fst (shl_align (shl c (53 - D c)) (D c - 53) ez) = shl c (- ez).
Proof.
  intros Hc He. unfold shl_align.
  destruct (ez - (D c - 53)) as [|p|p] eqn:Ht; cbn [fst].
  - f_equal. lia.
  - lia.
  - change (Pos.iter xO (shl c (53 - D c)) p) with (shl (shl c (53 - D c)) (Zpos p)).
    rewrite shl_shl by lia. f_equal. lia.
Qed.

Lemma cond_Zopp_shl (z : Z) (k : Z) :
  z <> 0 -> 0 <= k ->
  cond_Zopp (z <? 0) (Zpos (shl (absPos z) k)) = z * 2 ^ k.
Proof.
  intros Hz Hk. rewrite Zpos_shl by done. unfold absPos.
  destruct z as [|c|c]; [done|simpl; lia|].
  simpl. lia.
Qed.

Lemma normalize_Z (z : Z) (k : Z) :
  safe z -> 0 <= k ->
  binary_normalize prec emax (z * 2 ^ k) (- k) false = ofZ z.
Proof.
  intros Hs Hk. destruct (decide (z = 0)) as [->|Hz]; [reflexivity|].
  destruct (ofZ_safe z Hs Hz) as [-> Hd].
  assert (Hp : 0 < 2 ^ k) by (apply Z.pow_pos_nonneg; lia).
  assert (Habs : Zpos (shl (absPos z) k) = Z.abs z * 2 ^ k).
  { rewrite Zpos_shl by done. unfold absPos. rewrite Z2Pos.id by lia. done. }
  destruct (z * 2 ^ k) as [|m|m] eqn:Hm; [nia| |].
  - assert (0 < z) by nia. replace (z <? 0) with false by (symmetry; apply Z.ltb_ge; lia).
    replace m with (shl (absPos z) k) by (apply Pos2Z.inj; lia).
    by apply normalize.
  - assert (z < 0) by nia. replace (z <? 0) with true by (symmetry; apply Z.ltb_lt; lia).
    replace m with (shl (absPos z) k) by (apply Pos2Z.inj; lia).
    by apply normalize.
Qed.

(** Sums and differences of safe integers are exact. *)
Lemma add_ofZ (a b : Z) :
  safe a -> safe b -> safe (a + b) -> add (ofZ a) (ofZ b) = ofZ (a + b).
Proof.
  intros Ha Hb Hab.
  destruct (decide (a = 0)) as [->|Hza].
  { rewrite Z.add_0_l. destruct (decide (b = 0)) as [->|Hzb]; [reflexivity|].
    destruct (ofZ_safe b Hb Hzb) as [-> _]. reflexivity. }
  destruct (decide (b = 0)) as [->|Hzb].
  { rewrite Z.add_0_r. destruct (ofZ_safe a Ha Hza) as [-> _]. reflexivity. }
  destruct (ofZ_safe a Ha Hza) as [Ea Hda], (ofZ_safe b Hb Hzb) as [Eb Hdb].
  rewrite Ea, Eb. unfold add, canon. cbn [SFadd].
  set (ez := Z.min (D (absPos a) - 53) (D (absPos b) - 53)).
  rewrite !shl_align_canon by (subst ez; lia).
  rewrite !cond_Zopp_shl by (subst ez; lia).
  rewrite <- Z.mul_add_distr_r.
  pose proof (normalize_Z (a + b) (- ez) Hab ltac:(subst ez; lia)) as Hn.
  by rewrite Z.opp_involutive in Hn.
Qed.

Lemma sub_ofZ (a b : Z) :
  safe a -> safe b -> safe (a - b) -> sub (ofZ a) (ofZ b) = ofZ (a - b).
Proof.
  intros Ha Hb Hab.
  destruct (decide (b = 0)) as [->|Hzb].
  { rewrite Z.sub_0_r. destruct (decide (a = 0)) as [->|Hza]; [reflexivity|].
    destruct (ofZ_safe a Ha Hza) as [-> _]. reflexivity. }
  destruct (ofZ_safe b Hb Hzb) as [Eb Hdb].
  destruct (decide (a = 0)) as [->|Hza].
  { assert (Hnb : safe (- b)) by (unfold safe in *; lia).
    destruct (ofZ_safe (- b) Hnb ltac:(lia)) as [Enb _].
    rewrite Eb. change (ofZ 0) with (S754_zero false). cbn [sub SFsub canon].
    change (0 - b) with (- b). rewrite Enb. unfold canon.
    replace (absPos (- b)) with (absPos b) by (unfold absPos; f_equal; lia).
    f_equal. destruct b; done. }
  destruct (ofZ_safe a Ha Hza) as [Ea Hda].
  rewrite Ea, Eb. unfold sub, canon. cbn [SFsub].
  set (ez := Z.min (D (absPos a) - 53) (D (absPos b) - 53)).
  rewrite !shl_align_canon by (subst ez; lia).
  rewrite !cond_Zopp_shl by (subst ez; lia).
  rewrite <- Z.mul_sub_distr_r.
  pose proof (normalize_Z (a - b) (- ez) Hab ltac:(subst ez; lia)) as Hn.
  by rewrite Z.opp_involutive in Hn.
Qed.

Lemma toZ_ofZ (z : Z) : safe z -> toZ (ofZ z) = Some z.
Proof.
  intros Hs. destruct (decide (z = 0)) as [->|Hz]; [reflexivity|].
  destruct (ofZ_safe z Hs Hz) as [-> Hd]. unfold canon, toZ.
  pose proof (D_pos (absPos z)) as Hp.
  pose proof (cond_Zopp_shl z (53 - D (absPos z)) Hz ltac:(lia)) as Hv.
  set (j := 53 - D (absPos z)) in *.
  assert (Hm : Zpos (shl (absPos z) j) = Z.abs z * 2 ^ j).
  { rewrite Zpos_shl by lia. unfold absPos. rewrite Z2Pos.id by lia. done. }
  assert (H2 : 0 < 2 ^ j) by (apply Z.pow_pos_nonneg; lia).
  replace (D (absPos z) - 53) with (- j) by lia.
  destruct (0 <=? - j) eqn:E.
  - apply Z.leb_le in E. assert (j = 0) as Hj by lia.
    rewrite Hj in *. simpl in Hv |- *. rewrite Z.mul_1_r in *.
    by rewrite Hv.
  - rewrite Z.opp_involutive, Hm, Z.mod_mul by lia. cbn [Z.eqb].
    rewrite Z.div_mul by lia. f_equal.
    destruct z; [done|simpl; lia|simpl; lia].
Qed.

Lemma compare_pos (a b : positive) :
  D a <= 53 -> D b <= 53 ->
  match Z.compare (D a - 53) (D b - 53) with
  | Lt => Lt
  | Gt => Gt
  | Eq => Pos.compare_cont Eq (shl a (53 - D a)) (shl b (53 - D b))
  end = Pos.compare a b.
Proof.
  intros Ha Hb. pose proof (D_bounds a) as Ba. pose proof (D_bounds b) as Bb.
  pose proof (D_pos a). pose proof (D_pos b).
  destruct (Z.compare_spec (D a - 53) (D b - 53)) as [E|E|E].
  - assert (D a = D b) as Hab by lia. rewrite Hab.
    change (Pos.compare_cont Eq ?x ?y) with (Pos.compare x y).
    rewrite !Pos2Z.inj_compare, !Zpos_shl by lia.
    symmetry. apply Zmult_compare_compat_r.
    assert (0 < 2 ^ (53 - D b)) by (apply Z.pow_pos_nonneg; lia). lia.
  - symmetry. apply Pos.compare_lt_iff.
    assert (2 ^ D a <= 2 ^ (D b - 1)) by (apply Z.pow_le_mono_r; lia). lia.
  - symmetry. apply Pos.compare_gt_iff.
    assert (2 ^ D b <= 2 ^ (D a - 1)) by (apply Z.pow_le_mono_r; lia). lia.
Qed.

Lemma compare_ofZ (a b : Z) :
  safe a -> safe b -> SFcompare (ofZ a) (ofZ b) = Some (a ?= b).
Proof.
  intros Ha Hb.
  destruct (decide (a = 0)) as [->|Hza].
  { destruct (decide (b = 0)) as [->|Hzb]; [reflexivity|].
    destruct (ofZ_safe b Hb Hzb) as [-> _]. destruct b; done. }
  destruct (ofZ_safe a Ha Hza) as [-> Hda].
  destruct (decide (b = 0)) as [->|Hzb]; [destruct a; done|].
  destruct (ofZ_safe b Hb Hzb) as [-> Hdb].
  unfold canon. cbn [SFcompare].
  destruct a as [|a|a], b as [|b|b]; try done;
    change (absPos (Z.pos a)) with a in *; change (absPos (Z.neg a)) with a in *;
    change (absPos (Z.pos b)) with b in *; change (absPos (Z.neg b)) with b in *;
    cbn [Z.ltb Z.compare]; f_equal; rewrite <- (compare_pos a b) by done;
    by destruct (D a - 53 ?= D b - 53).
Qed.

Lemma min_ofZ (a b : Z) : safe a -> safe b -> min (ofZ a) (ofZ b) = ofZ (Z.min a b).
Proof.
  intros Ha Hb. unfold min. rewrite compare_ofZ by done.
  unfold Z.min. destruct (Z.compare_spec a b) as [->|H|H]; try reflexivity.
  destruct (decide (b = 0)) as [->|Hz]; [reflexivity|].
  by destruct (ofZ_safe b Hb Hz) as [-> _].
Qed.

Lemma max_ofZ (a b : Z) : safe a -> safe b -> max (ofZ a) (ofZ b) = ofZ (Z.max a b).
Proof.
  intros Ha Hb. unfold max. rewrite compare_ofZ by done.
  unfold Z.max. destruct (Z.compare_spec a b) as [->|H|H]; try reflexivity.
  destruct (decide (b = 0)) as [->|Hz]; [reflexivity|].
  by destruct (ofZ_safe b Hb Hz) as [-> _].
Qed.

Lemma ofZ_inj (a b : Z) : safe a -> safe b -> ofZ a = ofZ b -> a = b.
Proof.
  intros Ha Hb E. apply (f_equal toZ) in E. rewrite !toZ_ofZ in E by done.
  congruence.
Qed.





Lemma shl_align_fst (m : positive) (e ez : Z) :
  ez <= e -> fst (shl_align m e ez) = shl m (e - ez).
Proof.
  intros He. unfold shl_align.
  destruct (ez - e) as [|p|p] eqn:Ht; cbn [fst].
  - replace (e - ez) with 0 by lia. reflexivity.
  - lia.
  - replace (e - ez) with (Zpos p) by lia. reflexivity.
Qed.

(** The value of a double that is an integer, scaled to a lower exponent. *)
Lemma toZ_scaled (s : bool) (m : positive) (e ez z : Z) :
  toZ (S754_finite s m e) = Some z -> ez <= e -> ez <= 0 ->
  cond_Zopp s (Zpos (shl m (e - ez))) = z * 2 ^ (- ez).
Proof.
  intros Hz He Hez. rewrite Zpos_shl by lia. unfold toZ in Hz.
  destruct (0 <=? e) eqn:E.
  - apply Z.leb_le in E. injection Hz as <-.
    replace (e - ez) with (e + - ez) by lia. rewrite Z.pow_add_r by lia.
    destruct s; simpl; lia.
  - apply Z.leb_gt in E.
    destruct (Z.pos m mod 2 ^ (- e) =? 0) eqn:Hm; [|discriminate].
    apply Z.eqb_eq in Hm. injection Hz as <-.
    assert (H2 : 0 < 2 ^ (- e)) by (apply Z.pow_pos_nonneg; lia).
    pose proof (Z.div_mod (Zpos m) (2 ^ (- e)) ltac:(lia)) as Hdm.
    rewrite Hm, Z.add_0_r in Hdm.
    set (q := Zpos m / 2 ^ (- e)) in *.
    replace (- ez) with (- e + (e - ez)) by lia.
    rewrite Z.pow_add_r by lia.
    destruct s; simpl; rewrite Hdm at 1; lia.
Qed.

(** Adding a safe integer to a double that is an integer, the sum being
    safe, gives the double that is the sum. *)
Lemma toZ_add (x : t) (z b : Z) :
  toZ x = Some z -> safe b -> safe (z + b) ->
  toZ (add x (ofZ b)) = Some (z + b).
Proof.
  intros Hx Hb Hzb.
  destruct (decide (b = 0)) as [->|Hnb].
  { rewrite Z.add_0_r. change (ofZ 0) with (S754_zero false).
    destruct x as [sx|sx| |s m e]; try discriminate Hx; [|exact Hx].
    simpl in Hx. injection Hx as <-. by destruct sx. }
  destruct (ofZ_safe b Hb Hnb) as [Eb Hdb].
  destruct x as [sx|sx| |s m e]; try discriminate Hx.
  { injection Hx as <-. rewrite Z.add_0_l. rewrite Eb. cbn [add SFadd canon].
    rewrite <- Eb. by apply toZ_ofZ. }
  rewrite Eb. unfold add, canon. cbn [SFadd].
  set (ez := Z.min e (D (absPos b) - 53)).
  assert (Hez : ez <= 0) by (subst ez; lia).
  rewrite shl_align_fst by (subst ez; lia).
  rewrite (toZ_scaled s m e ez z Hx) by (subst ez; lia).
  rewrite shl_align_canon by (subst ez; lia).
  rewrite cond_Zopp_shl by lia.
  rewrite <- Z.mul_add_distr_r.
  pose proof (normalize_Z (z + b) (- ez) Hzb ltac:(lia)) as Hn.
  rewrite Z.opp_involutive in Hn. rewrite Hn. by apply toZ_ofZ.
Qed.

End DoubleFacts.

(** ** Arrays *)

Lemma get_postIncrement_eq (a : Js.Array) (i : Z) :
  Js.get (Js.postIncrement a i) i
  = Some (Js.add (Js.ToNumber (Js.get a i)) (Js.Num 1)).
Proof. unfold Js.get, Js.postIncrement, Js.set; simpl. apply lookup_insert_eq. Qed.

Lemma get_postIncrement_ne (a : Js.Array) (i j : Z) :
  i <> j -> Js.get (Js.postIncrement a i) j = Js.get a j.
Proof.
  intros Hij. unfold Js.get, Js.postIncrement, Js.set; simpl.
  by apply lookup_insert_ne.
Qed.

(** A counter that holds an integer holds the next one after [++]; the
    other elements keep their value. *)
Lemma get_postIncrement_Num (a : Js.Array) (i j x : Z) :
  Js.get a j = Some (Js.Num x) ->
  Js.get (Js.postIncrement a i) j = Some (Js.Num (x + hit j i)).
Proof.
  intros Hj. unfold hit. destruct (decide (j = i)) as [->|Hne].
  - rewrite get_postIncrement_eq, Hj. reflexivity.
  - rewrite get_postIncrement_ne by congruence. rewrite Hj. do 2 f_equal. lia.
Qed.

(** The same for a write at a double: it moves the counter at [j] exactly
    when the double is the integer [j]. *)
Lemma get_postIncrementAt_Num (a : Js.Array) (key : Double.t) (j x : Z) :
  Js.get a j = Some (Js.Num x) ->
  Js.get (Js.postIncrementAt a key) j
  = Some (Js.Num (x + (if decide (Double.toZ key = Some j) then 1 else 0))).
Proof.
  intros Hj. unfold Js.postIncrementAt, Js.setAt, Js.getAt.
  destruct (Double.toZ key) as [i|].
  - fold (Js.postIncrement a i). rewrite (get_postIncrement_Num a i j x Hj).
    unfold hit. do 2 f_equal. repeat case_decide; congruence.
  - rewrite decide_False by discriminate. unfold Js.get in *. simpl.
    rewrite Hj. do 2 f_equal. lia.
Qed.

Lemma Double_BigInt_Ok (x : Double.t) (z : Z) :
  Double.BigInt x = Ok z <-> Double.toZ x = Some z.
Proof.
  unfold Double.BigInt. destruct (Double.toZ x); split; congruence.
Qed.

Lemma BigInt_Ok (v : option Js.number) (z : Z) :
  Js.BigInt v = Ok z <-> v = Some (Js.Num z).
Proof.
  split.
  - destruct v as [[x|]|]; simpl; intros H; inversion H; reflexivity.
  - intros ->. reflexivity.
Qed.

Lemma toRatingDist_Ok (arr : Js.Array) (d : RatingDistribution) :
  toRatingDist arr = Ok d <->
  Js.get arr 0 = Some (Js.Num (rating1 d)) /\
  Js.get arr 1 = Some (Js.Num (rating2 d)) /\
  Js.get arr 2 = Some (Js.Num (rating3 d)) /\
  Js.get arr 3 = Some (Js.Num (rating4 d)) /\
  Js.get arr 4 = Some (Js.Num (rating5 d)).
Proof.
  unfold toRatingDist. split.
  - intros H.
    destruct (Js.get arr 0) as [[x0|]|]; try discriminate H.
    destruct (Js.get arr 1) as [[x1|]|]; try discriminate H.
    destruct (Js.get arr 2) as [[x2|]|]; try discriminate H.
    destruct (Js.get arr 3) as [[x3|]|]; try discriminate H.
    destruct (Js.get arr 4) as [[x4|]|]; try discriminate H.
    simpl in H. inversion H; subst; simpl. repeat split.
  - intros (-> & -> & -> & -> & ->). destruct d; reflexivity.
Qed.

Lemma toRatingDist_postIncrement (arr : Js.Array) (d : RatingDistribution) (score : Z) :
  toRatingDist arr = Ok d ->
  toRatingDist (Js.postIncrement arr (score - 1)) = Ok (bumped d score).
Proof.
  rewrite !toRatingDist_Ok. intros (H0 & H1 & H2 & H3 & H4). simpl.
  replace (hit 1 score) with (hit 0 (score - 1)) by (unfold hit; repeat case_decide; lia).
  replace (hit 2 score) with (hit 1 (score - 1)) by (unfold hit; repeat case_decide; lia).
  replace (hit 3 score) with (hit 2 (score - 1)) by (unfold hit; repeat case_decide; lia).
  replace (hit 4 score) with (hit 3 (score - 1)) by (unfold hit; repeat case_decide; lia).
  replace (hit 5 score) with (hit 4 (score - 1)) by (unfold hit; repeat case_decide; lia).
  repeat split; by apply get_postIncrement_Num.
Qed.

Lemma ratingAt_bumped (d : RatingDistribution) (score j : Z) :
  1 <= j <= 5 -> ratingAt (bumped d score) j = ratingAt d j + hit j score.
Proof.
  intros Hj. unfold ratingAt.
  repeat case_decide; subst; simpl; try reflexivity.
  replace j with 5 by lia. reflexivity.
Qed.

Lemma ratingSum_bumped (d : RatingDistribution) (score : Z) :
  ratingSum (bumped d score)
  = ratingSum d + (if decide (1 <= score <= 5) then 1 else 0).
Proof.
  unfold ratingSum, bumped, hit; simpl. repeat case_decide; lia.
Qed.

Lemma bandAt_bumpedBands (b : SalaryBands) (k j : Z) :
  1 <= j <= 5 -> bandAt (bumpedBands b k) j = bandAt b j + hit j k.
Proof.
  intros Hj. unfold bandAt.
  repeat case_decide; subst; simpl; try reflexivity.
  replace j with 5 by lia. reflexivity.
Qed.

Lemma bandSum_bumpedBands (b : SalaryBands) (k : Z) :
  1 <= k <= 5 -> bandSum (bumpedBands b k) = bandSum b + 1.
Proof.
  intros Hk. unfold bandSum, bumpedBands, hit; simpl. repeat case_decide; lia.
Qed.

(** ** The clamp of [processSalaryPayment] *)

Ltac safe_tac :=
  unfold Double.safe in *; change (2 ^ 53) with 9007199254740992 in *; lia.

(** On an integer band the clamp is the clamp of the integers. *)
Lemma bandIdx_ofZ (b : Z) :
  Double.safe (b - 1) -> Double.safe b ->
  bandIdx (Double.ofZ b) = Double.ofZ (Z.max 0 (Z.min 4 (b - 1))).
Proof.
  intros Hb1 Hb. unfold bandIdx.
  rewrite DoubleFacts.sub_ofZ by safe_tac.
  rewrite DoubleFacts.min_ofZ by safe_tac.
  rewrite DoubleFacts.max_ofZ by safe_tac. reflexivity.
Qed.

Lemma bandCounted_ofZ (b : Z) :
  Double.safe (b - 1) -> Double.safe b ->
  bandCounted (Double.ofZ b) = Some (clampBand b).
Proof.
  intros Hb1 Hb. unfold bandCounted. rewrite bandIdx_ofZ by done.
  rewrite DoubleFacts.toZ_ofZ by safe_tac.
  simpl. f_equal. unfold clampBand. repeat case_decide; lia.
Qed.

Lemma clampBand_range (band : Z) : 1 <= clampBand band <= 5.
Proof. unfold clampBand. repeat case_decide; lia. Qed.

Lemma bandCounted_integerBand (p : SalaryPaymentParams) :
  integerBand p -> exists k, 1 <= k <= 5 /\ bandCounted (salaryBand p) = Some k.
Proof.
  intros (b & Hb1 & Hb & ->). exists (clampBand b).
  split; [apply clampBand_range|by apply bandCounted_ofZ].
Qed.

(** ** The state queries *)

Lemma getSalaryState_Ok (api : EchoAPI) (s : SalaryLedgerState.t) :
  fst (getSalaryState api) = Ok s <->
  deployment api = None /\
  (let b := LocalSalaryState.bands (_localSalary api) in
   Js.get b 0 = Some (Js.Num (band1 (SalaryLedgerState.salaryBands s))) /\
   Js.get b 1 = Some (Js.Num (band2 (SalaryLedgerState.salaryBands s))) /\
   Js.get b 2 = Some (Js.Num (band3 (SalaryLedgerState.salaryBands s))) /\
   Js.get b 3 = Some (Js.Num (band4 (SalaryLedgerState.salaryBands s))) /\
   Js.get b 4 = Some (Js.Num (band5 (SalaryLedgerState.salaryBands s)))) /\
  SalaryLedgerState.orgAdmin s = zeros64 /\
  SalaryLedgerState.totalPaymentsProcessed s
    = LocalSalaryState.totalPaymentsProcessed (_localSalary api) /\
  Double.toZ (payrollOf api) = Some (SalaryLedgerState.totalPayrollAmount s) /\
  SalaryLedgerState.currentPeriod s
    = LocalSalaryState.currentPeriod (_localSalary api) /\
  SalaryLedgerState.activeDisputes s
    = LocalSalaryState.activeDisputes (_localSalary api) /\
  SalaryLedgerState.round s = LocalSalaryState.round (_localSalary api).
Proof.
  unfold getSalaryState, payrollOf. rewrite <- Double_BigInt_Ok. split.
  - destruct (deployment api); [discriminate|]. simpl. intros H.
    destruct (Double.BigInt _) as [t| |]; try discriminate H. simpl in H.
    destruct (Js.get _ 0) as [[x0|]|]; try discriminate H.
    destruct (Js.get _ 1) as [[x1|]|]; try discriminate H.
    destruct (Js.get _ 2) as [[x2|]|]; try discriminate H.
    destruct (Js.get _ 3) as [[x3|]|]; try discriminate H.
    destruct (Js.get _ 4) as [[x4|]|]; try discriminate H.
    simpl in H. inversion H; subst; simpl. repeat split.
  - intros (-> & (-> & -> & -> & -> & ->) & Ha & Ht & -> & Hc & Hd & Hr). simpl.
    destruct s as [a t p c d [b1 b2 b3 b4 b5] r]; simpl in *. subst. reflexivity.
Qed.

Lemma getReviewState_Ok (api : EchoAPI) (r : ReviewLedgerState.t) :
  fst (getReviewState api) = Ok r <->
  deployment api = None /\
  (let c := LocalReviewState.ratingCounters (_localReview api) in
   let a := ReviewLedgerState.ratingAggregates r in
   toRatingDist (RatingCounters.culture c) = Ok (RatingAggregates.culture a) /\
   toRatingDist (RatingCounters.compensation c) = Ok (RatingAggregates.compensation a) /\
   toRatingDist (RatingCounters.management c) = Ok (RatingAggregates.management a) /\
   toRatingDist (RatingCounters.workLifeBalance c) = Ok (RatingAggregates.workLifeBalance a) /\
   toRatingDist (RatingCounters.careerGrowth c) = Ok (RatingAggregates.careerGrowth a)) /\
  ReviewLedgerState.orgAdmin r = zeros64 /\
  ReviewLedgerState.totalReviews r
    = LocalReviewState.totalReviews (_localReview api) /\
  ReviewLedgerState.currentReviewPeriod r
    = LocalReviewState.currentReviewPeriod (_localReview api) /\
  ReviewLedgerState.round r = LocalReviewState.round (_localReview api).
Proof.
  unfold getReviewState. split.
  - destruct (deployment api); [discriminate|]. simpl. intros H.
    destruct (toRatingDist (RatingCounters.culture _)); try discriminate H.
    destruct (toRatingDist (RatingCounters.compensation _)); try discriminate H.
    destruct (toRatingDist (RatingCounters.management _)); try discriminate H.
    destruct (toRatingDist (RatingCounters.workLifeBalance _)); try discriminate H.
    destruct (toRatingDist (RatingCounters.careerGrowth _)); try discriminate H.
    simpl in H. inversion H; subst; simpl. repeat split.
  - intros (-> & (-> & -> & -> & -> & ->) & Ha & Ht & Hp & Hr). simpl.
    destruct r as [a t p rd [cu co ma wl cg]]; simpl in *. subst. reflexivity.
Qed.

(** ** One call *)

Ltac unfold_methods :=
  unfold step, call, reply, addHrOperator, onboardEmployee, offboardEmployee,
    proveEmployment, processSalaryPayment, confirmSalaryReceipt,
    proveSalaryRange, advancePeriod, submitReview, withLocalOrg,
    withLocalSalary in *.

(** No call connects or disconnects the instance. *)
Lemma call_deployment (c : Call) (clk : Clock) (api : EchoAPI) :
  deployment (snd (call c clk api)) = deployment api.
Proof.
  destruct c; unfold_methods; destruct (deployment api) eqn:E; simpl; congruence.
Qed.

(** The local simulation rejects nothing. *)
Lemma call_local_Ok (c : Call) (clk : Clock) (api : EchoAPI) :
  deployment api = None -> exists r, fst (call c clk api) = Ok r.
Proof.
  intros Hl. destruct c; unfold_methods; rewrite Hl; simpl; eauto.
Qed.


(** The band counters after a payment, field by field. *)
Lemma bandsAfter_fields (b : SalaryBands) (band : Double.t) :
  let bump j := if decide (Double.toZ (bandIdx band) = Some j) then 1 else 0 in
  band1 (bandsAfter b band) = band1 b + bump 0 /\
  band2 (bandsAfter b band) = band2 b + bump 1 /\
  band3 (bandsAfter b band) = band3 b + bump 2 /\
  band4 (bandsAfter b band) = band4 b + bump 3 /\
  band5 (bandsAfter b band) = band5 b + bump 4.
Proof.
  unfold bandsAfter, bandCounted.
  destruct (Double.toZ (bandIdx band)) as [i|]; simpl.
  - unfold hit.
    repeat split; repeat case_decide; simplify_eq; try lia;
      exfalso;
      match goal with H : Some _ <> Some _ |- _ => apply H; f_equal; lia end.
  - repeat split; lia.
Qed.

Lemma bandAt_bandsAfter (b : SalaryBands) (band : Double.t) (k : Z) :
  1 <= k <= 5 ->
  bandAt (bandsAfter b band) k
  = bandAt b k + (if decide (bandCounted band = Some k) then 1 else 0).
Proof.
  intros Hk. unfold bandsAfter.
  destruct (bandCounted band) as [j|].
  - rewrite bandAt_bumpedBands by done. unfold hit.
    repeat case_decide; simplify_eq; lia.
  - rewrite decide_False by discriminate. lia.
Qed.

(** What the salary query shows after a call; for a payment, when the
    total takes the amount exactly. *)
Lemma getSalaryState_call (c : Call) (clk : Clock) (api : EchoAPI)
    (s : SalaryLedgerState.t) :
  fst (getSalaryState api) = Ok s ->
  (forall p, c = ProcessSalaryPayment p ->
     Double.safe (amount p) /\
     Double.safe (SalaryLedgerState.totalPayrollAmount s + amount p)) ->
  fst (getSalaryState (snd (call c clk api))) = Ok (salaryAfter c s).
Proof.
  intros Hs Hsafe. apply getSalaryState_Ok in Hs.
  destruct Hs as (Hl & (H0 & H1 & H2 & H3 & H4) & Ha & Ht & Hp & Hc & Hd & Hr).
  apply getSalaryState_Ok. rewrite call_deployment. unfold payrollOf in *.
  destruct c; unfold_methods; rewrite Hl; simpl; try (repeat split; congruence).
  (* processSalaryPayment *)
  destruct (Hsafe params eq_refl) as [Hsa Hsum].
  destruct (bandsAfter_fields (SalaryLedgerState.salaryBands s) (salaryBand params))
    as (-> & -> & -> & -> & ->).
  repeat split; try (by apply get_postIncrementAt_Num); try congruence.
  by apply DoubleFacts.toZ_add.
Qed.

Lemma getReviewState_call (c : Call) (clk : Clock) (api : EchoAPI)
    (r : ReviewLedgerState.t) :
  fst (getReviewState api) = Ok r ->
  fst (getReviewState (snd (call c clk api))) = Ok (reviewAfter c r).
Proof.
  intros Hs. apply getReviewState_Ok in Hs.
  destruct Hs as (Hl & (H0 & H1 & H2 & H3 & H4) & Ha & Ht & Hp & Hr).
  apply getReviewState_Ok. rewrite call_deployment.
  destruct c; unfold_methods; rewrite Hl; simpl; try (repeat split; congruence).
  (* submitReview *)
  repeat split; try (by apply toRatingDist_postIncrement); congruence.
Qed.

(** ** Runs in local-simulation mode *)

Lemma run_cons (c : Call * Clock) (cs : list (Call * Clock)) (api : EchoAPI) :
  run (c :: cs) api = run cs (step c api).
Proof. reflexivity. Qed.

Lemma run_app (cs1 cs2 : list (Call * Clock)) (api : EchoAPI) :
  run (cs1 ++ cs2) api = run cs2 (run cs1 api).
Proof. unfold run. apply foldl_app. Qed.

Lemma run_step_last (cs : list (Call * Clock)) (c : Call * Clock) (api : EchoAPI) :
  run (cs ++ [c]) api = step c (run cs api).
Proof. unfold run. rewrite foldl_app. reflexivity. Qed.

Lemma run_local (cs : list (Call * Clock)) (api : EchoAPI) :
  deployment (run cs api) = deployment api.
Proof.
  revert api. induction cs as [|[c clk] cs IH]; intros api; [reflexivity|].
  rewrite run_cons, IH. apply call_deployment.
Qed.

Lemma step_local (c : Call * Clock) (api : EchoAPI) :
  deployment api = None -> deployment (step c api) = None.
Proof. intros Hl. unfold step. by rewrite call_deployment. Qed.

Lemma paymentsOf_cons (c : Call * Clock) (cs : list (Call * Clock)) :
  paymentsOf (c :: cs)
  = match fst c with
    | ProcessSalaryPayment p => p :: paymentsOf cs
    | _ => paymentsOf cs
    end.
Proof. destruct c as [[] clk]; reflexivity. Qed.

Lemma advancesIn_cons (c : Call * Clock) (cs : list (Call * Clock)) :
  advancesIn (c :: cs)
  = match fst c with AdvancePeriod => 1 | _ => 0 end + advancesIn cs.
Proof.
  unfold advancesIn.
  destruct c as [[] clk]; cbn [fst omap list_omap List.length];
    rewrite ?Nat2Z.inj_succ; lia.
Qed.

Lemma reviewsOf_cons (c : Call * Clock) (cs : list (Call * Clock)) :
  reviewsOf (c :: cs)
  = match fst c with
    | SubmitReview p => (p, snd c) :: reviewsOf cs
    | _ => reviewsOf cs
    end.
Proof. destruct c as [[] clk]; reflexivity. Qed.

Lemma totalAmount_cons (p : SalaryPaymentParams) (ps : list SalaryPaymentParams) :
  totalAmount (p :: ps) = amount p + totalAmount ps.
Proof. reflexivity. Qed.

Lemma countedIn_cons (k : Z) (p : SalaryPaymentParams)
    (ps : list SalaryPaymentParams) :
  countedIn k (p :: ps)
  = (if decide (bandCounted (salaryBand p) = Some k) then 1 else 0)
    + countedIn k ps.
Proof.
  unfold countedIn. rewrite filter_cons.
  case_decide; simpl; lia.
Qed.

Lemma countedIn_nonneg (k : Z) (ps : list SalaryPaymentParams) :
  0 <= countedIn k ps.
Proof. unfold countedIn. lia. Qed.

Lemma paymentsOf_paymentCalls (ps : list (SalaryPaymentParams * Clock)) :
  paymentsOf (paymentCalls ps) = map fst ps.
Proof.
  induction ps as [|p ps IH]; [reflexivity|].
  unfold paymentCalls in *. simpl map. rewrite paymentsOf_cons. simpl.
  by rewrite IH.
Qed.

(** The counters of the salary ledger over a run: [totalPaymentsProcessed]
    grows by the number of payments, [currentPeriod] by the number of period
    advances, [round] by the number of both. *)
Lemma salary_counts_run (cs : list (Call * Clock)) (api : EchoAPI) :
  deployment api = None ->
  let s := _localSalary api in
  let s' := _localSalary (run cs api) in
  LocalSalaryState.totalPaymentsProcessed s'
    = LocalSalaryState.totalPaymentsProcessed s
      + Z.of_nat (List.length (paymentsOf cs)) /\
  LocalSalaryState.currentPeriod s'
    = LocalSalaryState.currentPeriod s + advancesIn cs /\
  LocalSalaryState.activeDisputes s' = LocalSalaryState.activeDisputes s /\
  LocalSalaryState.round s'
    = LocalSalaryState.round s + Z.of_nat (List.length (paymentsOf cs))
      + advancesIn cs.
Proof.
  revert api. induction cs as [|[c clk] cs IH]; intros api Hl.
  - unfold advancesIn. simpl. lia.
  - rewrite run_cons. cbv zeta.
    destruct (IH (step (c, clk) api) (step_local _ _ Hl)) as (-> & -> & -> & ->).
    rewrite paymentsOf_cons, advancesIn_cons.
    destruct c; unfold_methods; rewrite Hl; simpl fst; simpl snd;
      cbn [_localSalary LocalSalaryState.totalPaymentsProcessed
           LocalSalaryState.currentPeriod LocalSalaryState.activeDisputes
           LocalSalaryState.round List.length];
      rewrite ?Nat2Z.inj_succ; lia.
Qed.

Lemma bandCounted_succ (band : Double.t) (j : Z) :
  bandCounted band = Some (j + 1) <-> Double.toZ (bandIdx band) = Some j.
Proof.
  unfold bandCounted. destruct (Double.toZ (bandIdx band)) as [i|]; simpl.
  - split; intros H; inversion H; f_equal; lia.
  - split; discriminate.
Qed.

(** A band counter over a run: it grows by the number of payments counted
    in its band. *)
Lemma bands_run (cs : list (Call * Clock)) (api : EchoAPI) (j x : Z) :
  deployment api = None ->
  Js.get (LocalSalaryState.bands (_localSalary api)) j = Some (Js.Num x) ->
  Js.get (LocalSalaryState.bands (_localSalary (run cs api))) j
  = Some (Js.Num (x + countedIn (j + 1) (paymentsOf cs))).
Proof.
  revert api x. induction cs as [|[c clk] cs IH]; intros api x Hl Hx.
  - simpl. rewrite Hx. do 2 f_equal. unfold countedIn. simpl. lia.
  - rewrite run_cons, paymentsOf_cons.
    destruct c; cbn [fst];
      try (rewrite (IH (step _ api) x) by
             (first [by apply step_local
                    | unfold step; unfold_methods; rewrite Hl; exact Hx]);
           reflexivity).
    rewrite countedIn_cons.
    rewrite (IH (step (ProcessSalaryPayment params, clk) api)
                (x + (if decide (Double.toZ (bandIdx (salaryBand params)) = Some j)
                      then 1 else 0))).
    + do 2 f_equal.
      destruct (decide (Double.toZ (bandIdx (salaryBand params)) = Some j)) as [E|E];
        [rewrite decide_True by (by apply bandCounted_succ)
        |rewrite decide_False by (by rewrite bandCounted_succ)]; lia.
    + by apply step_local.
    + unfold step. unfold_methods. rewrite Hl. simpl.
      by apply get_postIncrementAt_Num.
Qed.

Lemma payrollOf_call (c : Call) (clk : Clock) (api : EchoAPI) :
  deployment api = None ->
  payrollOf (snd (call c clk api))
  = match c with
    | ProcessSalaryPayment p => Double.add (payrollOf api) (Double.ofZ (amount p))
    | _ => payrollOf api
    end.
Proof.
  intros Hl. unfold payrollOf.
  destruct c; unfold_methods; rewrite Hl; reflexivity.
Qed.

Lemma totalAmount_nonneg (ps : list SalaryPaymentParams) :
  Forall (fun p => 0 <= amount p) ps -> 0 <= totalAmount ps.
Proof.
  induction 1 as [|p ps Hp _ IH]; [done|]. rewrite totalAmount_cons. lia.
Qed.

(** [totalPayrollAmount] over a run whose amounts it takes exactly: it
    grows by their sum. *)
Lemma payroll_run (cs : list (Call * Clock)) (api : EchoAPI) (t : Z) :
  deployment api = None ->
  Double.toZ (payrollOf api) = Some t ->
  safeAmounts t (paymentsOf cs) ->
  Double.toZ (payrollOf (run cs api)) = Some (t + totalAmount (paymentsOf cs)).
Proof.
  revert api t. induction cs as [|[c clk] cs IH]; intros api t Hl Ht Hsafe.
  - simpl. rewrite Ht. f_equal. unfold totalAmount. simpl. lia.
  - rewrite run_cons. rewrite paymentsOf_cons in *.
    pose proof (payrollOf_call c clk api Hl) as Hc.
    destruct c; cbn [fst] in *;
      try (apply IH; [by apply step_local
                     | unfold step; cbn [fst snd]; by rewrite Hc
                     | exact Hsafe]).
    destruct Hsafe as (H0 & Hall & Hsum).
    inversion Hall as [|? ? Hp Hps]; subst.
    rewrite totalAmount_cons in *.
    pose proof (totalAmount_nonneg _ Hps) as Hnn.
    rewrite (IH (step (ProcessSalaryPayment params, clk) api) (t + amount params)).
    + f_equal. lia.
    + by apply step_local.
    + unfold step. cbn [fst snd]. rewrite Hc.
      apply DoubleFacts.toZ_add; [exact Ht| |]; safe_tac.
    + split; [lia|]. split; [exact Hps|]. lia.
Qed.

(** The band counters a salary state shows are the first five elements of
    [bands]. *)
Lemma getSalaryState_bandAt (api : EchoAPI) (s : SalaryLedgerState.t) (k : Z) :
  fst (getSalaryState api) = Ok s ->
  1 <= k <= 5 ->
  Js.get (LocalSalaryState.bands (_localSalary api)) (k - 1)
  = Some (Js.Num (bandAt (SalaryLedgerState.salaryBands s) k)).
Proof.
  intros Hs Hk. apply getSalaryState_Ok in Hs.
  destruct Hs as (_ & (H0 & H1 & H2 & H3 & H4) & _).
  unfold bandAt. repeat case_decide; subst; try assumption.
  by replace k with 5 by lia.
Qed.

(** The salary query answers whenever the five band counters are numbers
    and [totalPayrollAmount] is an integer. *)
Lemma getSalaryState_answers (api : EchoAPI) (t : Z) :
  deployment api = None ->
  (forall k, 1 <= k <= 5 ->
     exists x, Js.get (LocalSalaryState.bands (_localSalary api)) (k - 1)
               = Some (Js.Num x)) ->
  Double.toZ (payrollOf api) = Some t ->
  exists s, fst (getSalaryState api) = Ok s.
Proof.
  intros Hl Hb Ht.
  destruct (Hb 1) as [x1 H1]; [lia|]. destruct (Hb 2) as [x2 H2]; [lia|].
  destruct (Hb 3) as [x3 H3]; [lia|]. destruct (Hb 4) as [x4 H4]; [lia|].
  destruct (Hb 5) as [x5 H5]; [lia|]. simpl in *.
  exists {| SalaryLedgerState.orgAdmin := zeros64;
            SalaryLedgerState.totalPaymentsProcessed :=
              LocalSalaryState.totalPaymentsProcessed (_localSalary api);
            SalaryLedgerState.totalPayrollAmount := t;
            SalaryLedgerState.currentPeriod :=
              LocalSalaryState.currentPeriod (_localSalary api);
            SalaryLedgerState.activeDisputes :=
              LocalSalaryState.activeDisputes (_localSalary api);
            SalaryLedgerState.salaryBands :=
              {| band1 := x1; band2 := x2; band3 := x3; band4 := x4; band5 := x5 |};
            SalaryLedgerState.round :=
              LocalSalaryState.round (_localSalary api) |}.
  apply getSalaryState_Ok. simpl. repeat split; assumption.
Qed.

(** What the salary query shows after a run, when it answers: the counters
    it showed before, grown by the payments and advances of the run. *)
Lemma getSalaryState_after_run (cs : list (Call * Clock)) (api : EchoAPI)
    (s s' : SalaryLedgerState.t) :
  fst (getSalaryState api) = Ok s ->
  fst (getSalaryState (run cs api)) = Ok s' ->
  SalaryLedgerState.totalPaymentsProcessed s'
    = SalaryLedgerState.totalPaymentsProcessed s
      + Z.of_nat (List.length (paymentsOf cs)) /\
  SalaryLedgerState.currentPeriod s'
    = SalaryLedgerState.currentPeriod s + advancesIn cs /\
  SalaryLedgerState.round s'
    = SalaryLedgerState.round s + Z.of_nat (List.length (paymentsOf cs))
      + advancesIn cs /\
  forall k, 1 <= k <= 5 ->
    bandAt (SalaryLedgerState.salaryBands s') k
    = bandAt (SalaryLedgerState.salaryBands s) k + countedIn k (paymentsOf cs).
Proof.
  intros Hs Hs'.
  assert (Hb : forall k, 1 <= k <= 5 ->
            bandAt (SalaryLedgerState.salaryBands s') k
            = bandAt (SalaryLedgerState.salaryBands s) k
              + countedIn k (paymentsOf cs)).
  { intros k Hk.
    pose proof (getSalaryState_bandAt _ _ k Hs Hk) as H.
    pose proof (getSalaryState_bandAt _ _ k Hs' Hk) as H'.
    apply getSalaryState_Ok in Hs. destruct Hs as (Hl & _).
    rewrite (bands_run cs api (k - 1) _ Hl H) in H'.
    replace (k - 1 + 1) with k in H' by lia. congruence. }
  apply getSalaryState_Ok in Hs. apply getSalaryState_Ok in Hs'.
  destruct Hs as (Hl & _ & _ & Ht & _ & Hc & _ & Hr).
  destruct Hs' as (_ & _ & _ & Ht' & _ & Hc' & _ & Hr').
  destruct (salary_counts_run cs api Hl) as (Et & Ec & _ & Er).
  repeat split; [lia..|exact Hb].
Qed.

(** The salary query answers after a run whose amounts [totalPayrollAmount]
    takes exactly, and then shows the sum of the amounts. *)
Lemma getSalaryState_run (cs : list (Call * Clock)) (api : EchoAPI)
    (s : SalaryLedgerState.t) :
  fst (getSalaryState api) = Ok s ->
  safeAmounts (SalaryLedgerState.totalPayrollAmount s) (paymentsOf cs) ->
  exists s',
    fst (getSalaryState (run cs api)) = Ok s' /\
    SalaryLedgerState.totalPayrollAmount s'
      = SalaryLedgerState.totalPayrollAmount s + totalAmount (paymentsOf cs).
Proof.
  intros Hs Hsafe. pose proof Hs as Hs0. apply getSalaryState_Ok in Hs0.
  destruct Hs0 as (Hl & _ & _ & _ & Hp & _).
  pose proof (payroll_run cs api _ Hl Hp Hsafe) as Hp'.
  assert (Hex : exists s', fst (getSalaryState (run cs api)) = Ok s').
  { eapply getSalaryState_answers; [by rewrite run_local| |exact Hp'].
    intros k Hk. eexists. apply bands_run; [exact Hl|].
    by apply getSalaryState_bandAt. }
  destruct Hex as [s' Hs'].
  - exists s'. split; [exact Hs'|].
    apply getSalaryState_Ok in Hs'. destruct Hs' as (_ & _ & _ & _ & Hq & _).
    congruence.
Qed.

(** Integer bands: each payment is counted in exactly one of the five. *)
Lemma countedIn_sum (ps : list SalaryPaymentParams) :
  Forall integerBand ps ->
  countedIn 1 ps + countedIn 2 ps + countedIn 3 ps + countedIn 4 ps
    + countedIn 5 ps = Z.of_nat (List.length ps).
Proof.
  induction 1 as [|p ps Hp _ IH]; [reflexivity|].
  rewrite !countedIn_cons. simpl List.length. rewrite Nat2Z.inj_succ.
  destruct (bandCounted_integerBand p Hp) as (k & Hk & ->).
  assert (Hc : k = 1 \/ k = 2 \/ k = 3 \/ k = 4 \/ k = 5) by lia.
  destruct Hc as [->|[->|[->|[->| ->]]]];
    repeat case_decide; simplify_eq; try congruence; lia.
Qed.

Lemma bandSum_bandAt (b : SalaryBands) :
  bandSum b = bandAt b 1 + bandAt b 2 + bandAt b 3 + bandAt b 4 + bandAt b 5.
Proof. reflexivity. Qed.

(** With integer bands the sum of the band counters follows
    [totalPaymentsProcessed] along every run. *)
Lemma bandSum_run (cs : list (Call * Clock)) (api : EchoAPI)
    (s s' : SalaryLedgerState.t) :
  fst (getSalaryState api) = Ok s ->
  bandSum (SalaryLedgerState.salaryBands s)
    = SalaryLedgerState.totalPaymentsProcessed s ->
  integerBands cs ->
  fst (getSalaryState (run cs api)) = Ok s' ->
  bandSum (SalaryLedgerState.salaryBands s')
    = SalaryLedgerState.totalPaymentsProcessed s'.
Proof.
  intros Hs Hsum Hint Hs'.
  destruct (getSalaryState_after_run cs api s s' Hs Hs') as (Ht & _ & _ & Hb).
  rewrite bandSum_bandAt in *.
  rewrite !Hb by lia. pose proof (countedIn_sum _ Hint). lia.
Qed.

(** A fresh instance after a run with integer bands and amounts that add up
    below [2^53]: the salary query answers, with the band counters adding up
    to [totalPaymentsProcessed]. *)
Lemma fresh_run_salary (cs : list (Call * Clock)) :
  integerBands cs ->
  safeAmounts 0 (paymentsOf cs) ->
  exists s,
    fst (getSalaryState (run cs newEchoAPI)) = Ok s /\
    bandSum (SalaryLedgerState.salaryBands s)
      = SalaryLedgerState.totalPaymentsProcessed s.
Proof.
  intros Hint Hsafe.
  destruct (getSalaryState_run cs newEchoAPI _ eq_refl Hsafe) as (s & Hs & _).
  exists s. split; [exact Hs|].
  by apply (bandSum_run cs newEchoAPI _ s eq_refl).
Qed.
(** ** Receipt confirmation *)

(** C1, as amended: in local-simulation mode [confirmSalaryReceipt] keeps
    no receipt-nullifier set.  A second call with the same secret, like every
    call, succeeds and reports a review token as issued; no call changes any
    counter, nor anything else the instance holds. *)
Theorem C1_confirmSalaryReceipt_local (api : EchoAPI) (clk1 clk2 : Clock) :
  deployment api = None ->
  confirmSalaryReceipt clk1 api
    = (Ok {| txId := localTxId clk1; reviewTokenIssued := true |}, api) /\
  confirmSalaryReceipt clk2 (snd (confirmSalaryReceipt clk1 api))
    = (Ok {| txId := localTxId clk2; reviewTokenIssued := true |}, api).
Proof.
  intros Hl. unfold confirmSalaryReceipt. repeat (rewrite Hl; simpl). done.
Qed.

Lemma C1_confirmSalaryReceipt_local_witness :
  deployment newEchoAPI = None /\
  confirmSalaryReceipt clock0 newEchoAPI
    = (Ok {| txId := localTxId clock0; reviewTokenIssued := true |}, newEchoAPI) /\
  confirmSalaryReceipt clock1 (snd (confirmSalaryReceipt clock0 newEchoAPI))
    = (Ok {| txId := localTxId clock1; reviewTokenIssued := true |}, newEchoAPI).
Proof.
  split; [reflexivity|].
  apply (C1_confirmSalaryReceipt_local newEchoAPI clock0 clock1). reflexivity.
Defined.

(** C1 fails as stated: on a fresh instance the second confirmation is not
    rejected with [AlreadyClaimed], it succeeds. *)
Lemma C1_second_confirmation_succeeds :
  fst (confirmSalaryReceipt clock1 (snd (confirmSalaryReceipt clock0 newEchoAPI)))
  = Ok {| txId := "local_tx_18bcfe65260"; reviewTokenIssued := true |}.
Proof. reflexivity. Qed.

(** ** Review submission *)

(** A review in local-simulation mode: accepted and counted, the review
    period as it was. *)
Lemma submitReview_local (p : ReviewParams) (clk : Clock) (api : EchoAPI) :
  deployment api = None ->
  fst (submitReview p clk api) = Ok (localTxId clk) /\
  deployment (snd (submitReview p clk api)) = None /\
  LocalReviewState.totalReviews (_localReview (snd (submitReview p clk api)))
    = LocalReviewState.totalReviews (_localReview api) + 1 /\
  LocalReviewState.currentReviewPeriod (_localReview (snd (submitReview p clk api)))
    = LocalReviewState.currentReviewPeriod (_localReview api).
Proof. intros Hl. unfold submitReview. rewrite Hl. repeat split. Qed.

Lemma advancePeriod_local_review (clk : Clock) (api : EchoAPI) :
  deployment api = None ->
  deployment (snd (advancePeriod clk api)) = None /\
  _localReview (snd (advancePeriod clk api)) = _localReview api.
Proof. intros Hl. unfold advancePeriod. rewrite Hl. split; reflexivity. Qed.

(** C2, as amended: in local-simulation mode [submitReview] takes no token
    and keeps no review-nullifier set.  Every submission succeeds and is
    counted: a second one in the same period is not rejected with
    [DoubleReview], and one made after [advancePeriod] succeeds as well.
    [advancePeriod] leaves [currentReviewPeriod] as it is (the class has no
    [advanceReviewPeriod]). *)
Theorem C2_submitReview_local (api : EchoAPI) (p : ReviewParams)
    (clk1 clk2 clk3 clk4 : Clock) :
  deployment api = None ->
  let api1 := snd (submitReview p clk1 api) in
  let api2 := snd (submitReview p clk2 api1) in
  let api3 := snd (advancePeriod clk3 api2) in
  let api4 := snd (submitReview p clk4 api3) in
  fst (submitReview p clk1 api) = Ok (localTxId clk1) /\
  fst (submitReview p clk2 api1) = Ok (localTxId clk2) /\
  LocalReviewState.totalReviews (_localReview api2)
    = LocalReviewState.totalReviews (_localReview api) + 2 /\
  LocalReviewState.currentReviewPeriod (_localReview api2)
    = LocalReviewState.currentReviewPeriod (_localReview api) /\
  LocalReviewState.currentReviewPeriod (_localReview api3)
    = LocalReviewState.currentReviewPeriod (_localReview api) /\
  fst (submitReview p clk4 api3) = Ok (localTxId clk4) /\
  LocalReviewState.totalReviews (_localReview api4)
    = LocalReviewState.totalReviews (_localReview api) + 3.
Proof.
  intros Hl api1 api2 api3 api4.
  destruct (submitReview_local p clk1 api Hl) as (Hok1 & Hl1 & Ht1 & Hp1).
  fold api1 in Hl1, Ht1, Hp1.
  destruct (submitReview_local p clk2 api1 Hl1) as (Hok2 & Hl2 & Ht2 & Hp2).
  fold api2 in Hl2, Ht2, Hp2.
  destruct (advancePeriod_local_review clk3 api2 Hl2) as (Hl3 & Hr3).
  fold api3 in Hl3, Hr3.
  destruct (submitReview_local p clk4 api3 Hl3) as (Hok4 & Hl4 & Ht4 & Hp4).
  fold api4 in Hl4, Ht4, Hp4.
  rewrite Hr3 in Ht4.
  repeat split; try assumption; try congruence; try lia.
Qed.

Lemma C2_submitReview_local_witness :
  deployment newEchoAPI = None /\
  fst (submitReview review0 clock1
         (snd (submitReview review0 clock0 newEchoAPI)))
  = Ok (localTxId clock1).
Proof.
  split; [reflexivity|].
  destruct (C2_submitReview_local newEchoAPI review0 clock0 clock1 clock1 clock1
              eq_refl) as (_ & H & _).
  exact H.
Defined.

(** C2 fails as stated: on a fresh instance a second submission of the same
    review in the same period is accepted and counted. *)
Lemma C2_second_review_accepted :
  let api1 := snd (submitReview review0 clock0 newEchoAPI) in
  let api2 := snd (submitReview review0 clock1 api1) in
  fst (submitReview review0 clock1 api1) = Ok "local_tx_18bcfe65260" /\
  LocalReviewState.currentReviewPeriod (_localReview api1) = 1 /\
  LocalReviewState.currentReviewPeriod (_localReview api2) = 1 /\
  LocalReviewState.totalReviews (_localReview api1) = 1 /\
  LocalReviewState.totalReviews (_localReview api2) = 2.
Proof. repeat split; reflexivity. Qed.

(** ** Payments *)

Lemma paymentsInBand_cons (k : Z) (p : SalaryPaymentParams * Clock)
    (ps : list (SalaryPaymentParams * Clock)) :
  paymentsInBand k (p :: ps)
  = (if decide (salaryBand (fst p) = Double.ofZ k) then 1 else 0)
    + paymentsInBand k ps.
Proof.
  unfold paymentsInBand. rewrite filter_cons.
  case_decide; simpl; lia.
Qed.

(** With every band an integer from 1 to 5, the payments counted in band
    [k] are those that name [k]. *)
Lemma countedIn_paymentsInBand (k : Z) (ps : list (SalaryPaymentParams * Clock)) :
  1 <= k <= 5 ->
  Forall (fun p => exists b, 1 <= b <= 5 /\ salaryBand (fst p) = Double.ofZ b) ps ->
  countedIn k (map fst ps) = paymentsInBand k ps.
Proof.
  intros Hk. induction 1 as [|p ps (b & Hb & Hp) _ IH]; [reflexivity|].
  simpl map. rewrite countedIn_cons, paymentsInBand_cons, IH, Hp.
  rewrite bandCounted_ofZ by safe_tac.
  assert (clampBand b = b) as -> by (unfold clampBand; repeat case_decide; lia).
  destruct (decide (b = k)) as [->|Hne].
  - by rewrite !decide_True.
  - rewrite !decide_False; [done| |congruence].
    intros E. apply DoubleFacts.ofZ_inj in E; [done| |]; safe_tac.
Qed.

(** C3: [n] [processSalaryPayment] calls on a fresh instance, with bands
    [b_1..b_n] each in 1..5 and any amounts, all succeed; afterwards
    [totalPaymentsProcessed] is [n] and, for every band [k] in 1..5, the
    counter of band [k] is the number of calls that named [k].  This is what
    the state query shows whenever it answers, and it answers when the
    amounts, none negative, add up to less than [2^53]. *)
Theorem C3_counter_conservation (ps : list (SalaryPaymentParams * Clock)) :
  Forall (fun p => exists b, 1 <= b <= 5 /\ salaryBand (fst p) = Double.ofZ b) ps ->
  let api := run (paymentCalls ps) newEchoAPI in
  Forall successful (replies (paymentCalls ps) newEchoAPI) /\
  LocalSalaryState.totalPaymentsProcessed (_localSalary api)
    = Z.of_nat (List.length ps) /\
  (forall k, 1 <= k <= 5 ->
     Js.get (LocalSalaryState.bands (_localSalary api)) (k - 1)
     = Some (Js.Num (paymentsInBand k ps))) /\
  (forall s, fst (getSalaryState api) = Ok s ->
     SalaryLedgerState.totalPaymentsProcessed s = Z.of_nat (List.length ps) /\
     forall k, 1 <= k <= 5 ->
       bandAt (SalaryLedgerState.salaryBands s) k = paymentsInBand k ps) /\
  (safeAmounts 0 (map fst ps) -> exists s, fst (getSalaryState api) = Ok s).
Proof.
  intros Hb api.
  assert (Hlen : List.length (paymentsOf (paymentCalls ps)) = List.length ps).
  { by rewrite paymentsOf_paymentCalls, length_map. }
  assert (Hbands : forall k, 1 <= k <= 5 ->
            Js.get (LocalSalaryState.bands (_localSalary api)) (k - 1)
            = Some (Js.Num (paymentsInBand k ps))).
  { intros k Hk. subst api.
    rewrite (bands_run _ newEchoAPI (k - 1) 0 eq_refl).
    - rewrite paymentsOf_paymentCalls. replace (k - 1 + 1) with k by lia.
      by rewrite countedIn_paymentsInBand.
    - assert (Hc : k = 1 \/ k = 2 \/ k = 3 \/ k = 4 \/ k = 5) by lia.
      by destruct Hc as [->|[->|[->|[->| ->]]]]. }
  assert (Htotal : LocalSalaryState.totalPaymentsProcessed (_localSalary api)
                   = Z.of_nat (List.length ps)).
  { subst api.
    destruct (salary_counts_run (paymentCalls ps) newEchoAPI eq_refl) as (-> & _).
    rewrite Hlen. reflexivity. }
  split; [|split; [exact Htotal|split; [exact Hbands|split]]].
  - clear. generalize newEchoAPI, (eq_refl : deployment newEchoAPI = None).
    induction ps as [|p ps IH]; intros a Hl; [constructor|].
    simpl. constructor.
    + unfold successful, reply, processSalaryPayment. rewrite Hl. simpl. eauto.
    + apply IH. by apply step_local.
  - intros s Hs. split.
    + apply getSalaryState_Ok in Hs. destruct Hs as (_ & _ & _ & -> & _).
      exact Htotal.
    + intros k Hk. pose proof (getSalaryState_bandAt _ _ k Hs Hk) as H.
      rewrite (Hbands k Hk) in H. congruence.
  - intros Hsafe. subst api.
    destruct (getSalaryState_run (paymentCalls ps) newEchoAPI _ eq_refl)
      as (s & Hs & _); [by rewrite paymentsOf_paymentCalls|].
    by exists s.
Qed.

Lemma C3_counter_conservation_witness :
  Forall (fun p => exists b, 1 <= b <= 5 /\ salaryBand (fst p) = Double.ofZ b)
         [(payment0, clock0); (payment1, clock1)] /\
  exists s,
    fst (getSalaryState
           (run (paymentCalls [(payment0, clock0); (payment1, clock1)]) newEchoAPI))
      = Ok s /\
    SalaryLedgerState.totalPaymentsProcessed s = 2 /\
    bandAt (SalaryLedgerState.salaryBands s) 3 = 2.
Proof.
  assert (Hb : Forall (fun p => exists b, 1 <= b <= 5
                                          /\ salaryBand (fst p) = Double.ofZ b)
                      [(payment0, clock0); (payment1, clock1)]).
  { repeat constructor; exists 3; (split; [lia|reflexivity]). }
  split; [exact Hb|].
  destruct (C3_counter_conservation _ Hb) as (_ & _ & _ & Hq & Hex).
  destruct Hex as [s Hs].
  { split; [lia|]. split; [repeat constructor; simpl; lia|].
    simpl. reflexivity. }
  exists s. split; [exact Hs|].
  destruct (Hq s Hs) as (Ht & Hk). split; [exact Ht|].
  rewrite (Hk 3) by lia. reflexivity.
Defined.
(** ** Reviews *)

Lemma distOf_reviewAfter (p : ReviewParams) (r : ReviewLedgerState.t) (c : Category) :
  distOf c (ReviewLedgerState.ratingAggregates (reviewAfter (SubmitReview p) r))
  = bumped (distOf c (ReviewLedgerState.ratingAggregates r))
           (scoreOf c (ratings p)).
Proof. destruct c; reflexivity. Qed.

Lemma submitReview_local_Ok (p : ReviewParams) (clk : Clock) (api : EchoAPI) :
  deployment api = None -> fst (submitReview p clk api) = Ok (localTxId clk).
Proof. intros Hl. unfold submitReview. rewrite Hl. reflexivity. Qed.

(** C4: an accepted [submitReview] whose five scores are each in 1..5 adds
    one to [totalReviews] and, in every category, one to the counter of the
    score given and nothing to the four others. *)
Theorem C4_submitReview_counters (api : EchoAPI) (p : ReviewParams) (clk : Clock)
    (r : ReviewLedgerState.t) :
  fst (getReviewState api) = Ok r ->
  (forall c, 1 <= scoreOf c (ratings p) <= 5) ->
  fst (submitReview p clk api) = Ok (localTxId clk) /\
  exists r',
    fst (getReviewState (snd (submitReview p clk api))) = Ok r' /\
    ReviewLedgerState.totalReviews r' = ReviewLedgerState.totalReviews r + 1 /\
    (forall c j, 1 <= j <= 5 ->
       ratingAt (distOf c (ReviewLedgerState.ratingAggregates r')) j
       = ratingAt (distOf c (ReviewLedgerState.ratingAggregates r)) j
         + (if decide (j = scoreOf c (ratings p)) then 1 else 0)) /\
    (forall c,
       ratingSum (distOf c (ReviewLedgerState.ratingAggregates r'))
       = ratingSum (distOf c (ReviewLedgerState.ratingAggregates r)) + 1).
Proof.
  intros Hr Hscores. split.
  - apply getReviewState_Ok in Hr. apply submitReview_local_Ok, Hr.
  - exists (reviewAfter (SubmitReview p) r). split.
    + exact (getReviewState_call (SubmitReview p) clk api r Hr).
    + split; [reflexivity|]. split.
      * intros c j Hj. rewrite distOf_reviewAfter. by apply ratingAt_bumped.
      * intros c. rewrite distOf_reviewAfter, ratingSum_bumped.
        rewrite decide_True by apply Hscores. reflexivity.
Qed.

Lemma C4_submitReview_counters_witness :
  (forall c, 1 <= scoreOf c (ratings review0) <= 5) /\
  exists r r',
    fst (getReviewState newEchoAPI) = Ok r /\
    fst (getReviewState (snd (submitReview review0 clock0 newEchoAPI))) = Ok r' /\
    ReviewLedgerState.totalReviews r' = ReviewLedgerState.totalReviews r + 1.
Proof.
  assert (Hs : forall c, 1 <= scoreOf c (ratings review0) <= 5).
  { intros []; simpl; lia. }
  split; [exact Hs|].
  destruct (C4_submitReview_counters newEchoAPI review0 clock0 _ eq_refl Hs)
    as (_ & r' & Hr' & Ht & _).
  eexists. exists r'. split; [reflexivity|]. split; [exact Hr'|exact Ht].
Defined.

(** ** The amount of a payment *)

(** What the local simulation does with the amount: it adds it to
    [totalPayrollAmount], which the state query returns; exactly, as long
    as the total stays a safe integer. *)
Lemma processSalaryPayment_adds_amount (api : EchoAPI) (p : SalaryPaymentParams)
    (clk : Clock) (s : SalaryLedgerState.t) :
  fst (getSalaryState api) = Ok s ->
  Double.safe (amount p) ->
  Double.safe (SalaryLedgerState.totalPayrollAmount s + amount p) ->
  exists s',
    fst (getSalaryState (snd (processSalaryPayment p clk api))) = Ok s' /\
    SalaryLedgerState.totalPayrollAmount s'
      = SalaryLedgerState.totalPayrollAmount s + amount p.
Proof.
  intros Hs Ha Hsum. exists (salaryAfter (ProcessSalaryPayment p) s). split.
  - apply (getSalaryState_call (ProcessSalaryPayment p) clk api s Hs).
    intros q Hq. by inversion Hq; subst.
  - reflexivity.
Qed.

(** Two payments that differ in the amount only leave salary states that
    differ in [totalPayrollAmount] only, by the difference of the amounts. *)
Lemma processSalaryPayment_amount_only (api : EchoAPI) (p1 p2 : SalaryPaymentParams)
    (clk : Clock) (s : SalaryLedgerState.t) :
  fst (getSalaryState api) = Ok s ->
  salaryBand p1 = salaryBand p2 ->
  Double.safe (amount p1) ->
  Double.safe (SalaryLedgerState.totalPayrollAmount s + amount p1) ->
  Double.safe (amount p2) ->
  Double.safe (SalaryLedgerState.totalPayrollAmount s + amount p2) ->
  exists s1 s2,
    fst (getSalaryState (snd (processSalaryPayment p1 clk api))) = Ok s1 /\
    fst (getSalaryState (snd (processSalaryPayment p2 clk api))) = Ok s2 /\
    sameButPayroll s1 s2 /\
    SalaryLedgerState.totalPayrollAmount s1 - SalaryLedgerState.totalPayrollAmount s2
      = amount p1 - amount p2.
Proof.
  intros Hs Hb Ha1 Hs1 Ha2 Hs2.
  exists (salaryAfter (ProcessSalaryPayment p1) s),
         (salaryAfter (ProcessSalaryPayment p2) s).
  split.
  { apply (getSalaryState_call (ProcessSalaryPayment p1) clk api s Hs).
    intros q Hq. by inversion Hq; subst. }
  split.
  { apply (getSalaryState_call (ProcessSalaryPayment p2) clk api s Hs).
    intros q Hq. by inversion Hq; subst. }
  split.
  - unfold sameButPayroll; simpl. rewrite Hb. repeat split.
  - simpl. lia.
Qed.

(** The deployed branch does not read the amount: the circuit call carries
    the key and the band, a band that is no integer being turned down by
    [BigInt]. *)
Lemma processSalaryPayment_deployed (api : EchoAPI) (p : SalaryPaymentParams)
    (clk : Clock) :
  deployment api <> None ->
  processSalaryPayment p clk api
  = (salaryBand ← Double.BigInt (salaryBand p);
     OnChain (TxProcessSalaryPayment (employeePublicKey p) salaryBand), api).
Proof.
  intros Hd. unfold processSalaryPayment.
  destruct (deployment api); [reflexivity|congruence].
Qed.

(** C5, on the code: two payments on a fresh instance that agree on the key,
    the period and the band and differ in the amount leave different public
    salary states; each state shows the amount paid as
    [totalPayrollAmount]. *)
Theorem C5_amount_shows_in_public_state :
  let s0 := fst (getSalaryState (snd (processSalaryPayment payment0 clock0 newEchoAPI))) in
  let s1 := fst (getSalaryState (snd (processSalaryPayment payment1 clock0 newEchoAPI))) in
  employeePublicKey payment0 = employeePublicKey payment1 /\
  period payment0 = period payment1 /\
  salaryBand payment0 = salaryBand payment1 /\
  SalaryLedgerState.totalPayrollAmount <$> s0 = Ok (amount payment0) /\
  SalaryLedgerState.totalPayrollAmount <$> s1 = Ok (amount payment1) /\
  s0 <> s1.
Proof. repeat split; try reflexivity. vm_compute. discriminate. Qed.

(** ** Offboarding *)

(** C6, as amended: in local-simulation mode [offboardEmployee] leaves the
    list of onboarded commitments as it is and records no nullifier (the
    local state has no revocation set); it lowers [employeeCount] by one
    unless the count is zero.  Apart from the round counter nothing else
    changes, and [proveEmployment] still succeeds afterwards. *)
Theorem C6_offboardEmployee_local (api : EchoAPI) (nullifier : string) (clk : Clock) :
  deployment api = None ->
  let o := _localOrg api in
  let api' := snd (offboardEmployee nullifier clk api) in
  let o' := _localOrg api' in
  fst (offboardEmployee nullifier clk api) = Ok (localTxId clk) /\
  LocalOrgState.employees o' = LocalOrgState.employees o /\
  LocalOrgState.hrOperators o' = LocalOrgState.hrOperators o /\
  LocalOrgState.employeeCount o'
    = (if decide (LocalOrgState.employeeCount o > 0)
       then LocalOrgState.employeeCount o - 1
       else LocalOrgState.employeeCount o) /\
  LocalOrgState.round o' = LocalOrgState.round o + 1 /\
  LocalOrgState.hrOperatorCount o' = LocalOrgState.hrOperatorCount o /\
  LocalOrgState.auditorCount o' = LocalOrgState.auditorCount o /\
  LocalOrgState.status o' = LocalOrgState.status o /\
  _localSalary api' = _localSalary api /\
  _localReview api' = _localReview api /\
  _publishedReviews api' = _publishedReviews api /\
  _periodTrends api' = _periodTrends api /\
  _nextAnonId api' = _nextAnonId api /\
  deployment api' = None /\
  proveEmployment api' = (Ok true, api').
Proof.
  intros Hl. unfold offboardEmployee, proveEmployment. rewrite Hl. simpl.
  rewrite Hl. repeat split.
  case_bool_decide; case_decide; first [reflexivity | contradiction].
Qed.

Lemma C6_offboardEmployee_local_witness :
  deployment (snd (onboardEmployee "h1" clock0 newEchoAPI)) = None /\
  LocalOrgState.employees
    (_localOrg (snd (offboardEmployee "n1" clock1
                       (snd (onboardEmployee "h1" clock0 newEchoAPI)))))
  = ["h1"].
Proof.
  split; [reflexivity|].
  destruct (C6_offboardEmployee_local
              (snd (onboardEmployee "h1" clock0 newEchoAPI)) "n1" clock1 eq_refl)
    as (_ & He & _).
  rewrite He. reflexivity.
Defined.

(** C6 fails as stated: offboarding the one onboarded member takes the
    member count shown by the state query from 1 to 0. *)
Lemma C6_offboard_lowers_count :
  let api1 := snd (onboardEmployee "h1" clock0 newEchoAPI) in
  let api2 := snd (offboardEmployee "n1" clock1 api1) in
  OrganizationLedgerState.employeeCount <$> fst (getOrganizationState api1) = Ok 1 /\
  OrganizationLedgerState.employeeCount <$> fst (getOrganizationState api2) = Ok 0.
Proof. split; reflexivity. Qed.

(** ** Period advance *)



(** ** Counters only grow *)

Lemma hit_nonneg (k target : Z) : 0 <= hit k target <= 1.
Proof. unfold hit. case_decide; lia. Qed.

Lemma ratingsLe_reviewAfter (c : Call) (r : ReviewLedgerState.t) :
  ratingsLe r (reviewAfter c r).
Proof.
  intros cat j Hj. destruct c; try (simpl; lia).
  rewrite distOf_reviewAfter, ratingAt_bumped by exact Hj.
  pose proof (hit_nonneg j (scoreOf cat (ratings params))). lia.
Qed.

(** The review counters over a run: the query answers, and no counter is
    below what it was. *)
Lemma ratingsLe_run (cs : list (Call * Clock)) :
  forall (api : EchoAPI) (r : ReviewLedgerState.t),
  fst (getReviewState api) = Ok r ->
  exists r', fst (getReviewState (run cs api)) = Ok r' /\ ratingsLe r r'.
Proof.
  induction cs as [|[c clk] cs IH]; intros api r Hr.
  - exists r. split; [exact Hr|]. intros c j _. lia.
  - rewrite run_cons.
    destruct (IH (step (c, clk) api) _ (getReviewState_call c clk api r Hr))
      as (r' & Hr' & Hq).
    exists r'. split; [exact Hr'|].
    intros cat j Hj. pose proof (ratingsLe_reviewAfter c r cat j Hj).
    pose proof (Hq cat j Hj). lia.
Qed.

(** C8: no operation lowers a counter.  Whatever calls are made, in whatever
    order and with whatever arguments (any bands, any amounts, any scores),
    each of the 25 rating counters the review query shows afterwards and each
    of the five band counters the instance holds afterwards is at least what
    it was before; so is every band counter the salary query shows whenever
    it answers, and it answers when the amounts paid, none negative, keep
    [totalPayrollAmount] below [2^53]. *)
Theorem C8_counters_never_decrease (cs : list (Call * Clock)) :
  forall (api : EchoAPI) (s : SalaryLedgerState.t) (r : ReviewLedgerState.t),
  fst (getSalaryState api) = Ok s ->
  fst (getReviewState api) = Ok r ->
  (exists r', fst (getReviewState (run cs api)) = Ok r' /\ ratingsLe r r') /\
  (forall k, 1 <= k <= 5 ->
     exists x,
       Js.get (LocalSalaryState.bands (_localSalary (run cs api))) (k - 1)
       = Some (Js.Num x) /\
       bandAt (SalaryLedgerState.salaryBands s) k <= x) /\
  (forall s', fst (getSalaryState (run cs api)) = Ok s' -> bandsLe s s') /\
  (safeAmounts (SalaryLedgerState.totalPayrollAmount s) (paymentsOf cs) ->
   exists s', fst (getSalaryState (run cs api)) = Ok s').
Proof.
  intros api s r Hs Hr. split; [by apply ratingsLe_run|].
  pose proof Hs as Hl. apply getSalaryState_Ok in Hl. destruct Hl as (Hl & _).
  split; [|split].
  - intros k Hk. eexists. split.
    + apply bands_run; [exact Hl|]. by apply getSalaryState_bandAt.
    + pose proof (countedIn_nonneg (k - 1 + 1) (paymentsOf cs)). lia.
  - intros s' Hs' k Hk.
    destruct (getSalaryState_after_run cs api s s' Hs Hs') as (_ & _ & _ & Hb).
    rewrite (Hb k Hk). pose proof (countedIn_nonneg k (paymentsOf cs)). lia.
  - intros Hsafe.
    destruct (getSalaryState_run cs api s Hs Hsafe) as (s' & Hs' & _).
    by exists s'.
Qed.

Lemma C8_counters_never_decrease_witness :
  exists s r s' r',
    fst (getSalaryState newEchoAPI) = Ok s /\
    fst (getReviewState newEchoAPI) = Ok r /\
    fst (getSalaryState
           (run [(ProcessSalaryPayment payment0, clock0);
                 (SubmitReview review6, clock1); (AdvancePeriod, clock1)]
                newEchoAPI)) = Ok s' /\
    fst (getReviewState
           (run [(ProcessSalaryPayment payment0, clock0);
                 (SubmitReview review6, clock1); (AdvancePeriod, clock1)]
                newEchoAPI)) = Ok r' /\
    bandsLe s s' /\ ratingsLe r r'.
Proof.
  destruct (C8_counters_never_decrease
              [(ProcessSalaryPayment payment0, clock0);
               (SubmitReview review6, clock1); (AdvancePeriod, clock1)]
              newEchoAPI _ _ eq_refl eq_refl)
    as ((r' & Hr' & Hq) & _ & Hb & Hex).
  destruct Hex as [s' Hs'].
  { split; [simpl; lia|]. split; [repeat constructor; simpl; lia|].
    simpl. reflexivity. }
  eexists. eexists. exists s', r'.
  split; [reflexivity|]. split; [reflexivity|].
  split; [exact Hs'|]. split; [exact Hr'|]. split; [exact (Hb s' Hs')|exact Hq].
Defined.
(** ** The band clamp and the sum of the band counters *)






(** ** Scores outside 1..5 *)

Lemma countersOf_call (cat : Category) (c : Call) (clk : Clock) (api : EchoAPI) :
  deployment api = None ->
  countersOf cat (LocalReviewState.ratingCounters (_localReview (snd (call c clk api))))
  = match c with
    | SubmitReview p =>
        Js.postIncrement
          (countersOf cat (LocalReviewState.ratingCounters (_localReview api)))
          (scoreOf cat (ratings p) - 1)
    | _ => countersOf cat (LocalReviewState.ratingCounters (_localReview api))
    end.
Proof.
  intros Hl. destruct c, cat; unfold_methods; rewrite Hl; reflexivity.
Qed.

Lemma get_zeros5_outside (i : Z) : ~ 0 <= i <= 4 -> Js.get zeros5 i = None.
Proof.
  intros Hi. unfold Js.get, zeros5, Js.ofList. simpl.
  rewrite !lookup_insert_ne by lia. apply lookup_empty.
Qed.

Lemma reviewInvariant_new : reviewInvariant newEchoAPI.
Proof.
  eexists. split; [reflexivity|]. split.
  - intros []; simpl; unfold ratingSum; simpl; lia.
  - intros c i Hi. left. destruct c; simpl; by apply get_zeros5_outside.
Qed.

Lemma reviewInvariant_step (c : Call * Clock) (api : EchoAPI) :
  reviewInvariant api -> reviewInvariant (step c api).
Proof.
  destruct c as [c clk]. intros (r & Hr & Hsum & Hout).
  pose proof Hr as Hl. apply getReviewState_Ok in Hl. destruct Hl as (Hl & _).
  exists (reviewAfter c r). split; [|split].
  - exact (getReviewState_call c clk api r Hr).
  - intros cat. specialize (Hsum cat). destruct c; try exact Hsum.
    rewrite distOf_reviewAfter, ratingSum_bumped. simpl. case_decide; lia.
  - intros cat i Hi. unfold step; simpl fst; simpl snd.
    rewrite countersOf_call by exact Hl.
    specialize (Hout cat i Hi). simpl in Hout. destruct c; try exact Hout.
    destruct (decide (scoreOf cat (ratings params) - 1 = i)) as [<-|Hne].
    + right. rewrite get_postIncrement_eq.
      destruct Hout as [-> | ->]; reflexivity.
    + rewrite get_postIncrement_ne by exact Hne. exact Hout.
Qed.

Lemma reviewInvariant_reachable (api : EchoAPI) :
  reachable api -> reviewInvariant api.
Proof.
  intros [cs ->]. induction cs as [|c cs IH] using rev_ind.
  - apply reviewInvariant_new.
  - rewrite run_app. simpl. by apply reviewInvariant_step.
Qed.

(** C10: [submitReview] does not check the scores.  In local-simulation mode
    a review whose score for some category is outside 1..5 is accepted and
    adds one to [totalReviews]; the write for that category lands outside the
    five counters (it leaves [NaN] at index [score - 1]) and the five
    counters of the category keep their values, so afterwards [totalReviews]
    exceeds their sum. *)
Theorem C10_score_out_of_range (api : EchoAPI) (p : ReviewParams) (clk : Clock)
    (c : Category) :
  reachable api ->
  ~ 1 <= scoreOf c (ratings p) <= 5 ->
  fst (submitReview p clk api) = Ok (localTxId clk) /\
  exists r r',
    fst (getReviewState api) = Ok r /\
    fst (getReviewState (snd (submitReview p clk api))) = Ok r' /\
    ReviewLedgerState.totalReviews r' = ReviewLedgerState.totalReviews r + 1 /\
    (forall j, 1 <= j <= 5 ->
       ratingAt (distOf c (ReviewLedgerState.ratingAggregates r')) j
       = ratingAt (distOf c (ReviewLedgerState.ratingAggregates r)) j) /\
    Js.get (countersOf c (LocalReviewState.ratingCounters
                            (_localReview (snd (submitReview p clk api)))))
           (scoreOf c (ratings p) - 1) = Some Js.NaN /\
    ratingSum (distOf c (ReviewLedgerState.ratingAggregates r'))
      < ReviewLedgerState.totalReviews r'.
Proof.
  intros Hreach Hscore.
  destruct (reviewInvariant_reachable api Hreach) as (r & Hr & Hsum & Hout).
  pose proof Hr as Hl. apply getReviewState_Ok in Hl. destruct Hl as (Hl & _).
  split; [by apply submitReview_local_Ok|].
  exists r, (reviewAfter (SubmitReview p) r).
  split; [exact Hr|]. split.
  { exact (getReviewState_call (SubmitReview p) clk api r Hr). }
  split; [reflexivity|]. split; [|split].
  - intros j Hj. rewrite distOf_reviewAfter, ratingAt_bumped by exact Hj.
    unfold hit. rewrite decide_False by lia. lia.
  - pose proof (countersOf_call c (SubmitReview p) clk api Hl) as Hc.
    simpl in Hc. rewrite Hc, get_postIncrement_eq.
    destruct (Hout c (scoreOf c (ratings p) - 1)) as [-> | ->];
      [lia | reflexivity | reflexivity].
  - rewrite distOf_reviewAfter, ratingSum_bumped.
    rewrite decide_False by exact Hscore. specialize (Hsum c). simpl. lia.
Qed.

Lemma C10_score_out_of_range_witness :
  reachable newEchoAPI /\
  ~ 1 <= scoreOf Culture (ratings review6) <= 5 /\
  ~ 1 <= scoreOf Compensation (ratings review6) <= 5 /\
  fst (submitReview review6 clock0 newEchoAPI) = Ok (localTxId clock0) /\
  exists r',
    fst (getReviewState (snd (submitReview review6 clock0 newEchoAPI))) = Ok r' /\
    ratingSum (distOf Culture (ReviewLedgerState.ratingAggregates r'))
      < ReviewLedgerState.totalReviews r' /\
    ratingSum (distOf Compensation (ReviewLedgerState.ratingAggregates r'))
      < ReviewLedgerState.totalReviews r'.
Proof.
  assert (Hreach : reachable newEchoAPI) by (exists []; reflexivity).
  assert (H6 : ~ 1 <= scoreOf Culture (ratings review6) <= 5) by (simpl; lia).
  assert (H0 : ~ 1 <= scoreOf Compensation (ratings review6) <= 5) by (simpl; lia).
  split; [exact Hreach|]. split; [exact H6|]. split; [exact H0|].
  destruct (C10_score_out_of_range newEchoAPI review6 clock0 Culture Hreach H6)
    as (Hok & r & r' & _ & Hr' & _ & _ & _ & Hlt).
  destruct (C10_score_out_of_range newEchoAPI review6 clock0 Compensation Hreach H0)
    as (_ & q & q' & _ & Hq' & _ & _ & _ & Hlt').
  split; [exact Hok|]. exists r'. split; [exact Hr'|]. split; [exact Hlt|].
  rewrite Hr' in Hq'. inversion Hq'; subst q'. exact Hlt'.
Defined.

(** ** Which ledger a call writes *)

(** X1: a call writes the ledger it belongs to and nothing else: the
    organization calls leave the salary and review state, the published
    reviews and the trends alone; a payment or a period advance leaves the
    organization and review state and the published reviews alone; a review
    leaves the organization and salary state and the trends alone; the two
    proofs and the receipt confirmation change nothing at all.  No call
    changes [deployment]. *)
Theorem call_writes_its_ledger (c : Call) (clk : Clock) (api : EchoAPI) :
  let api' := snd (call c clk api) in
  deployment api' = deployment api /\
  match ledgerOf c with
  | Some OrgLedger =>
      _localSalary api' = _localSalary api /\
      _localReview api' = _localReview api /\
      _publishedReviews api' = _publishedReviews api /\
      _nextAnonId api' = _nextAnonId api /\
      _periodTrends api' = _periodTrends api
  | Some SalaryLedger =>
      _localOrg api' = _localOrg api /\
      _localReview api' = _localReview api /\
      _publishedReviews api' = _publishedReviews api /\
      _nextAnonId api' = _nextAnonId api
  | Some ReviewLedger =>
      _localOrg api' = _localOrg api /\
      _localSalary api' = _localSalary api /\
      _periodTrends api' = _periodTrends api
  | None => api' = api
  end.
Proof.
  destruct c; unfold_methods; destruct (deployment api) eqn:E; simpl;
    rewrite ?E; repeat split; by destruct api.
Qed.

(** X2: independent calls commute: made in either order they leave the same
    instance. *)
Theorem independent_calls_commute (c1 c2 : Call) (clk1 clk2 : Clock) (api : EchoAPI) :
  independent c1 c2 = true ->
  step (c2, clk2) (step (c1, clk1) api) = step (c1, clk1) (step (c2, clk2) api).
Proof.
  intros Hi. unfold step, call, reply.
  destruct api as [[d|] pr na tr o s r];
    destruct c1, c2; try discriminate Hi; reflexivity.
Qed.

Lemma independent_calls_commute_witness :
  independent (ProcessSalaryPayment payment0) (SubmitReview review6) = true /\
  step (SubmitReview review6, clock1)
       (step (ProcessSalaryPayment payment0, clock0) newEchoAPI)
  = step (ProcessSalaryPayment payment0, clock0)
         (step (SubmitReview review6, clock1) newEchoAPI).
Proof.
  split; [reflexivity|].
  apply (independent_calls_commute (ProcessSalaryPayment payment0)
           (SubmitReview review6) clock0 clock1 newEchoAPI).
  reflexivity.
Defined.

(** ** What a run leaves behind *)

(** X3: fields no operation writes.  Along every run the review period,
    the dispute counter, the auditor count and the status of the organization
    stay what they were; in particular [advancePeriod] does not move the
    review period, and nothing can suspend the organization or register an
    auditor. *)
Theorem fields_no_call_writes (cs : list (Call * Clock)) (api : EchoAPI) :
  LocalReviewState.currentReviewPeriod (_localReview (run cs api))
    = LocalReviewState.currentReviewPeriod (_localReview api) /\
  LocalSalaryState.activeDisputes (_localSalary (run cs api))
    = LocalSalaryState.activeDisputes (_localSalary api) /\
  LocalOrgState.auditorCount (_localOrg (run cs api))
    = LocalOrgState.auditorCount (_localOrg api) /\
  LocalOrgState.status (_localOrg (run cs api))
    = LocalOrgState.status (_localOrg api).
Proof.
  revert api. induction cs as [|[c clk] cs IH]; intros api; [done|].
  rewrite run_cons. destruct (IH (step (c, clk) api)) as (-> & -> & -> & ->).
  destruct c; unfold_methods; destruct (deployment api); done.
Qed.

(** X4: the organization lists are append-only.  In local-simulation mode
    the list of onboarded commitments after a run is the list before it
    followed by the commitments the run onboards, in call order, however
    many members the run offboards; likewise for the HR operators. *)
Theorem org_lists_append_only (cs : list (Call * Clock)) (api : EchoAPI) :
  deployment api = None ->
  LocalOrgState.employees (_localOrg (run cs api))
    = LocalOrgState.employees (_localOrg api) ++ onboardedIn cs /\
  LocalOrgState.hrOperators (_localOrg (run cs api))
    = LocalOrgState.hrOperators (_localOrg api) ++ hrOperatorsIn cs.
Proof.
  revert api. induction cs as [|[c clk] cs IH]; intros api Hl.
  - simpl. by rewrite !app_nil_r.
  - rewrite run_cons.
    destruct (IH (step (c, clk) api)) as (-> & ->).
    { unfold step. simpl. by rewrite call_deployment. }
    destruct c; unfold_methods; rewrite Hl; simpl;
      rewrite <- ?app_assoc; done.
Qed.

Lemma org_lists_append_only_witness :
  deployment newEchoAPI = None /\
  LocalOrgState.employees (_localOrg (run sampleRun newEchoAPI)) = ["h1"; "h2"] /\
  LocalOrgState.hrOperators (_localOrg (run sampleRun newEchoAPI)) = ["k1"].
Proof.
  split; [reflexivity|].
  destruct (org_lists_append_only sampleRun newEchoAPI eq_refl) as (He & Hh).
  rewrite He, Hh. split; reflexivity.
Defined.

(** X5: the organization counters of an instance that started fresh.
    [hrOperatorCount] is the number of registered keys, and [employeeCount]
    never leaves the range from 0 to the number of onboarded commitments. *)
Theorem org_counts_reachable (api : EchoAPI) :
  reachable api ->
  LocalOrgState.hrOperatorCount (_localOrg api)
    = Z.of_nat (List.length (LocalOrgState.hrOperators (_localOrg api))) /\
  0 <= LocalOrgState.employeeCount (_localOrg api)
    <= Z.of_nat (List.length (LocalOrgState.employees (_localOrg api))).
Proof.
  intros [cs ->]. induction cs as [|[c clk] cs IH] using rev_ind.
  - simpl. lia.
  - rewrite run_step_last.
    pose proof (run_local cs newEchoAPI) as Hl. simpl in Hl.
    destruct IH as (Hh & He).
    destruct c; unfold_methods; rewrite Hl; simpl;
      rewrite ?length_app; simpl; try case_bool_decide; lia.
Qed.

Lemma org_counts_reachable_witness :
  reachable (run sampleRun newEchoAPI) /\
  LocalOrgState.employeeCount (_localOrg (run sampleRun newEchoAPI)) = 1 /\
  0 <= LocalOrgState.employeeCount (_localOrg (run sampleRun newEchoAPI)) <= 2.
Proof.
  assert (Hr : reachable (run sampleRun newEchoAPI)) by (by exists sampleRun).
  split; [exact Hr|]. split; [reflexivity|].
  destruct (org_counts_reachable _ Hr) as (_ & He). exact He.
Defined.

(** X6: the salary ledger keeps the books of a run.  In local-simulation
    mode, whatever else the run calls, whatever bands it names and whatever
    amounts it pays, [totalPaymentsProcessed] grows by the number of
    payments, [currentPeriod] by the number of period advances, and [round]
    by the number of both.  [totalPayrollAmount], a double, grows by the sum
    of the amounts when these, none negative, keep it below [2^53]. *)
Theorem salary_books (cs : list (Call * Clock)) (api : EchoAPI) :
  deployment api = None ->
  let s := _localSalary api in
  let s' := _localSalary (run cs api) in
  LocalSalaryState.totalPaymentsProcessed s'
    = LocalSalaryState.totalPaymentsProcessed s
      + Z.of_nat (List.length (paymentsOf cs)) /\
  LocalSalaryState.currentPeriod s'
    = LocalSalaryState.currentPeriod s + advancesIn cs /\
  LocalSalaryState.round s'
    = LocalSalaryState.round s + Z.of_nat (List.length (paymentsOf cs))
      + advancesIn cs /\
  forall t,
    Double.toZ (LocalSalaryState.totalPayrollAmount s) = Some t ->
    safeAmounts t (paymentsOf cs) ->
    Double.toZ (LocalSalaryState.totalPayrollAmount s')
    = Some (t + totalAmount (paymentsOf cs)).
Proof.
  intros Hl s s'.
  destruct (salary_counts_run cs api Hl) as (Ht & Hc & _ & Hr).
  split; [exact Ht|]. split; [exact Hc|]. split; [exact Hr|].
  intros t Hp Hsafe. exact (payroll_run cs api t Hl Hp Hsafe).
Qed.

Lemma salary_books_witness :
  deployment newEchoAPI = None /\
  safeAmounts 0 (paymentsOf sampleRun) /\
  Double.toZ (LocalSalaryState.totalPayrollAmount
                (_localSalary (run sampleRun newEchoAPI)))
    = Some 2500000 /\
  LocalSalaryState.currentPeriod (_localSalary (run sampleRun newEchoAPI)) = 3.
Proof.
  assert (Hsafe : safeAmounts 0 (paymentsOf sampleRun)).
  { split; [lia|]. split; [repeat constructor; simpl; lia|]. simpl. reflexivity. }
  split; [reflexivity|]. split; [exact Hsafe|].
  destruct (salary_books sampleRun newEchoAPI eq_refl) as (_ & Hc & _ & Hp).
  split; [exact (Hp 0 eq_refl Hsafe)|].
  rewrite Hc. reflexivity.
Defined.
(** ** Published reviews *)

Lemma publishedFrom_length (k period : Z) (ps : list (ReviewParams * Clock)) :
  List.length (publishedFrom k period ps) = List.length ps.
Proof.
  revert k. induction ps as [|p ps IH]; intros k; [reflexivity|].
  simpl. rewrite length_app, IH. simpl. lia.
Qed.

(** The reviews of a run go in front of the list, the latest first. *)
Lemma run_publishes (cs : list (Call * Clock)) (api : EchoAPI) :
  deployment api = None ->
  _publishedReviews (run cs api)
    = publishedFrom (_nextAnonId api)
        (LocalReviewState.currentReviewPeriod (_localReview api))
        (reviewsOf cs)
      ++ _publishedReviews api /\
  _nextAnonId (run cs api)
    = _nextAnonId api + Z.of_nat (List.length (reviewsOf cs)) /\
  LocalReviewState.totalReviews (_localReview (run cs api))
    = LocalReviewState.totalReviews (_localReview api)
      + Z.of_nat (List.length (reviewsOf cs)).
Proof.
  revert api. induction cs as [|[c clk] cs IH]; intros api Hl.
  - simpl. split; [done|lia].
  - rewrite run_cons.
    destruct (IH (step (c, clk) api) (step_local _ _ Hl)) as (Hp & -> & ->).
    rewrite Hp, reviewsOf_cons. clear Hp IH.
    destruct c; unfold_methods; rewrite Hl; simpl fst; simpl snd;
      cbn [_nextAnonId _publishedReviews _localReview
           LocalReviewState.totalReviews LocalReviewState.currentReviewPeriod
           publishedFrom List.length];
      rewrite ?Nat2Z.inj_succ, <- ?app_assoc; (split; [done|lia]).
Qed.

(** X7: what [submitReview] publishes.  In local-simulation mode the list
    returned by [getPublishedReviews] after a run is the list before it with
    the reviews of the run put in front, the latest first; each carries the
    ratings and the text as submitted, the next free number in its label
    (numbers go up by one per review), the review period of the instance and
    [verified = true].  [totalReviews] and [_nextAnonId] grow by the number
    of reviews. *)
Theorem published_reviews_of_run (cs : list (Call * Clock)) (api : EchoAPI) :
  deployment api = None ->
  fst (getPublishedReviews (run cs api))
    = Ok (publishedFrom (_nextAnonId api)
            (LocalReviewState.currentReviewPeriod (_localReview api))
            (reviewsOf cs)
          ++ _publishedReviews api) /\
  _nextAnonId (run cs api)
    = _nextAnonId api + Z.of_nat (List.length (reviewsOf cs)) /\
  LocalReviewState.totalReviews (_localReview (run cs api))
    = LocalReviewState.totalReviews (_localReview api)
      + Z.of_nat (List.length (reviewsOf cs)).
Proof.
  intros Hl. destruct (run_publishes cs api Hl) as (Hp & Hn & Ht).
  unfold getPublishedReviews. cbn [fst]. rewrite Hp. by repeat split.
Qed.

Lemma published_reviews_of_run_witness :
  deployment newEchoAPI = None /\
  fmap (M := list) PublishedReview.anonId
    <$> fst (getPublishedReviews (run sampleRun newEchoAPI))
    = Ok ["Anonymous Employee #2"; "Anonymous Employee #1"] /\
  _nextAnonId (run sampleRun newEchoAPI) = 3.
Proof.
  split; [reflexivity|].
  destruct (published_reviews_of_run sampleRun newEchoAPI eq_refl) as (Hp & Hn & _).
  rewrite Hp, Hn. split; reflexivity.
Defined.

Lemma publishedFrom_lookup (k period : Z) (ps : list (ReviewParams * Clock))
    (i : nat) (r : PublishedReview.t) :
  publishedFrom k period ps !! i = Some r ->
  PublishedReview.anonId r
    = "Anonymous Employee #" +:+ pretty (k + Z.of_nat (List.length ps) - 1 - Z.of_nat i) /\
  PublishedReview.period r = period /\
  PublishedReview.verified r = true.
Proof.
  revert k i. induction ps as [|p ps IH]; intros k i Hi; [discriminate|].
  simpl in Hi. apply lookup_app_Some in Hi as [Hi | [Hge Hi]].
  - destruct (IH _ _ Hi) as (-> & -> & ->). repeat split.
    do 2 f_equal. simpl List.length. lia.
  - rewrite publishedFrom_length in Hge, Hi.
    destruct (i - List.length ps)%nat as [|n] eqn:E; [|discriminate].
    simpl in Hi. injection Hi as <-. simpl. repeat split.
    do 2 f_equal. lia.
Qed.

(** X8: the published reviews of an instance that started fresh and has
    run in local-simulation mode ever since (no deployment was configured).
    There are as many as [totalReviews]; the review at position [i] (the
    latest at 0) is labelled [Anonymous Employee #(totalReviews - i)], so
    labels are distinct and count down; and every one carries period 1 and
    [verified = true], however often the run advanced the period. *)
Theorem published_reviews_reachable (api : EchoAPI) :
  reachable api ->
  let n := LocalReviewState.totalReviews (_localReview api) in
  Z.of_nat (List.length (_publishedReviews api)) = n /\
  _nextAnonId api = n + 1 /\
  forall (i : nat) (r : PublishedReview.t),
    _publishedReviews api !! i = Some r ->
    PublishedReview.anonId r
      = "Anonymous Employee #" +:+ pretty (n - Z.of_nat i) /\
    PublishedReview.period r = 1 /\
    PublishedReview.verified r = true.
Proof.
  intros [cs ->].
  destruct (run_publishes cs newEchoAPI eq_refl) as (Hp & Hn & Ht).
  simpl in Hp, Hn, Ht. rewrite app_nil_r in Hp. cbv zeta.
  rewrite Hp, Hn, Ht, publishedFrom_length. split; [lia|]. split; [lia|].
  intros i r Hi. destruct (publishedFrom_lookup _ _ _ _ _ Hi) as (-> & -> & ->).
  repeat split. do 2 f_equal. lia.
Qed.

Lemma published_reviews_reachable_witness :
  reachable (run sampleRun newEchoAPI) /\
  LocalReviewState.totalReviews (_localReview (run sampleRun newEchoAPI)) = 2 /\
  Z.of_nat (List.length (_publishedReviews (run sampleRun newEchoAPI))) = 2.
Proof.
  assert (Hr : reachable (run sampleRun newEchoAPI)) by (by exists sampleRun).
  split; [exact Hr|]. split; [reflexivity|].
  destruct (published_reviews_reachable _ Hr) as (Hlen & _).
  rewrite Hlen. reflexivity.
Defined.

(** ** Period trends *)

Lemma findIndexFrom_list_find {A : Type} (p : A -> bool) (l : list A) (i0 : Z) :
  findIndexFrom p l i0
  = match list_find (fun x => p x = true) l with
    | Some (i, _) => i0 + Z.of_nat i
    | None => -1
    end.
Proof.
  revert i0. induction l as [|x l IH]; intros i0; [reflexivity|].
  cbn [findIndexFrom list_find]. destruct (p x) eqn:Hp.
  - rewrite decide_True by done. simpl. lia.
  - rewrite decide_False by discriminate. rewrite IH.
    destruct (list_find _ l) as [[i y]|]; simpl; lia.
Qed.

(** The snapshot [advancePeriod] takes. *)
Lemma advancePeriod_trends (clk : Clock) (api : EchoAPI) :
  deployment api = None ->
  let cp := LocalSalaryState.currentPeriod (_localSalary api) in
  let e := {| PeriodTrend.period := cp;
              PeriodTrend.payments :=
                LocalSalaryState.totalPaymentsProcessed (_localSalary api);
              PeriodTrend.reviews :=
                LocalReviewState.totalReviews (_localReview api);
              PeriodTrend.avgRating := roundToTenth (computeLocalAvgRating api) |} in
  _periodTrends (snd (advancePeriod clk api))
  = match list_find (fun t => PeriodTrend.period t = cp) (_periodTrends api) with
    | Some (i, _) => <[i := e]> (_periodTrends api)
    | None => _periodTrends api ++ [e]
    end.
Proof.
  intros Hl cp e. unfold advancePeriod. rewrite Hl. cbn [snd _periodTrends].
  unfold findIndex. rewrite findIndexFrom_list_find.
  rewrite (list_find_ext (fun t => bool_decide (PeriodTrend.period t = cp) = true)
             (fun t => PeriodTrend.period t = cp))
    by (intros t; apply bool_decide_eq_true).
  destruct (list_find _ (_periodTrends api)) as [[i x]|].
  - rewrite bool_decide_eq_true_2 by lia.
    replace (Z.to_nat (0 + Z.of_nat i)) with i by lia. reflexivity.
  - rewrite bool_decide_eq_false_2 by lia. reflexivity.
Qed.

(** X9: the snapshot of [advancePeriod].  In local-simulation mode the
    call records, for the period that just ended, the cumulative
    [totalPaymentsProcessed] and [totalReviews] of the moment and the overall
    average rating rounded to one decimal.  If a trend for that period is
    already in the list, the first such is overwritten, the list keeping its
    length and every other entry; otherwise the snapshot is appended. *)
Theorem advancePeriod_snapshot (clk : Clock) (api : EchoAPI) :
  deployment api = None ->
  let cp := LocalSalaryState.currentPeriod (_localSalary api) in
  let e := {| PeriodTrend.period := cp;
              PeriodTrend.payments :=
                LocalSalaryState.totalPaymentsProcessed (_localSalary api);
              PeriodTrend.reviews :=
                LocalReviewState.totalReviews (_localReview api);
              PeriodTrend.avgRating := roundToTenth (computeLocalAvgRating api) |} in
  let before := _periodTrends api in
  let after := _periodTrends (snd (advancePeriod clk api)) in
  match list_find (fun t => PeriodTrend.period t = cp) before with
  | Some (i, _) =>
      after = <[i := e]> before /\
      after !! i = Some e /\
      List.length after = List.length before /\
      forall j, j <> i -> after !! j = before !! j
  | None =>
      after = before ++ [e] /\
      after !! List.length before = Some e /\
      List.length after = S (List.length before) /\
      forall j, (j < List.length before)%nat -> after !! j = before !! j
  end.
Proof.
  intros Hl cp e before after. subst after.
  rewrite (advancePeriod_trends clk api Hl). fold cp. fold e. fold before.
  destruct (list_find _ before) as [[i x]|] eqn:Hf.
  - apply list_find_Some in Hf as (Hi & _).
    pose proof (lookup_lt_Some _ _ _ Hi) as Hlt.
    split; [reflexivity|]. split; [by apply list_lookup_insert_eq|].
    split; [apply length_insert|].
    intros j Hj. by apply list_lookup_insert_ne.
  - split; [reflexivity|]. split.
    + rewrite lookup_app_r by lia. by rewrite Nat.sub_diag.
    + split; [rewrite length_app; simpl; lia|].
      intros j Hj. by apply lookup_app_l.
Qed.

Lemma advancePeriod_snapshot_witness :
  deployment (run sampleRun newEchoAPI) = None /\
  PeriodTrend.period
    <$> _periodTrends (snd (advancePeriod clock1 (run sampleRun newEchoAPI)))
    = [1; 2; 3] /\
  PeriodTrend.payments
    <$> _periodTrends (snd (advancePeriod clock1 (run sampleRun newEchoAPI))) !! 2%nat
    = Some 2.
Proof.
  split; [vm_compute; reflexivity|].
  pose proof (advancePeriod_snapshot clock1 (run sampleRun newEchoAPI)) as H.
  cbv zeta in H.
  destruct (list_find _ _) as [[i x]|] eqn:Hf in H.
  - exfalso. vm_compute in Hf. discriminate Hf.
  - destruct H as (Heq & _); [vm_compute; reflexivity|].
    rewrite Heq. split; vm_compute; reflexivity.
Defined.

(** The two totals only grow along a run. *)
Lemma totals_grow (cs : list (Call * Clock)) (api : EchoAPI) :
  deployment api = None ->
  LocalSalaryState.totalPaymentsProcessed (_localSalary api)
    <= LocalSalaryState.totalPaymentsProcessed (_localSalary (run cs api)) /\
  LocalReviewState.totalReviews (_localReview api)
    <= LocalReviewState.totalReviews (_localReview (run cs api)).
Proof.
  revert api. induction cs as [|[c clk] cs IH]; intros api Hl.
  - simpl. lia.
  - rewrite run_cons.
    destruct (IH (step (c, clk) api) (step_local _ _ Hl)) as (Hs & Hr).
    revert Hs Hr.
    destruct c; unfold_methods; rewrite Hl; simpl fst; simpl snd;
      cbn [_localSalary _localReview LocalSalaryState.totalPaymentsProcessed
           LocalReviewState.totalReviews]; lia.
Qed.

(** X10: the trends of an instance that started fresh and has run in
    local-simulation mode ever since (no deployment was configured).  There
    is exactly one snapshot per period that has ended, in order of period:
    the periods of the list are 1, 2, ..., [currentPeriod - 1]
    ([advancePeriod] never overwrites).  The figures of a snapshot are
    cumulative: none exceeds the current [totalPaymentsProcessed] or
    [totalReviews]. *)
Theorem trends_reachable (api : EchoAPI) :
  reachable api ->
  let cp := LocalSalaryState.currentPeriod (_localSalary api) in
  1 <= cp /\
  PeriodTrend.period <$> _periodTrends api = seqZ 1 (cp - 1) /\
  Forall (fun t =>
            0 <= PeriodTrend.payments t
              <= LocalSalaryState.totalPaymentsProcessed (_localSalary api) /\
            0 <= PeriodTrend.reviews t
              <= LocalReviewState.totalReviews (_localReview api))
         (_periodTrends api).
Proof.
  intros [cs ->]. cbv zeta.
  induction cs as [|[c clk] cs IH] using rev_ind.
  - simpl. split; [lia|]. split; [reflexivity|constructor].
  - rewrite run_step_last.
    pose proof (run_local cs newEchoAPI) as Hl. simpl in Hl.
    set (api := run cs newEchoAPI) in *.
    destruct IH as (Hcp & Hper & Hfig).
    assert (Hweak : forall (s' r' : Z),
              LocalSalaryState.totalPaymentsProcessed (_localSalary api) <= s' ->
              LocalReviewState.totalReviews (_localReview api) <= r' ->
              Forall (fun t => 0 <= PeriodTrend.payments t <= s' /\
                               0 <= PeriodTrend.reviews t <= r')
                     (_periodTrends api)).
    { intros s' r' Hs' Hr'. eapply Forall_impl; [exact Hfig|].
      simpl. intros t. lia. }
    destruct c;
      try (unfold_methods; rewrite Hl; simpl; split; [lia|];
           split; [exact Hper|apply Hweak; lia]).
    (* advancePeriod *)
    unfold step. cbn [fst snd call reply].
    pose proof (advancePeriod_trends clk api Hl) as Ht. cbv zeta in Ht.
    rewrite (proj2 (list_find_None _ _)) in Ht.
    2:{ apply Forall_fmap with (f := PeriodTrend.period)
                              (P := fun p => p <> LocalSalaryState.currentPeriod
                                                    (_localSalary api)).
        rewrite Hper. apply Forall_seqZ. lia. }
    rewrite Ht. unfold advancePeriod. rewrite Hl. simpl.
    split; [lia|]. split.
    + rewrite fmap_app, Hper. simpl.
      replace (LocalSalaryState.currentPeriod (_localSalary api) + 1 - 1)
        with ((LocalSalaryState.currentPeriod (_localSalary api) - 1) + 1) by lia.
      rewrite seqZ_app by lia. f_equal.
      rewrite seqZ_cons by lia. rewrite seqZ_nil by lia. f_equal. lia.
    + apply Forall_app. split; [apply Hweak; lia|].
      constructor; [|constructor]. simpl.
      assert (Hnn : 0 <= LocalSalaryState.totalPaymentsProcessed (_localSalary api)
                    /\ 0 <= LocalReviewState.totalReviews (_localReview api)).
      { subst api.
        destruct (totals_grow cs newEchoAPI eq_refl) as (Hs & Hr).
        simpl in Hs, Hr. lia. }
      lia.
Qed.

Lemma trends_reachable_witness :
  reachable (run sampleRun newEchoAPI) /\
  PeriodTrend.period <$> _periodTrends (run sampleRun newEchoAPI) = [1; 2].
Proof.
  assert (Hr : reachable (run sampleRun newEchoAPI)) by (by exists sampleRun).
  split; [exact Hr|].
  destruct (trends_reachable _ Hr) as (_ & Hp & _).
  rewrite Hp. reflexivity.
Defined.

(** ** The two modes *)



(** X12: the local simulation turns nothing down.  Without a deployment
    every call of a run returns normally, whatever its arguments and whatever
    state the instance is in (no call throws, none asks for a contract), and
    the instance stays in local mode. *)
Theorem local_calls_all_succeed (cs : list (Call * Clock)) (api : EchoAPI) :
  deployment api = None ->
  Forall (fun r => exists v, r = Ok v) (replies cs api) /\
  deployment (run cs api) = None.
Proof.
  intros Hl. split; [|by rewrite run_local].
  revert api Hl. induction cs as [|[c clk] cs IH]; intros api Hl; [constructor|].
  simpl replies. constructor.
  - exact (call_local_Ok c clk api Hl).
  - apply IH. by apply step_local.
Qed.

Lemma local_calls_all_succeed_witness :
  deployment newEchoAPI = None /\
  Forall (fun r => exists v, r = Ok v) (replies sampleRun newEchoAPI).
Proof.
  split; [reflexivity|].
  exact (proj1 (local_calls_all_succeed sampleRun newEchoAPI eq_refl)).
Defined.

(** ** Analytics *)

(** X13: [getAnalytics] on a fresh instance after a run of calls in
    local-simulation mode.  It changes nothing.  When the bands paid in are
    integers and the amounts, none negative, add up to less than [2^53], it
    answers: its totals are those of the three ledgers, the salary
    distribution adds up to [totalPaymentsProcessed], the averages are those
    of [computeAverageRatings] on the review state, and [reviewTrend] is
    empty whatever trends the instance holds.  Whatever the run, an error of
    [getSalaryState] is the error of [getAnalytics]. *)
Theorem getAnalytics_reachable (cs : list (Call * Clock)) :
  let api := run cs newEchoAPI in
  snd (getAnalytics api) = api /\
  (forall e, fst (getSalaryState api) = Throw e ->
             fst (getAnalytics api) = Throw e) /\
  (integerBands cs -> safeAmounts 0 (paymentsOf cs) ->
   exists a r,
     fst (getAnalytics api) = Ok a /\
     fst (getReviewState api) = Ok r /\
     OrgAnalytics.totalEmployees a = LocalOrgState.employeeCount (_localOrg api) /\
     OrgAnalytics.totalPaymentsProcessed a
       = LocalSalaryState.totalPaymentsProcessed (_localSalary api) /\
     OrgAnalytics.totalReviews a
       = LocalReviewState.totalReviews (_localReview api) /\
     bandSum (OrgAnalytics.salaryDistribution a)
       = OrgAnalytics.totalPaymentsProcessed a /\
     OrgAnalytics.averageRatings a = computeAverageRatings r /\
     OrgAnalytics.reviewTrend a = []).
Proof.
  intros api.
  assert (Hl : deployment api = None) by (subst api; by rewrite run_local).
  split; [reflexivity|]. split.
  - intros e He. unfold getAnalytics, getOrganizationState.
    rewrite Hl, He. reflexivity.
  - intros Hint Hsafe.
    destruct (fresh_run_salary cs Hint Hsafe) as (s & Hs & Hsum). fold api in Hs.
    destruct (ratingsLe_run cs newEchoAPI _ eq_refl) as (r & Hr & _).
    fold api in Hr.
    pose proof Hs as Hs'. apply getSalaryState_Ok in Hs'.
    destruct Hs' as (_ & _ & _ & Ht & _).
    pose proof Hr as Hr'. apply getReviewState_Ok in Hr'.
    destruct Hr' as (_ & _ & _ & Htr & _).
    eexists. exists r. split.
    { unfold getAnalytics. rewrite Hs, Hr. unfold getOrganizationState.
      rewrite Hl. reflexivity. }
    cbn [OrgAnalytics.totalEmployees OrgAnalytics.totalPaymentsProcessed
         OrgAnalytics.totalReviews OrgAnalytics.salaryDistribution
         OrgAnalytics.reviewTrend OrgAnalytics.averageRatings
         OrganizationLedgerState.employeeCount].
    split; [exact Hr|]. split; [reflexivity|]. split; [exact Ht|].
    split; [exact Htr|]. split; [exact Hsum|]. split; reflexivity.
Qed.

Lemma getAnalytics_reachable_witness :
  integerBands sampleRun /\
  safeAmounts 0 (paymentsOf sampleRun) /\
  exists a,
    fst (getAnalytics (run sampleRun newEchoAPI)) = Ok a /\
    OrgAnalytics.totalPaymentsProcessed a = 2 /\
    OrgAnalytics.reviewTrend a = [].
Proof.
  assert (Hint : integerBands sampleRun).
  { repeat constructor; exists 3;
      (split; [|split]); try reflexivity; unfold Double.safe; simpl; lia. }
  assert (Hsafe : safeAmounts 0 (paymentsOf sampleRun)).
  { split; [lia|]. split; [repeat constructor; simpl; lia|]. simpl. reflexivity. }
  split; [exact Hint|]. split; [exact Hsafe|].
  destruct (getAnalytics_reachable sampleRun) as (_ & _ & H).
  destruct (H Hint Hsafe) as (a & r & Ha & _ & _ & Hp & _ & _ & _ & Ht).
  exists a. split; [exact Ha|]. split; [|exact Ht].
  rewrite Hp. vm_compute. reflexivity.
Defined.
(** ** The two overall averages *)








(** With a score out of range the two part ways: after the review
    [[6,0,3,4,5]] on a fresh instance the trend average is 4 (two categories
    are skipped), the analytics average 2.4 (they count as 0). *)
Example overall_averages_part :
  let api := snd (submitReview review6 clock0 newEchoAPI) in
  computeLocalAvgRating api = Double.ofZ 4 /\
  match fst (getAnalytics api) with
  | Ok a => AverageRatings.overall (OrgAnalytics.averageRatings a)
            = Double.ofDecimal 24 (-1)
  | _ => False
  end.
Proof. split; vm_compute; reflexivity. Qed.
(** ** Hex text *)

Lemma string_pair_ind (P : string -> Prop) :
  P EmptyString ->
  (forall a, P (String a EmptyString)) ->
  (forall a b r, P r -> P (String a (String b r))) ->
  forall s, P s.
Proof.
  intros H0 H1 H2. fix IH 1. intros [|a [|b r]].
  - exact H0.
  - apply H1.
  - apply H2, IH.
Qed.

Lemma hexToBytes_loop (s : string) :
  map (fun i => JsString.toUint8
                  (JsString.parseInt16 (JsString.substr (i * 2) 2 s)))
      (seq 0 (String.length s / 2))
  = decodePairs s.
Proof.
  induction s as [|a|a b r IH] using string_pair_ind; [reflexivity..|].
  cbn [String.length decodePairs].
  replace (S (S (String.length r))) with (1 * 2 + String.length r)%nat by lia.
  rewrite Nat.div_add_l by lia. cbn [Nat.add seq map].
  f_equal; [unfold JsString.substr; simpl; by destruct r|].
  rewrite <- seq_shift, map_map. rewrite <- IH. apply map_ext. intros i.
  reflexivity.
Qed.

Lemma concat_empty_cons (x : string) (xs : list string) :
  String.concat "" (x :: xs) = (x ++ String.concat "" xs)%string.
Proof.
  destruct xs as [|y ys]; simpl.
  - induction x as [|c x IH]; [reflexivity|].
    change (String c x = String c (String.append x "")). f_equal. exact IH.
  - reflexivity.
Qed.

Lemma append_two (h l : Ascii.ascii) (s : string) :
  (String h (String l EmptyString) +:+ s) = String h (String l s).
Proof. reflexivity. Qed.

Lemma bytesToHex_cons (b : Byte.byte) (bs : list Byte.byte) :
  bytesToHex (b :: bs)
  = (JsString.padStart 2 "0" (Js.toString16 (Byte.to_N b)) ++ bytesToHex bs)%string.
Proof. unfold bytesToHex. cbn [map]. apply concat_empty_cons. Qed.

(** One byte: two digits on the way out, the byte again on the way back,
    and never the characters [0x]. *)
Lemma hex_of_byte (b : Byte.byte) :
  exists h l,
    JsString.padStart 2 "0" (Js.toString16 (Byte.to_N b))
      = String h (String l EmptyString) /\
    JsString.toUint8 (JsString.parseInt16 (String h (String l EmptyString))) = b /\
    isLowerHexDigit h = true /\ isLowerHexDigit l = true.
Proof. destruct b; do 2 eexists; repeat split. Qed.

Lemma decodePairs_bytesToHex (bs : list Byte.byte) :
  decodePairs (bytesToHex bs) = bs.
Proof.
  induction bs as [|b bs IH]; [reflexivity|].
  rewrite bytesToHex_cons.
  destruct (hex_of_byte b) as (h & l & -> & Hb & _).
  rewrite append_two. cbn [decodePairs]. by rewrite Hb, IH.
Qed.

Lemma bytesToHex_no_prefix (bs : list Byte.byte) :
  JsString.startsWith "0x" (bytesToHex bs) = false.
Proof.
  destruct bs as [|b bs]; [reflexivity|]. rewrite bytesToHex_cons.
  destruct (hex_of_byte b) as (h & l & -> & _ & _ & Hl).
  unfold JsString.startsWith. rewrite append_two. cbn [String.prefix].
  destruct (Ascii.ascii_dec "0" h); [|reflexivity].
  destruct (Ascii.ascii_dec "x" l) as [<-|]; [discriminate Hl|reflexivity].
Qed.

Lemma substring_all (s : string) : String.substring 0 (String.length s) s = s.
Proof. induction s as [|c s IH]; simpl; [reflexivity|]. by rewrite IH. Qed.

(** X15: bytes survive the trip through hex text.  For every byte string,
    [hexToBytes (bytesToHex bytes)] is the byte string again, and so is
    [hexToBytes] of the same text behind a [0x] prefix; [bytesToHex] writes
    two lower-case digits per byte. *)
Theorem hexToBytes_bytesToHex (bytes : list Byte.byte) :
  hexToBytes (bytesToHex bytes) = bytes /\
  hexToBytes ("0x" +:+ bytesToHex bytes) = bytes /\
  String.length (bytesToHex bytes) = (2 * List.length bytes)%nat /\
  isLowerHex (bytesToHex bytes) = true.
Proof.
  split; [|split; [|split]].
  - unfold hexToBytes. rewrite bytesToHex_no_prefix, hexToBytes_loop.
    apply decodePairs_bytesToHex.
  - assert (Hp : JsString.startsWith "0x" ("0x" +:+ bytesToHex bytes) = true).
    { rewrite append_two. unfold JsString.startsWith. simpl.
      by destruct (bytesToHex bytes). }
    assert (Hs : JsString.slice 2 ("0x" +:+ bytesToHex bytes) = bytesToHex bytes).
    { rewrite append_two. unfold JsString.slice.
      cbn [String.length Nat.sub String.substring].
      by rewrite Nat.sub_0_r, substring_all. }
    unfold hexToBytes. rewrite Hp, Hs, hexToBytes_loop.
    apply decodePairs_bytesToHex.
  - induction bytes as [|b bs IH]; [reflexivity|]. rewrite bytesToHex_cons.
    destruct (hex_of_byte b) as (h & l & -> & _). rewrite append_two.
    cbn [String.length]. rewrite IH. simpl. lia.
  - induction bytes as [|b bs IH]; [reflexivity|]. rewrite bytesToHex_cons.
    destruct (hex_of_byte b) as (h & l & -> & _ & Hh & Hl).
    rewrite append_two. cbn [isLowerHex]. by rewrite Hh, Hl, IH.
Qed.

(** Two lower-case digits: the byte they spell is spelt with them. *)
Lemma lowerHexDigit_cases (c : Ascii.ascii) :
  isLowerHexDigit c = true ->
  exists d, (d < 16)%N /\ c = Js.hexDigit d.
Proof.
  intros H.
  destruct c as [[] [] [] [] [] [] [] []]; try discriminate H;
    match goal with
    | |- exists d, _ /\ ?c = _ =>
        let n := eval vm_compute in
              (let v := Ascii.N_of_ascii c in
               if (v <? 58)%N then (v - 48)%N else (v - 87)%N) in
        exists n; split; [reflexivity | reflexivity]
    end.
Qed.

Lemma byte_of_hex (h l : Ascii.ascii) :
  isLowerHexDigit h = true -> isLowerHexDigit l = true ->
  JsString.padStart 2 "0"
    (Js.toString16
       (Byte.to_N (JsString.toUint8
                     (JsString.parseInt16 (String h (String l EmptyString))))))
  = String h (String l EmptyString).
Proof.
  intros Hh Hl.
  destruct (lowerHexDigit_cases h Hh) as (d1 & Hd1 & ->).
  destruct (lowerHexDigit_cases l Hl) as (d2 & Hd2 & ->).
  assert (Hc : forall d : N, (d < 16)%N ->
            (d = 0 \/ d = 1 \/ d = 2 \/ d = 3 \/ d = 4 \/ d = 5 \/ d = 6 \/ d = 7
             \/ d = 8 \/ d = 9 \/ d = 10 \/ d = 11 \/ d = 12 \/ d = 13 \/ d = 14
             \/ d = 15)%N) by lia.
  destruct (Hc d1 Hd1) as [->|[->|[->|[->|[->|[->|[->|[->|[->|[->|[->|[->|[->|[->|[->| ->]]]]]]]]]]]]]]];
    destruct (Hc d2 Hd2) as [->|[->|[->|[->|[->|[->|[->|[->|[->|[->|[->|[->|[->|[->|[->| ->]]]]]]]]]]]]]]];
    vm_compute; reflexivity.
Qed.

(** X16: lower-case hex text of even length survives the trip through
    bytes: [bytesToHex (hexToBytes hex)] is the text again.  (Text of odd
    length loses its last character.) *)
Theorem bytesToHex_hexToBytes (hex : string) :
  isLowerHex hex = true ->
  Nat.even (String.length hex) = true ->
  bytesToHex (hexToBytes hex) = hex.
Proof.
  intros Hhex Heven.
  assert (Hnp : JsString.startsWith "0x" hex = false).
  { destruct hex as [|a [|b r]]; [reflexivity| |].
    { unfold JsString.startsWith. cbn [String.prefix].
      by destruct (Ascii.ascii_dec "0" a). }
    unfold JsString.startsWith. cbn [String.prefix].
    destruct (Ascii.ascii_dec "0" a); [|reflexivity].
    destruct (Ascii.ascii_dec "x" b) as [<-|]; [|reflexivity].
    simpl in Hhex. rewrite andb_false_r in Hhex. discriminate Hhex. }
  unfold hexToBytes. rewrite Hnp, hexToBytes_loop. clear Hnp.
  induction hex as [|a|a b r IH] using string_pair_ind.
  - reflexivity.
  - discriminate Heven.
  - cbn [isLowerHex] in Hhex. apply andb_prop in Hhex as [Ha Hhex].
    apply andb_prop in Hhex as [Hb Hr].
    cbn [decodePairs]. rewrite bytesToHex_cons, (byte_of_hex a b Ha Hb).
    rewrite append_two. rewrite IH; [reflexivity|exact Hr|exact Heven].
Qed.

Lemma bytesToHex_hexToBytes_witness :
  isLowerHex "00ff1a" = true /\
  Nat.even (String.length "00ff1a") = true /\
  bytesToHex (hexToBytes "00ff1a") = "00ff1a".
Proof.
  split; [reflexivity|]. split; [reflexivity|].
  apply (bytesToHex_hexToBytes "00ff1a"); reflexivity.
Defined.

(** ** Text that is no hex *)

Lemma parseInt16_noNumber (a b : Ascii.ascii) :
  startsNoNumber a = true ->
  JsString.toUint8 (JsString.parseInt16 (String a (String b EmptyString)))
  = Byte.x00.
Proof.
  destruct a as [[] [] [] [] [] [] [] []]; intros H; vm_compute in H;
    try discriminate H; reflexivity.
Qed.

Lemma decodePairs_noNumber (s : string) :
  noNumberInPairs s = true ->
  decodePairs s = replicate (String.length s / 2) Byte.x00.
Proof.
  induction s as [|a|a b r IH] using string_pair_ind; [reflexivity..|].
  cbn [noNumberInPairs decodePairs String.length]. intros H.
  apply andb_prop in H as [Ha Hr].
  replace (S (S (String.length r))) with (1 * 2 + String.length r)%nat by lia.
  rewrite Nat.div_add_l by lia. cbn [Nat.add replicate].
  f_equal; [by apply parseInt16_noNumber|by apply IH].
Qed.

(** X17: [hexToBytes] checks nothing.  Text each of whose pairs starts
    with a character that is no base-16 digit, white space or sign is
    decoded without an error, to as many zero bytes as it has pairs. *)
Theorem hexToBytes_no_digits (hex : string) :
  noNumberInPairs hex = true ->
  hexToBytes hex = replicate (String.length hex / 2) Byte.x00.
Proof.
  intros H. unfold hexToBytes.
  assert (Hnp : JsString.startsWith "0x" hex = false).
  { destruct hex as [|a [|b r]]; [reflexivity| |].
    { unfold JsString.startsWith. cbn [String.prefix].
      by destruct (Ascii.ascii_dec "0" a). }
    unfold JsString.startsWith. cbn [String.prefix].
    destruct (Ascii.ascii_dec "0" a) as [<-|]; [|reflexivity].
    discriminate H. }
  rewrite Hnp, hexToBytes_loop. by apply decodePairs_noNumber.
Qed.

Lemma hexToBytes_no_digits_witness :
  noNumberInPairs "tokens" = true /\
  hexToBytes "tokens" = [Byte.x00; Byte.x00; Byte.x00].
Proof.
  split; [reflexivity|]. apply (hexToBytes_no_digits "tokens"). reflexivity.
Defined.

(** ** The salary page *)



(** ** The median band *)

Lemma foldl_add (a : Z) (l : list Z) : foldl Z.add a l = a + foldl Z.add 0 l.
Proof.
  revert a. induction l as [|x l IH]; intros a; simpl; [lia|].
  rewrite (IH (a + x)), (IH (0 + x)). lia.
Qed.

Lemma sumOf_cons (c : Z) (l : list Z) : sumOf (c :: l) = c + sumOf l.
Proof. unfold sumOf. simpl. apply foldl_add. Qed.

Lemma ceilHalf_le (total x : Z) : ceilHalf total <= x <-> total <= 2 * x.
Proof.
  unfold ceilHalf.
  pose proof (Z.div_mod (- total) 2 ltac:(lia)).
  pose proof (Z.mod_pos_bound (- total) 2 ltac:(lia)). lia.
Qed.

(** The loop stops at the first index at which the running sum reaches
    [half], if the whole sum does. *)
Lemma medianBandFrom_first (half : Z) (counts : list Z) :
  forall (cum : Z) (i : nat),
  cum < half -> half <= cum + sumOf counts ->
  exists j : nat,
    (j < List.length counts)%nat /\
    medianBandFrom half cum i counts = bandLabels !! (i + j)%nat /\
    half <= cum + sumOf (take (S j) counts) /\
    forall k : nat, (k <= j)%nat -> cum + sumOf (take k counts) < half.
Proof.
  induction counts as [|c rest IH]; intros cum i Hlt Hge.
  - unfold sumOf in Hge. simpl in Hge. lia.
  - rewrite sumOf_cons in Hge. cbn [medianBandFrom]. case_bool_decide as Hc.
    + exists 0%nat. rewrite Nat.add_0_r. split; [simpl; lia|].
      split; [reflexivity|]. split.
      * cbn [take]. rewrite sumOf_cons. unfold sumOf. simpl. lia.
      * intros k Hk. replace k with 0%nat by lia. unfold sumOf. simpl. lia.
    + destruct (IH (cum + c) (S i)) as (j & Hj & Hm & Hr & Hmin); [lia..|].
      exists (S j). split; [simpl; lia|]. split.
      * rewrite Hm. f_equal. lia.
      * split.
        -- change (take (S (S j)) (c :: rest)) with (c :: take (S j) rest).
           rewrite sumOf_cons. lia.
        -- intros [|k] Hk; [unfold sumOf; simpl; lia|].
           cbn [take]. rewrite sumOf_cons.
           specialize (Hmin k ltac:(lia)). lia.
Qed.

(** X19: [medianBand] names the first band at which half is reached.  When
    the counts add up to a positive total, the label returned is that of the
    first index [j] at which the running sum [counts[0] + ... + counts[j]]
    reaches half the total; no running sum before it does.  (The counts
    need not be non-negative.) *)
Theorem medianBand_first_half (counts : list Z) :
  0 < sumOf counts ->
  exists j : nat,
    (j < List.length counts)%nat /\
    medianBand counts = bandLabels !! j /\
    sumOf counts <= 2 * sumOf (take (S j) counts) /\
    forall k : nat, (k <= j)%nat -> 2 * sumOf (take k counts) < sumOf counts.
Proof.
  intros Hpos. unfold medianBand. cbv zeta.
  rewrite bool_decide_eq_false_2 by lia.
  destruct (medianBandFrom_first (ceilHalf (sumOf counts)) counts 0 0)
    as (j & Hj & Hm & Hr & Hmin).
  - assert (~ ceilHalf (sumOf counts) <= 0) by (rewrite ceilHalf_le; lia). lia.
  - rewrite ceilHalf_le. lia.
  - exists j. split; [exact Hj|]. split; [exact Hm|]. split.
    + apply ceilHalf_le in Hr. lia.
    + intros k Hk. specialize (Hmin k Hk).
      assert (~ ceilHalf (sumOf counts) <= sumOf (take k counts)) as Hn by lia.
      rewrite ceilHalf_le in Hn. lia.
Qed.

Lemma medianBand_first_half_witness :
  0 < sumOf [1; 0; 2; 0; 0] /\
  exists j : nat, (j < 5)%nat /\ medianBand [1; 0; 2; 0; 0] = bandLabels !! j.
Proof.
  assert (Hpos : 0 < sumOf [1; 0; 2; 0; 0]) by reflexivity.
  split; [exact Hpos|].
  destruct (medianBand_first_half [1; 0; 2; 0; 0] Hpos) as (j & Hj & Hm & _).
  exists j. split; [exact Hj|exact Hm].
Defined.

Example medianBand_samples :
  medianBand [1; 0; 2; 0; 0] = Some "15 - 30 LPA" /\
  medianBand [0; 0; 0; 0; 0] = Some "--" /\
  medianBand [1; 1; 0; 0; 0] = Some "0 - 5 LPA" /\
  medianBand [0; 0; 0; 0; 0; 3] = None /\
  medianBand [2; -1; 0; 0; 0] = Some "0 - 5 LPA".
Proof. repeat split. Qed.

(** X20: the median band of the analytics page.  On a fresh instance after
    a run in local-simulation mode whose bands are integers and whose
    amounts, none negative, add up to less than [2^53], the salary query
    answers and the page shows "--" exactly when no payment has been
    processed, and otherwise one of the five band labels. *)
Theorem medianBand_reachable (cs : list (Call * Clock)) :
  integerBands cs ->
  safeAmounts 0 (paymentsOf cs) ->
  exists s,
    fst (getSalaryState (run cs newEchoAPI)) = Ok s /\
    (SalaryLedgerState.totalPaymentsProcessed s = 0 ->
     medianBand (bandCounts s) = Some "--") /\
    (SalaryLedgerState.totalPaymentsProcessed s <> 0 ->
     exists label, medianBand (bandCounts s) = Some label /\
                   label ∈ bandLabels).
Proof.
  intros Hint Hsafe.
  destruct (fresh_run_salary cs Hint Hsafe) as (s & Hs & Hsum).
  exists s. split; [exact Hs|].
  assert (Hsum' : sumOf (bandCounts s) = SalaryLedgerState.totalPaymentsProcessed s).
  { rewrite <- Hsum. unfold sumOf, bandCounts, bandSum. simpl. lia. }
  assert (Hnn : 0 <= SalaryLedgerState.totalPaymentsProcessed s).
  { destruct (salary_counts_run cs newEchoAPI eq_refl) as (Hg & _).
    apply getSalaryState_Ok in Hs. destruct Hs as (_ & _ & _ & -> & _).
    rewrite Hg. simpl. lia. }
  split.
  - intros Hz. unfold medianBand. cbv zeta.
    by rewrite bool_decide_eq_true_2 by lia.
  - intros Hz. unfold medianBand. cbv zeta.
    rewrite bool_decide_eq_false_2 by lia.
    destruct (medianBandFrom_first (ceilHalf (sumOf (bandCounts s)))
                (bandCounts s) 0 0) as (j & Hj & Hm & _).
    + assert (~ ceilHalf (sumOf (bandCounts s)) <= 0)
        by (rewrite ceilHalf_le; lia). lia.
    + rewrite ceilHalf_le. lia.
    + rewrite Hm. simpl in Hj.
      destruct (lookup_lt_is_Some_2 bandLabels j) as [label Hlabel];
        [simpl; lia|].
      exists label. split; [exact Hlabel|].
      by eapply list_elem_of_lookup_2.
Qed.

Lemma medianBand_reachable_witness :
  integerBands clampedRun /\
  safeAmounts 0 (paymentsOf clampedRun) /\
  exists s,
    fst (getSalaryState (run clampedRun newEchoAPI)) = Ok s /\
    medianBand (bandCounts s) = Some "15 - 30 LPA".
Proof.
  assert (Hint : integerBands clampedRun).
  { repeat constructor; [exists 0|exists 7|exists 3];
      (split; [|split]); try reflexivity; unfold Double.safe; simpl; lia. }
  assert (Hsafe : safeAmounts 0 (paymentsOf clampedRun)).
  { split; [lia|]. split; [repeat constructor; simpl; lia|]. simpl. reflexivity. }
  split; [exact Hint|]. split; [exact Hsafe|].
  destruct (medianBand_reachable clampedRun Hint Hsafe) as (s & Hs & _).
  exists s. split; [exact Hs|].
  assert (E : fst (getSalaryState (run clampedRun newEchoAPI))
              = Ok {| SalaryLedgerState.orgAdmin := zeros64;
                      SalaryLedgerState.totalPaymentsProcessed := 3;
                      SalaryLedgerState.totalPayrollAmount := 7600000;
                      SalaryLedgerState.currentPeriod := 2;
                      SalaryLedgerState.activeDisputes := 0;
                      SalaryLedgerState.salaryBands :=
                        {| band1 := 1; band2 := 0; band3 := 1;
                           band4 := 0; band5 := 1 |};
                      SalaryLedgerState.round := 4 |}) by (vm_compute; reflexivity).
  rewrite E in Hs. inversion Hs. reflexivity.
Defined.
(** ** Sign-in *)

Lemma toLowerCaseChar_idem (c : Ascii.ascii) :
  toLowerCaseChar (toLowerCaseChar c) = toLowerCaseChar c.
Proof. destruct c as [[] [] [] [] [] [] [] []]; reflexivity. Qed.

Lemma toLowerCase_idem (s : string) : toLowerCase (toLowerCase s) = toLowerCase s.
Proof.
  induction s as [|c s IH]; [reflexivity|].
  simpl. by rewrite toLowerCaseChar_idem, IH.
Qed.

(** X21: who can sign in.  [authenticate] answers with a user exactly for
    the four accounts of the table: the name is compared after lower-casing,
    the password as it is, and the user returned carries the lower-cased
    name with the role and display name of the account. *)
Theorem authenticate_accounts (username password : string) (user : AuthUser.t) :
  authenticate username password = Some user <->
  (toLowerCase username = "admin" /\ password = "admin123" /\
   user = AuthUser.mk "admin" ADMIN "Admin") \/
  (toLowerCase username = "hr" /\ password = "hr123" /\
   user = AuthUser.mk "hr" HR "HR Operator") \/
  (toLowerCase username = "employee" /\ password = "employee123" /\
   user = AuthUser.mk "employee" EMPLOYEE "Employee") \/
  (toLowerCase username = "auditor" /\ password = "auditor123" /\
   user = AuthUser.mk "auditor" AUDITOR "Auditor").
Proof.
  unfold authenticate, CREDENTIALS.
  set (n := toLowerCase username).
  destruct (decide (n = "admin")) as [->|H1].
  { rewrite lookup_insert_eq. simpl. case_bool_decide; split.
    - intros [= <-]. left. by subst.
    - intros [(_ & _ & ->)|[(? & _)|[(? & _)|(? & _)]]]; [|discriminate..].
      reflexivity.
    - discriminate.
    - intros [(_ & -> & _)|[(? & _)|[(? & _)|(? & _)]]]; [|discriminate..].
      contradiction. }
  rewrite lookup_insert_ne by congruence.
  destruct (decide (n = "hr")) as [->|H2].
  { rewrite lookup_insert_eq. simpl. case_bool_decide; split.
    - intros [= <-]. right. left. by subst.
    - intros [(? & _)|[(_ & _ & ->)|[(? & _)|(? & _)]]]; try discriminate.
      reflexivity.
    - discriminate.
    - intros [(? & _)|[(_ & -> & _)|[(? & _)|(? & _)]]]; try discriminate.
      contradiction. }
  rewrite lookup_insert_ne by congruence.
  destruct (decide (n = "employee")) as [->|H3].
  { rewrite lookup_insert_eq. simpl. case_bool_decide; split.
    - intros [= <-]. right. right. left. by subst.
    - intros [(? & _)|[(? & _)|[(_ & _ & ->)|(? & _)]]]; try discriminate.
      reflexivity.
    - discriminate.
    - intros [(? & _)|[(? & _)|[(_ & -> & _)|(? & _)]]]; try discriminate.
      contradiction. }
  rewrite lookup_insert_ne by congruence.
  destruct (decide (n = "auditor")) as [->|H4].
  { rewrite lookup_insert_eq. simpl. case_bool_decide; split.
    - intros [= <-]. right. right. right. by subst.
    - intros [(? & _)|[(? & _)|[(? & _)|(_ & _ & ->)]]]; try discriminate.
      reflexivity.
    - discriminate.
    - intros [(? & _)|[(? & _)|[(? & _)|(_ & -> & _)]]]; try discriminate.
      contradiction. }
  rewrite lookup_insert_ne by congruence. rewrite lookup_empty.
  split; [discriminate|].
  intros [(? & _)|[(? & _)|[(? & _)|(? & _)]]]; contradiction.
Qed.

(** X22: names are normalised, passwords are not.  A user that
    [authenticate] returns carries the lower-cased name and signs in again
    under it with the same password; and any sign-in under a name that
    differs from this one in case only needs the same password and gives
    the same user. *)
Theorem authenticate_normalises (username password : string) (user : AuthUser.t) :
  authenticate username password = Some user ->
  AuthUser.username user = toLowerCase username /\
  authenticate (AuthUser.username user) password = Some user /\
  forall (username' password' : string) (user' : AuthUser.t),
    toLowerCase username' = toLowerCase username ->
    authenticate username' password' = Some user' ->
    password' = password /\ user' = user.
Proof.
  unfold authenticate.
  destruct (CREDENTIALS !! toLowerCase username) as [cred|] eqn:E;
    [|discriminate].
  case_bool_decide as Hp; [|discriminate]. intros [= <-].
  cbn [AuthUser.username]. split; [reflexivity|]. split.
  - rewrite toLowerCase_idem, E. by rewrite bool_decide_eq_true_2.
  - intros u' p' a' Hu. rewrite Hu, E.
    case_bool_decide as Hp'; [|discriminate]. intros [= <-].
    split; [congruence|reflexivity].
Qed.

Lemma authenticate_normalises_witness :
  authenticate "Admin" "admin123" = Some (AuthUser.mk "admin" ADMIN "Admin") /\
  authenticate "admin" "admin123" = Some (AuthUser.mk "admin" ADMIN "Admin").
Proof.
  assert (H : authenticate "Admin" "admin123"
              = Some (AuthUser.mk "admin" ADMIN "Admin")) by reflexivity.
  split; [exact H|].
  exact (proj1 (proj2 (authenticate_normalises _ _ _ H))).
Defined.

Example authenticate_samples :
  authenticate "HR" "hr123" = Some (AuthUser.mk "hr" HR "HR Operator") /\
  authenticate "hr" "HR123" = None /\
  authenticate "root" "admin123" = None /\
  authenticate "" "" = None.
Proof. repeat split. Qed.
